(** * StockPocket: the services layer, embedded and verified

    A shallow embedding of the TypeScript services of StockPocket
    (app/services): the file service, the external data clients, the
    Gemini orchestration and the two session stores.  Asynchronous
    functions are written in a state-and-exception monad over an explicit
    world (the log of AI backend calls, the log of HTTP requests, the
    storage contents); promises that reject are exceptional completions. *)

From Stdlib Require Import ZArith Lia Bool Ascii String DecimalString DecimalNat.
From stdpp Require Import base option list strings gmap.

Local Open Scope string_scope.
Local Open Scope Z_scope.

Set Warnings "-register-all".

(* ===================================================================== *)
(** * JavaScript values *)
(* ===================================================================== *)

Module Js.

(** Values that cross the JSON and Firestore boundaries.  Numbers that the
    services compute with are byte counts and millisecond timestamps, so
    numbers are integers here. *)
Inductive JsVal : Type :=
  | JUndefined
  | JNull
  | JBool (b : bool)
  | JNum (n : Z)
  | JStr (s : string)
  | JArr (items : list JsVal)
  | JObj (fields : list (string * JsVal)).

(** Induction principle that reaches inside arrays and objects. *)
Section JsVal_nested_ind.
Variable P : JsVal -> Prop.
Hypothesis Hundef : P JUndefined.
Hypothesis Hnull : P JNull.
Hypothesis Hbool : forall b, P (JBool b).
Hypothesis Hnum : forall n, P (JNum n).
Hypothesis Hstr : forall s, P (JStr s).
Hypothesis Harr : forall items, Forall P items -> P (JArr items).
Hypothesis Hobj : forall fields, Forall (fun kv => P (snd kv)) fields -> P (JObj fields).

Fixpoint JsVal_nested_ind (v : JsVal) : P v :=
  match v with
  | JUndefined => Hundef
  | JNull => Hnull
  | JBool b => Hbool b
  | JNum n => Hnum n
  | JStr s => Hstr s
  | JArr items =>
      Harr items
        ((fix go (l : list JsVal) : Forall P l :=
            match l with
            | [] => List.Forall_nil P
            | x :: l' => @List.Forall_cons _ P x l' (JsVal_nested_ind x) (go l')
            end) items)
  | JObj fields =>
      Hobj fields
        ((fix go (l : list (string * JsVal)) : Forall (fun kv => P (snd kv)) l :=
            match l with
            | [] => List.Forall_nil _
            | kv :: l' =>
                @List.Forall_cons _ (fun kv => P (snd kv)) kv l'
                  (JsVal_nested_ind (snd kv)) (go l')
            end) fields)
  end.
End JsVal_nested_ind.

(** [!!v]: JavaScript truthiness. *)
Definition truthy (v : JsVal) : bool :=
  match v with
  | JUndefined | JNull => false
  | JBool b => b
  | JNum n => negb (n =? 0)
  | JStr s => negb (String.eqb s "")
  | JArr _ | JObj _ => true
  end.

(** [a || b] *)
Definition jsOr (a b : JsVal) : JsVal := if truthy a then a else b.

(** [typeof v === 'object' && v !== null] *)
Definition isObjectLike (v : JsVal) : bool :=
  match v with
  | JArr _ | JObj _ => true
  | _ => false
  end.

(** [Array.isArray(v)] *)
Definition isArray (v : JsVal) : bool :=
  match v with JArr _ => true | _ => false end.

Definition isUndefined (v : JsVal) : bool :=
  match v with JUndefined => true | _ => false end.

(** Own-property lookup in a field list; a missing key reads as [undefined]. *)
Fixpoint lookupField (k : string) (fields : list (string * JsVal)) : JsVal :=
  match fields with
  | [] => JUndefined
  | (k', v) :: rest => if String.eqb k k' then v else lookupField k rest
  end.

(** The decimal spelling of an array index, as [for ... in] produces it. *)
Definition indexKey (i : nat) : string :=
  NilEmpty.string_of_uint (Nat.to_uint i).

(** The decimal spelling of a number, as a template literal produces it. *)
Definition numberToString (n : Z) : string :=
  NilZero.string_of_int (Z.to_int n).

(** [s.includes(sub)] *)
Fixpoint includes (s sub : string) : bool :=
  String.prefix sub s ||
  match s with
  | EmptyString => false
  | String _ s' => includes s' sub
  end.

(** [a || b] on a string that may be missing: the empty string is falsy. *)
Definition strOr (a : option string) (b : string) : string :=
  match a with
  | Some s => if String.eqb s "" then b else s
  | None => b
  end.

(** A string-valued property that may be missing, as a value. *)
Definition ofOptStr (o : option string) : JsVal :=
  match o with Some s => JStr s | None => JUndefined end.

Definition ofOptNum (o : option Z) : JsVal :=
  match o with Some n => JNum n | None => JUndefined end.

Definition ofOptBool (o : option bool) : JsVal :=
  match o with Some b => JBool b | None => JUndefined end.

End Js.
Import Js.

(* ===================================================================== *)
(** * app/types/index.ts *)
(* ===================================================================== *)

(** Interfaces are records.  TypeScript types are erased at run time: an
    object read back from a store may lack a property its interface
    declares (the remote store keeps no attachment [content]), so every
    property is optional here and [None] is the JavaScript [undefined]. *)

Record Attachment := mkAttachment {
  att_name : option string;
  att_mimeType : option string;
  att_data : option string
}.

Inductive FileType := pdf | excel | csv | txt.

Definition FileType_eqb (a b : FileType) : bool :=
  match a, b with
  | pdf, pdf | excel, excel | csv, csv | txt, txt => true
  | _, _ => false
  end.

Definition fileTypeName (t : FileType) : string :=
  match t with
  | pdf => "pdf" | excel => "excel" | csv => "csv" | txt => "txt"
  end.

Record FileAttachment := mkFileAttachment {
  fa_id : option string;
  fa_name : option string;
  fa_type : option FileType;
  fa_size : option Z;
  fa_uri : option string;
  fa_content : option string;
  fa_mimeType : option string
}.

Record GroundingSource := mkGroundingSource {
  gs_uri : option string;
  gs_title : option string
}.

Record WebRef := mkWebRef {
  web_uri : option string;
  web_title : option string
}.

Record GroundingChunk := mkGroundingChunk {
  web : option WebRef
}.

Record Message := mkMessage {
  m_id : option string;
  m_content : option string;
  m_role : option string;
  m_timestamp : option Z;
  m_attachments : option (list FileAttachment);
  m_sources : option (list GroundingSource);
  m_isPlaceholder : option bool
}.

Record ChatSession := mkChatSession {
  s_id : string;
  s_title : option string;
  s_messages : list Message;
  s_createdAt : option Z;
  s_updatedAt : option Z;
  s_attachments : option (list FileAttachment)
}.

(* ===================================================================== *)
(** * services/fileService.ts *)
(* ===================================================================== *)

Module FileService.

Record ValidationResult := mkValidation {
  valid : bool;
  error : option string
}.

Definition MB : Z := 1024 * 1024.

(** [file.type === 'pdf' ? 10 * 1024 * 1024 : 5 * 1024 * 1024] *)
Definition maxSize (t : option FileType) : Z :=
  match t with
  | Some pdf => 10 * 1024 * 1024
  | _ => 5 * 1024 * 1024
  end.

Definition maxSizeLabel (t : option FileType) : string :=
  match t with
  | Some pdf => "10MB"
  | _ => "5MB"
  end.

(** The error of the size check. *)
Definition TooLarge (t : option FileType) : ValidationResult :=
  {| valid := false;
     error := Some ("File terlalu besar. Maksimal " ++ maxSizeLabel t) |}.

(** The error of the content check. *)
Definition Empty : ValidationResult :=
  {| valid := false; error := Some "File kosong atau tidak dapat dibaca" |}.

Definition Valid : ValidationResult :=
  {| valid := true; error := None |}.

(** [file.size > maxSize]; a missing size compares false. *)
Definition sizeExceeds (size : option Z) (limit : Z) : bool :=
  match size with
  | Some n => limit <? n
  | None => false
  end.

(** [!file.content || file.content.length === 0] *)
Definition contentMissing (content : option string) : bool :=
  match content with
  | Some s => Nat.eqb (String.length s) 0
  | None => true
  end.

Definition validateFile (file : FileAttachment) : ValidationResult :=
  if sizeExceeds (fa_size file) (maxSize (fa_type file)) then TooLarge (fa_type file)
  else if contentMissing (fa_content file) then Empty
  else Valid.

End FileService.

(* ===================================================================== *)
(** * The @google/genai interface *)
(* ===================================================================== *)

(** The request and response shapes of the SDK, as far as geminiService.ts
    reads and writes them.  The SDK's type declarations are not part of
    the repository. *)
Module GenAI.

(** Modelled from the spec: the type of a tool call, [{name, arguments}].
    The SDK declares [name], [args] and [id] optional, and
    geminiService.ts reads [call.args] through the unchecked cast
    [call.args as { ticker: string }]: [fc_args] is the value found
    there, an object when the backend sends arguments and [undefined] when
    it sends none. *)
Record FunctionCall := mkFunctionCall {
  fc_name : option string;
  fc_args : JsVal;
  fc_id : option string
}.

Record FunctionResponse := mkFunctionResponse {
  fr_name : option string;
  fr_response : JsVal;
  fr_id : option string
}.

Inductive Part :=
  | PText (text : option string)
  | PInlineData (mimeType data : option string)
  | PFunctionCall (call : FunctionCall)
  | PFunctionResponse (resp : FunctionResponse).

Inductive ChatRole := user | model.

(** [ChatHistoryItem] of geminiService.ts: one turn of the [contents]. *)
Record ChatHistoryItem := mkItem {
  role : ChatRole;
  parts : list Part
}.

Record Content := mkContent {
  c_parts : option (list Part)
}.

Record GroundingMetadata := mkGroundingMetadata {
  groundingChunks : option (list GroundingChunk)
}.

Record Candidate := mkCandidate {
  content : option Content;
  groundingMetadata : option GroundingMetadata
}.

(** Modelled from the spec: the type of a backend reply, which carries
    either text, or one or more function-call parts, plus optional grounding
    metadata with [{web: {uri, title}}] chunks.  [resp_text] is what the
    SDK's [response.text] accessor returns. *)
Record GenerateContentResponse := mkResponse {
  candidates : option (list Candidate);
  resp_text : option string
}.

Inductive SchemaType := OBJECT | STRING.

Record PropertySchema := mkProperty {
  p_name : string;
  p_type : SchemaType;
  p_description : string
}.

Record FunctionDeclaration := mkDeclaration {
  fd_name : string;
  fd_description : string;
  fd_type : SchemaType;
  fd_properties : list PropertySchema;
  fd_required : list string
}.

Record Tool := mkTool {
  functionDeclarations : list FunctionDeclaration
}.

(** The temperature is kept as the literal of the source. *)
Record GenerateContentConfig := mkConfig {
  cfg_systemInstruction : string;
  cfg_temperature : option string;
  cfg_tools : list Tool
}.

Record GenerateContentParameters := mkParameters {
  p_model : string;
  contents : list ChatHistoryItem;
  config : GenerateContentConfig
}.

End GenAI.
Import GenAI.

(* ===================================================================== *)
(** * Effects: the world, exceptions, and the platform *)
(* ===================================================================== *)

Module Effects.

(** A thrown value: an [Error] object, whose [message] may be missing. *)
Record JsError := mkError {
  message : option string
}.

Inductive Completion (A : Type) : Type :=
  | Normal (a : A)
  | Throw (e : JsError).
Arguments Normal {A} a.
Arguments Throw {A} e.

Record HttpResponse := mkHttpResponse {
  ok : bool;
  status : Z;
  json : Completion JsVal
}.

(** What the services observe of the platform: the configured keys and the
    behaviour of the network, of the AI backend and of the library
    functions they call.  The n-th request may be answered differently
    from the ones before it. *)
Record Env := mkEnv {
  extra_GEMINI_API_KEY : option string;
  env_GEMINI_API_KEY : option string;
  extra_FMP_API_KEY : option string;
  env_FMP_API_KEY : option string;
  extra_NEWS_API_KEY : option string;
  env_NEWS_API_KEY : option string;
  fetch : nat -> string -> Completion HttpResponse;
  generateContent : nat -> GenerateContentParameters -> Completion GenerateContentResponse;
  URL_hostname : option string -> Completion string;
  encodeURIComponent : JsVal -> string;
  URLSearchParams_toString : list (string * string) -> string;
  parseInt : JsVal -> option Z;
  toISOString : Z -> string
}.

(** The mutable world: every HTTP request and every AI backend call made so
    far (oldest first), the transcript mirror of the Gemini service, and
    the clock read by [Date.now()]. *)
Record World := mkWorld {
  fetchLog : list string;
  aiLog : list GenerateContentParameters;
  conversationHistory : list ChatHistoryItem;
  clock : Z
}.

(** An asynchronous function over a state [S]: it completes normally or
    by throwing, and leaves a new state. *)
Definition ST (S A : Type) : Type := S -> Completion A * S.

Definition ret {S A} (a : A) : ST S A := fun w => (Normal a, w).

Definition bind {S A B} (m : ST S A) (k : A -> ST S B) : ST S B :=
  fun w =>
    match m w with
    | (Normal a, w') => k a w'
    | (Throw e, w') => (Throw e, w')
    end.

Definition throw {S A} (e : JsError) : ST S A := fun w => (Throw e, w).

(** [try { body } catch (error) { handler(error) }] *)
Definition try_catch {S A} (body : ST S A) (handler : JsError -> ST S A) : ST S A :=
  fun w =>
    match body w with
    | (Normal a, w') => (Normal a, w')
    | (Throw e, w') => handler e w'
    end.

Definition liftC {S A} (c : Completion A) : ST S A := fun w => (c, w).

(** The services that talk to the network and to the AI backend. *)
Definition M (A : Type) : Type := ST World A.

Declare Scope js_scope.
Delimit Scope js_scope with js.
Notation "x <- m ;; k" := (bind m (fun x => k))
  (at level 100, m at next level, right associativity) : js_scope.
Open Scope js_scope.

(** A loop body run over a list, left to right: [for (const x of xs)]. *)
Fixpoint forM {A B} (f : A -> M B) (xs : list A) : M (list B) :=
  match xs with
  | [] => ret []
  | x :: rest =>
      y <- f x ;;
      ys <- forM f rest ;;
      ret (y :: ys)
  end.

Definition TypeError (msg : string) : JsError := mkError (Some msg).

Section Platform.
Variable env : Env.

(** [await fetch(url)]: the request is logged, then answered. *)
Definition doFetch (url : string) : M HttpResponse :=
  fun w =>
    (fetch env (List.length (fetchLog w)) url,
     {| fetchLog := fetchLog w ++ [url];
        aiLog := aiLog w;
        conversationHistory := conversationHistory w;
        clock := clock w |}).

(** [await response.json()] *)
Definition readJson (r : HttpResponse) : M JsVal := liftC (json r).

(** [await ai.models.generateContent(params)] *)
Definition callGenerateContent (params : GenerateContentParameters)
  : M GenerateContentResponse :=
  fun w =>
    (generateContent env (List.length (aiLog w)) params,
     {| fetchLog := fetchLog w;
        aiLog := aiLog w ++ [params];
        conversationHistory := conversationHistory w;
        clock := clock w |}).

(** [Date.now()] *)
Definition Date_now : M Z := fun w => (Normal (clock w), w).
End Platform.

(** [v.k]: reading a property of [null] or [undefined] throws; primitives
    and arrays have none of the properties the services read. *)
Definition getProp (v : JsVal) (k : string) : M JsVal :=
  match v with
  | JUndefined | JNull =>
      throw (TypeError ("Cannot read properties of undefined (reading '" ++ k ++ "')"))
  | JObj fields => ret (lookupField k fields)
  | _ => ret JUndefined
  end.

(** [v.k] where [v] is known to be truthy. *)
Definition prop (v : JsVal) (k : string) : JsVal :=
  match v with
  | JObj fields => lookupField k fields
  | _ => JUndefined
  end.

(** [v.k1 || v.k2 || ... || d] *)
Fixpoint propOr (v : JsVal) (keys : list string) (d : JsVal) : JsVal :=
  match keys with
  | [] => d
  | k :: rest => jsOr (prop v k) (propOr v rest d)
  end.

(** [data[0]] *)
Definition first (v : JsVal) : JsVal :=
  match v with
  | JArr (x :: _) => x
  | _ => JUndefined
  end.

(** [data.slice(0, n)] *)
Definition slice0 (n : Z) (l : list JsVal) : list JsVal :=
  if 0 <=? n then take (Z.to_nat n) l
  else take (List.length l - Z.to_nat (- n))%nat l.

(** [a === b] against a string literal. *)
Definition isStr (v : JsVal) (s : string) : bool :=
  match v with
  | JStr s' => String.eqb s' s
  | _ => false
  end.

End Effects.
Import Effects.

(* ===================================================================== *)
(** * services/externalDataService.ts *)
(* ===================================================================== *)

Module ExternalDataService.
Section WithEnv.
Variable env : Env.

Definition FMP_API_KEY : string :=
  strOr (extra_FMP_API_KEY env) (strOr (env_FMP_API_KEY env) "demo").

Definition NEWS_API_KEY : string :=
  strOr (extra_NEWS_API_KEY env) (strOr (env_NEWS_API_KEY env) "demo").

Definition FMP_BASE_URL : string := "https://financialmodelingprep.com/stable".

(** [FMP_API_KEY && FMP_API_KEY !== 'demo'] *)
Definition checkApiKey : bool :=
  negb (String.eqb FMP_API_KEY "") && negb (String.eqb FMP_API_KEY "demo").

(** Stock news is disabled: the empty array, whatever the ticker. *)
Definition fetchStockNews (ticker : JsVal) : M JsVal :=
  ret (JArr []).

Definition macroNewsItem (item : JsVal) : M JsVal :=
  title <- getProp item "title" ;;
  publishedAt <- getProp item "publishedAt" ;;
  source <- getProp item "source" ;;
  sourceName <- (match source with
                 | JUndefined | JNull => ret JUndefined
                 | _ => getProp source "name"
                 end) ;;
  description <- getProp item "description" ;;
  url <- getProp item "url" ;;
  ret (JObj [("title", jsOr title (JStr ""));
             ("publishedDate", jsOr publishedAt (JStr ""));
             ("source", jsOr sourceName (JStr ""));
             ("summary", jsOr description (JStr ""));
             ("url", jsOr url (JStr ""))]).

(** [xs.map(f)] on a value that may not be an array. *)
Definition mapArray (f : JsVal -> M JsVal) (v : JsVal) : M JsVal :=
  match v with
  | JArr items => ys <- forM f items ;; ret (JArr ys)
  | JUndefined | JNull =>
      throw (TypeError "Cannot read properties of undefined (reading 'map')")
  | _ => throw (TypeError "map is not a function")
  end.

Definition fetchMacroNewsFromNewsAPI (query : JsVal) : M JsVal :=
  try_catch
    (if String.eqb NEWS_API_KEY "" || String.eqb NEWS_API_KEY "demo"
     then ret (JArr [])
     else
       response <- doFetch env
         ("https://newsapi.org/v2/everything?q=" ++ encodeURIComponent env query
           ++ "&language=id&sortBy=publishedAt&pageSize=5&apiKey=" ++ NEWS_API_KEY) ;;
       data <- readJson response ;;
       st <- getProp data "status" ;;
       if negb (isStr st "ok") then ret (JArr [])
       else
         articles <- getProp data "articles" ;;
         mapArray macroNewsItem articles)
    (fun _ => ret (JArr [])).

(** [query] defaults to ["economy"] when the argument is [undefined]. *)
Definition fetchMacroNews (query : JsVal) : M JsVal :=
  fetchMacroNewsFromNewsAPI
    (match query with JUndefined => JStr "economy" | q => q end).

(** The single-entity lookups share one shape: guard, request, first
    element, then the shaping of the reply. *)
Definition fetchOne (url : string) (shape : JsVal -> M JsVal) : M JsVal :=
  try_catch
    (if negb checkApiKey then ret JNull
     else
       response <- doFetch env url ;;
       if negb (ok response) then ret JNull
       else
         data <- readJson response ;;
         let item := if isArray data then first data else data in
         if negb (truthy item) then ret JNull
         else shape item)
    (fun _ => ret JNull).

Definition fetchStockQuote (ticker : string) : M JsVal :=
  fetchOne (FMP_BASE_URL ++ "/quote?symbol=" ++ ticker ++ "&apikey=" ++ FMP_API_KEY)
    (fun quote =>
       ret (JObj [("symbol", propOr quote ["symbol"] (JStr ticker));
                  ("name", propOr quote ["name"; "companyName"] (JStr ""));
                  ("price", propOr quote ["price"] (JNum 0));
                  ("change", propOr quote ["change"] (JNum 0));
                  ("changesPercentage", propOr quote ["changesPercentage"] (JNum 0));
                  ("dayLow", propOr quote ["dayLow"] (JNum 0));
                  ("dayHigh", propOr quote ["dayHigh"] (JNum 0));
                  ("yearLow", propOr quote ["yearLow"] (JNum 0));
                  ("yearHigh", propOr quote ["yearHigh"] (JNum 0));
                  ("marketCap", propOr quote ["marketCap"] (JNum 0));
                  ("volume", propOr quote ["volume"] (JNum 0));
                  ("avgVolume", propOr quote ["avgVolume"] (JNum 0));
                  ("open", propOr quote ["open"] (JNum 0));
                  ("previousClose", propOr quote ["previousClose"] (JNum 0));
                  ("pe", propOr quote ["pe"] (JNum 0));
                  ("eps", propOr quote ["eps"] (JNum 0));
                  ("earningsAnnouncement", propOr quote ["earningsAnnouncement"] (JStr ""))])).

(** [parseInt(x) || 0] *)
Definition parseIntOr0 (x : JsVal) : JsVal :=
  match parseInt env x with
  | Some n => JNum n
  | None => JNum 0
  end.

Definition fetchCompanyProfile (ticker : string) : M JsVal :=
  fetchOne (FMP_BASE_URL ++ "/profile?symbol=" ++ ticker ++ "&apikey=" ++ FMP_API_KEY)
    (fun profile =>
       ret (JObj [("symbol", propOr profile ["symbol"] (JStr ticker));
                  ("companyName", propOr profile ["companyName"; "name"] (JStr ""));
                  ("currency", propOr profile ["currency"] (JStr "USD"));
                  ("exchange", propOr profile ["exchangeShortName"; "exchange"] (JStr ""));
                  ("industry", propOr profile ["industry"] (JStr ""));
                  ("sector", propOr profile ["sector"] (JStr ""));
                  ("country", propOr profile ["country"] (JStr ""));
                  ("description", propOr profile ["description"] (JStr ""));
                  ("ceo", propOr profile ["ceo"] (JStr ""));
                  ("website", propOr profile ["website"] (JStr ""));
                  ("employees", parseIntOr0 (prop profile "fullTimeEmployees"));
                  ("marketCap", propOr profile ["mktCap"; "marketCap"] (JNum 0));
                  ("price", propOr profile ["price"] (JNum 0));
                  ("beta", propOr profile ["beta"] (JNum 0));
                  ("ipoDate", propOr profile ["ipoDate"] (JStr ""))])).

Definition fetchKeyMetrics (ticker : string) : M JsVal :=
  fetchOne (FMP_BASE_URL ++ "/key-metrics-ttm?symbol=" ++ ticker ++ "&apikey=" ++ FMP_API_KEY)
    (fun metrics =>
       now <- Date_now ;;
       ret (JObj [("symbol", JStr ticker);
                  ("date", propOr metrics ["date"] (JStr (toISOString env now)));
                  ("peRatio", propOr metrics ["peRatioTTM"] (JNum 0));
                  ("pbRatio", propOr metrics ["pbRatioTTM"] (JNum 0));
                  ("debtToEquity", propOr metrics ["debtToEquityTTM"] (JNum 0));
                  ("currentRatio", propOr metrics ["currentRatioTTM"] (JNum 0));
                  ("roe", propOr metrics ["roeTTM"] (JNum 0));
                  ("roa", propOr metrics ["roaTTM"] (JNum 0));
                  ("dividendYield", propOr metrics ["dividendYieldTTM"] (JNum 0));
                  ("priceToSalesRatio", propOr metrics ["priceToSalesRatioTTM"] (JNum 0));
                  ("enterpriseValue", propOr metrics ["enterpriseValueTTM"] (JNum 0))])).

(** The list lookups share one shape: guard, request, array check, then
    the shaping of the array. *)
Definition fetchMany (url : string) (shape : list JsVal -> M JsVal) : M JsVal :=
  try_catch
    (if negb checkApiKey then ret (JArr [])
     else
       response <- doFetch env url ;;
       if negb (ok response) then ret (JArr [])
       else
         data <- readJson response ;;
         match data with
         | JArr items => shape items
         | _ => ret (JArr [])
         end)
    (fun _ => ret (JArr [])).

(** [item.k1 || item.k2 || ... || d] where [item] may be [null]. *)
Fixpoint getPropOr (item : JsVal) (keys : list string) (d : JsVal) : M JsVal :=
  match keys with
  | [] => ret d
  | k :: rest =>
      v <- getProp item k ;;
      if truthy v then ret v else getPropOr item rest d
  end.

Definition fetchIncomeStatement (ticker : string)
    (period_arg : option string) (limit_arg : option Z) : M JsVal :=
  let period := default "annual" period_arg in
  let limit := default 4 limit_arg in
  fetchMany
    (FMP_BASE_URL ++ "/income-statement?symbol=" ++ ticker ++ "&period=" ++ period
      ++ "&limit=" ++ numberToString limit ++ "&apikey=" ++ FMP_API_KEY)
    (fun items =>
       ys <- forM (fun item =>
               date <- getPropOr item ["date"] (JStr "") ;;
               per <- getPropOr item ["period"] (JStr period) ;;
               revenue <- getPropOr item ["revenue"] (JNum 0) ;;
               netIncome <- getPropOr item ["netIncome"] (JNum 0) ;;
               grossProfit <- getPropOr item ["grossProfit"] (JNum 0) ;;
               operatingIncome <- getPropOr item ["operatingIncome"] (JNum 0) ;;
               eps <- getPropOr item ["eps"] (JNum 0) ;;
               ret (JObj [("date", date); ("period", per); ("revenue", revenue);
                          ("netIncome", netIncome); ("grossProfit", grossProfit);
                          ("operatingIncome", operatingIncome); ("eps", eps)])) items ;;
       ret (JArr ys)).

Definition fetchHistoricalPrices (ticker : string) (days_arg : option Z) : M JsVal :=
  let days := default 30 days_arg in
  fetchMany
    (FMP_BASE_URL ++ "/historical-price-eod/light?symbol=" ++ ticker ++ "&apikey=" ++ FMP_API_KEY)
    (fun items =>
       ys <- forM (fun item =>
               date <- getProp item "date" ;;
               price <- getPropOr item ["close"] JUndefined ;;
               price' <- (if truthy price then ret price else getProp item "price") ;;
               volume <- getProp item "volume" ;;
               ret (JObj [("date", date); ("price", price'); ("volume", volume)]))
             (slice0 days items) ;;
       ret (JArr ys)).

Definition searchStocks (query : string) : M JsVal :=
  fetchMany
    (FMP_BASE_URL ++ "/search-symbol?query=" ++ encodeURIComponent env (JStr query)
      ++ "&limit=10&apikey=" ++ FMP_API_KEY)
    (fun items =>
       ys <- forM (fun item =>
               symbol <- getProp item "symbol" ;;
               name <- getProp item "name" ;;
               exchangeShort <- getProp item "exchangeShortName" ;;
               exchange <- (if truthy exchangeShort then ret exchangeShort
                            else getProp item "exchange") ;;
               currency <- getProp item "currency" ;;
               ret (JObj [("symbol", symbol); ("name", name);
                          ("exchange", exchange); ("currency", currency)])) items ;;
       ret (JArr ys)).

Definition fetchMarketGainers : M JsVal :=
  fetchMany (FMP_BASE_URL ++ "/biggest-gainers?apikey=" ++ FMP_API_KEY)
    (fun items => ret (JArr (slice0 10 items))).

Definition fetchMarketLosers : M JsVal :=
  fetchMany (FMP_BASE_URL ++ "/biggest-losers?apikey=" ++ FMP_API_KEY)
    (fun items => ret (JArr (slice0 10 items))).

Definition fetchEconomicIndicator (indicator_arg : option string) : M JsVal :=
  let indicator := default "GDP" indicator_arg in
  fetchMany (FMP_BASE_URL ++ "/economic-indicators?name=" ++ indicator ++ "&apikey=" ++ FMP_API_KEY)
    (fun items => ret (JArr (slice0 10 items))).

End WithEnv.
End ExternalDataService.

(* ===================================================================== *)
(** * services/fmpService.ts *)
(* ===================================================================== *)

Module FMPService.
Section WithEnv.
Variable env : Env.

Definition API_KEY : string := strOr (env_FMP_API_KEY env) "".

Definition API_ENDPOINT : string := "https://financialmodelingprep.com/stable".

(** [API_KEY && API_KEY.length > 5] *)
Definition IS_FMP_ENABLED : bool :=
  negb (String.eqb API_KEY "") && (5 <? String.length API_KEY)%nat.

(** [if (data.error) return null; return Array.isArray(data) ? data[0] : data] *)
Definition getOne (url : string) : M JsVal :=
  if negb IS_FMP_ENABLED then ret JNull
  else
    try_catch
      (response <- doFetch env url ;;
       data <- readJson response ;;
       err <- getProp data "error" ;;
       if truthy err then ret JNull
       else ret (if isArray data then first data else data))
      (fun _ => ret JNull).

(** [if (data.error) return []; return Array.isArray(data) ? data : []] *)
Definition getMany (url : string) : M JsVal :=
  if negb IS_FMP_ENABLED then ret (JArr [])
  else
    try_catch
      (response <- doFetch env url ;;
       data <- readJson response ;;
       err <- getProp data "error" ;;
       if truthy err then ret (JArr [])
       else ret (if isArray data then data else JArr []))
      (fun _ => ret (JArr [])).

Definition getQuote (symbol : string) : M JsVal :=
  getOne (API_ENDPOINT ++ "/quote?symbol=" ++ symbol ++ "&apikey=" ++ API_KEY).

(** [symbols.join(',')] *)
Fixpoint join (symbols : list string) : string :=
  match symbols with
  | [] => ""
  | [s] => s
  | s :: rest => s ++ "," ++ join rest
  end.

Definition getMultipleQuotes (symbols : list string) : M JsVal :=
  getMany (API_ENDPOINT ++ "/quote?symbol=" ++ join symbols ++ "&apikey=" ++ API_KEY).

Definition getCompanyProfile (symbol : string) : M JsVal :=
  getOne (API_ENDPOINT ++ "/profile?symbol=" ++ symbol ++ "&apikey=" ++ API_KEY).

(** Disabled: the empty array, whatever the symbol and the limit. *)
Definition getStockNews (symbol : string) (limit : option Z) : M JsVal :=
  ret (JArr []).

Definition getGeneralNews (limit : option Z) : M JsVal :=
  ret (JArr []).

Definition statementUrl (endpoint symbol : string)
    (period_arg : option string) (limit_arg : option Z) : string :=
  API_ENDPOINT ++ endpoint ++ "?symbol=" ++ symbol
    ++ "&period=" ++ default "annual" period_arg
    ++ "&limit=" ++ numberToString (default 5 limit_arg)
    ++ "&apikey=" ++ API_KEY.

Definition getIncomeStatement (symbol : string)
    (period : option string) (limit : option Z) : M JsVal :=
  getMany (statementUrl "/income-statement" symbol period limit).

Definition getBalanceSheet (symbol : string)
    (period : option string) (limit : option Z) : M JsVal :=
  getMany (statementUrl "/balance-sheet-statement" symbol period limit).

Definition getCashFlowStatement (symbol : string)
    (period : option string) (limit : option Z) : M JsVal :=
  getMany (statementUrl "/cash-flow-statement" symbol period limit).

Definition getKeyMetrics (symbol : string)
    (period : option string) (limit : option Z) : M JsVal :=
  getMany (statementUrl "/key-metrics" symbol period limit).

Definition getBiggestGainers : M JsVal :=
  getMany (API_ENDPOINT ++ "/biggest-gainers?apikey=" ++ API_KEY).

Definition getBiggestLosers : M JsVal :=
  getMany (API_ENDPOINT ++ "/biggest-losers?apikey=" ++ API_KEY).

Definition searchSymbol (query : string) (limit : option Z) : M JsVal :=
  getMany (API_ENDPOINT ++ "/search?query=" ++ encodeURIComponent env (JStr query)
            ++ "&limit=" ++ numberToString (default 10 limit)
            ++ "&apikey=" ++ API_KEY).

End WithEnv.
End FMPService.

(* ===================================================================== *)
(** * services/newsService.ts *)
(* ===================================================================== *)

Module NewsService.
Section WithEnv.
Variable env : Env.

Definition API_KEY : string := strOr (env_NEWS_API_KEY env) "".

Definition API_ENDPOINT : string := "https://newsapi.org/v2/everything".

(** [API_KEY && API_KEY !== 'YOUR_NEWS_API_KEY_HERE'].  The source
    computes this flag and never reads it. *)
Definition IS_NEWS_ENABLED : bool :=
  negb (String.eqb API_KEY "") && negb (String.eqb API_KEY "YOUR_NEWS_API_KEY_HERE").

(** [cleaned[key] = v]: an existing key keeps its place. *)
Fixpoint setField (k : string) (v : JsVal) (fields : list (string * JsVal))
  : list (string * JsVal) :=
  match fields with
  | [] => [(k, v)]
  | (k', v') :: rest =>
      if String.eqb k k' then (k, v) :: rest else (k', v') :: setField k v rest
  end.

(** [articles.filter(a => a.title && a.description)] *)
Fixpoint keepComplete (articles : list JsVal) : M (list JsVal) :=
  match articles with
  | [] => ret []
  | a :: rest =>
      title <- getProp a "title" ;;
      keep <- (if truthy title
               then description <- getProp a "description" ;; ret (truthy description)
               else ret false) ;;
      kept <- keepComplete rest ;;
      ret (if keep : bool then a :: kept else kept)
  end.

(** [.map((article, index) => ({...article, id: `news_${Date.now()}_${index}`}))] *)
Fixpoint withIds (now : Z) (index : nat) (articles : list JsVal) : list JsVal :=
  match articles with
  | [] => []
  | a :: rest =>
      let id := JStr ("news_" ++ numberToString now ++ "_" ++ indexKey index) in
      JObj (setField "id" id (match a with JObj fields => fields | _ => [] end))
        :: withIds now (S index) rest
  end.

Definition searchFinancialNews (query_arg : option string) (limit_arg : option Z) : M JsVal :=
  let query := default "saham ekonomi" query_arg in
  let limit := default 5 limit_arg in
  try_catch
    (if String.eqb API_KEY "" then ret (JArr [])
     else
       let searchQuery := query ++ " saham OR pasar OR investasi OR ekonomi" in
       let params := URLSearchParams_toString env
                       [("q", searchQuery); ("language", "id");
                        ("sortBy", "publishedAt");
                        ("pageSize", numberToString limit);
                        ("apiKey", API_KEY)] in
       response <- doFetch env (API_ENDPOINT ++ "?" ++ params) ;;
       if negb (ok response) then
         error <- readJson response ;;
         _ <- getProp error "message" ;;
         ret (JArr [])
       else
         data <- readJson response ;;
         st <- getProp data "status" ;;
         articles <- getProp data "articles" ;;
         if negb (isStr st "ok") || negb (truthy articles) then ret (JArr [])
         else
           match articles with
           | JArr items =>
               kept <- keepComplete items ;;
               now <- Date_now ;;
               ret (JArr (withIds now 0 kept))
           | _ => throw (TypeError "filter is not a function")
           end)
    (fun _ => ret (JArr [])).

Definition getStockNews (stockSymbol : string) (limit : option Z) : M JsVal :=
  try_catch
    (searchFinancialNews (Some (stockSymbol ++ " saham")) limit)
    (fun _ => ret (JArr [])).

Definition getMacroEconomicNews (limit : option Z) : M JsVal :=
  try_catch
    (searchFinancialNews (Some "inflasi BI suku bunga ekonomi Indonesia") limit)
    (fun _ => ret (JArr [])).

End WithEnv.
End NewsService.

(* ===================================================================== *)
(** * services/geminiService.ts *)
(* ===================================================================== *)

Module GeminiService.

Definition dq : string := String (Ascii.ascii_of_nat 34) EmptyString.

Definition MODEL_NAME : string := "gemini-2.5-flash".

Definition SYSTEM_INSTRUCTION : string :=
  "
Anda adalah Asisten Penasihat Keuangan (Financial Advisor Assistant) kelas dunia yang cerdas dan profesional.
Tugas utama Anda adalah membantu pengguna menganalisis pasar saham, tren makro ekonomi, dan laporan keuangan perusahaan.

Panduan Gaya & Nada:
1.  **Profesional namun Ramah:** Gunakan bahasa Indonesia yang baik, baku, namun tidak kaku.
2.  **Data-Driven:** Gunakan data yang disediakan oleh " ++ dq ++ "Tools" ++ dq ++ " (Berita Saham/Makro) untuk memberikan jawaban terkini. JANGAN mengarang data pasar jika tidak ada di tools.
3.  **Analisis Berita:** Jika Anda menerima data berita dari tools, rangkum poin utamanya dan jelaskan dampaknya terhadap pasar atau saham terkait.
4.  **Konteks Laporan:** Jika pengguna mengunggah file (PDF/Excel), analisislah angka-angka kunci seperti Revenue, Net Income, Total Assets, Liabilities, dan hitung rasio keuangan jika memungkinkan.
5.  **Penyangkalan (Disclaimer):** Selalu ingatkan bahwa saran Anda adalah untuk tujuan informasi dan edukasi, bukan financial advice resmi.

Tools & Sumber Data:
- Gunakan `get_stock_news` jika pengguna bertanya tentang saham spesifik (contoh: BBCA, ASII, AAPL, GOTO).
- Gunakan `get_macro_news` jika pengguna bertanya tentang kondisi ekonomi umum, inflasi, suku bunga, atau kebijakan pemerintah.
- Jika tools tidak memberikan hasil yang cukup, gunakan pengetahuan internal Anda atau Google Search grounding untuk data terkini.

Kemampuan Analisis File:
- Anda BISA membaca dan menganalisis file PDF, Excel, dan CSV yang diunggah pengguna.
- Untuk laporan keuangan, fokus pada: Revenue, Net Income, Total Assets, Total Liabilities, Equity.
- Hitung rasio seperti: Net Profit Margin, Debt-to-Equity Ratio, ROE jika data tersedia.
- Berikan kesimpulan kesehatan keuangan perusahaan berdasarkan data.
".

Definition getStockNewsTool : FunctionDeclaration :=
  {| fd_name := "get_stock_news";
     fd_description := "Mengambil berita terbaru untuk kode saham (ticker) tertentu dari Financial Modeling Prep. Gunakan ini ketika user bertanya tentang saham spesifik.";
     fd_type := OBJECT;
     fd_properties :=
       [ {| p_name := "ticker"; p_type := STRING;
            p_description := "Kode saham (Ticker Symbol), contoh: BBCA, TLKM, AAPL, GOTO, ASII." |} ];
     fd_required := ["ticker"] |}.

Definition getMacroNewsTool : FunctionDeclaration :=
  {| fd_name := "get_macro_news";
     fd_description := "Mengambil berita makro ekonomi atau keuangan umum dari NewsAPI. Gunakan ini ketika user bertanya tentang ekonomi, inflasi, suku bunga, atau pasar secara umum.";
     fd_type := OBJECT;
     fd_properties :=
       [ {| p_name := "query"; p_type := STRING;
            p_description := "Kata kunci pencarian berita, contoh: 'inflasi indonesia', 'the fed', 'ihsg', 'suku bunga BI'." |} ];
     fd_required := ["query"] |}.

Definition tools : list Tool :=
  [ {| functionDeclarations := [getStockNewsTool; getMacroNewsTool] |} ].

(** The value [generateFinancialAdvice] resolves to. *)
Record Advice := mkAdvice {
  text : string;
  sources : list GroundingSource
}.

(** The four texts of the [catch] block. *)
Definition MSG_UNKNOWN : string :=
  "Maaf, terjadi kesalahan saat menghubungkan ke layanan AI.".
Definition MSG_CONFIGURATION : string :=
  "API Key tidak valid atau belum dikonfigurasi. Silakan cek EXPO_PUBLIC_GEMINI_API_KEY di file .env".
Definition MSG_NETWORK : string :=
  "Gagal terhubung ke server. Periksa koneksi internet Anda.".
Definition MSG_QUOTA : string :=
  "Kuota API habis. Silakan coba lagi nanti atau upgrade plan API Anda.".

Definition MSG_NO_RESPONSE : string :=
  "Maaf, saya tidak dapat menghasilkan respon saat ini.".

Definition MISSING_KEY_ERROR : JsError :=
  mkError (Some "API Key Gemini tidak dikonfigurasi. Silakan set EXPO_PUBLIC_GEMINI_API_KEY di .env").

(** [error.message?.includes(sub)] as a condition. *)
Definition messageIncludes (error : JsError) (sub : string) : bool :=
  match message error with
  | Some m => includes m sub
  | None => false
  end.

(** The [if / else if] chain of the [catch] block. *)
Definition errorMessage (error : JsError) : string :=
  if messageIncludes error "API Key" then MSG_CONFIGURATION
  else if messageIncludes error "network" || messageIncludes error "fetch" then MSG_NETWORK
  else if messageIncludes error "quota" then MSG_QUOTA
  else MSG_UNKNOWN.

(** [!msg.isPlaceholder] *)
Definition notPlaceholder (msg : Message) : bool :=
  match m_isPlaceholder msg with
  | Some true => false
  | _ => true
  end.

(** [msg.role === 'assistant' ? 'model' : 'user'] *)
Definition roleOf (msg : Message) : ChatRole :=
  match m_role msg with
  | Some r => if String.eqb r "assistant" then model else user
  | None => user
  end.

(** Step 1: [history.filter(...).map(...)] *)
Definition pastContent (history : list Message) : list ChatHistoryItem :=
  List.map (fun msg => {| role := roleOf msg; parts := [PText (m_content msg)] |})
           (List.filter notPlaceholder history).

(** Steps 2 and 3: the text part, then one inline part per attachment. *)
Definition currentParts (currentMessage : string) (attachments : list Attachment)
  : list Part :=
  PText (Some currentMessage)
    :: List.map (fun att => PInlineData (att_mimeType att) (att_data att)) attachments.

(** [call.name === literal] *)
Definition nameIs (name : option string) (literal : string) : bool :=
  match name with
  | Some n => String.eqb n literal
  | None => false
  end.

(** [parts.filter(part => part.functionCall)] *)
Definition functionCallsOf (ps : list Part) : list FunctionCall :=
  omap (fun p => match p with PFunctionCall c => Some c | _ => None end) ps.

(** [candidates && candidates[0]?.content?.parts] *)
Definition firstParts (response : GenerateContentResponse) : option (list Part) :=
  match candidates response with
  | Some (c :: _) =>
      match content c with
      | Some ct => c_parts ct
      | None => None
      end
  | _ => None
  end.

(** [response.candidates?.[0]?.groundingMetadata?.groundingChunks] *)
Definition chunksOf (response : GenerateContentResponse) : option (list GroundingChunk) :=
  match candidates response with
  | Some (c :: _) =>
      match groundingMetadata c with
      | Some gm => groundingChunks gm
      | None => None
      end
  | _ => None
  end.

Section WithEnv.
Variable env : Env.

Definition API_KEY : string :=
  strOr (extra_GEMINI_API_KEY env) (strOr (env_GEMINI_API_KEY env) "").

(** The body of the tool loop for one requested call.  [args.ticker] and
    [args.query] are read before the fetch: without [args] the read
    throws. *)
Definition executeTool (call : FunctionCall) : M Part :=
  apiResult <-
    (if nameIs (fc_name call) "get_stock_news" then
       ticker <- getProp (fc_args call) "ticker" ;;
       ExternalDataService.fetchStockNews ticker
     else if nameIs (fc_name call) "get_macro_news" then
       query <- getProp (fc_args call) "query" ;;
       ExternalDataService.fetchMacroNews env query
     else ret (JObj [("error", JStr "Unknown function")])) ;;
  ret (PFunctionResponse
         {| fr_name := fc_name call;
            fr_response := JObj [("result", apiResult)];
            fr_id := fc_id call |}).

(** Step 8, for one chunk: [chunk.web.title || new URL(chunk.web.uri).hostname] *)
Definition sourceOf (w : WebRef) : M GroundingSource :=
  title <- (match web_title w with
            | Some t => if String.eqb t "" then liftC (URL_hostname env (web_uri w)) else ret t
            | None => liftC (URL_hostname env (web_uri w))
            end) ;;
  ret {| gs_uri := web_uri w; gs_title := Some title |}.

Fixpoint extractSources (chunks : list GroundingChunk) : M (list GroundingSource) :=
  match chunks with
  | [] => ret []
  | chunk :: rest =>
      match web chunk with
      | Some w =>
          s <- sourceOf w ;;
          ss <- extractSources rest ;;
          ret (s :: ss)
      | None => extractSources rest
      end
  end.

(** [this.conversationHistory.push(...)] *)
Definition pushHistory (items : list ChatHistoryItem) : M unit :=
  fun w =>
    (Normal tt,
     {| fetchLog := fetchLog w;
        aiLog := aiLog w;
        conversationHistory := conversationHistory w ++ items;
        clock := clock w |}).

(** Step 4: the parameters of the initial call. *)
Definition firstRequest (history : list Message) (currentMessage : string)
    (attachments : list Attachment) : GenerateContentParameters :=
  {| p_model := MODEL_NAME;
     contents := pastContent history
       ++ [ {| role := user; parts := currentParts currentMessage attachments |} ];
     config := {| cfg_systemInstruction := SYSTEM_INSTRUCTION;
                  cfg_temperature := Some "0.7";
                  cfg_tools := tools |} |}.

(** Step 6: the parameters of the call that carries the tool results. *)
Definition secondRequest (history : list Message) (currentMessage : string)
    (attachments : list Attachment) (ps functionResponses : list Part)
  : GenerateContentParameters :=
  {| p_model := MODEL_NAME;
     contents := pastContent history
       ++ [ {| role := user; parts := currentParts currentMessage attachments |};
            {| role := model; parts := ps |};
            {| role := user; parts := functionResponses |} ];
     config := {| cfg_systemInstruction := SYSTEM_INSTRUCTION;
                  cfg_temperature := None;
                  cfg_tools := tools |} |}.

(** Steps 5 and 6: when the reply asks for tools, run each of them and
    call the backend again; [response] is reassigned once at most. *)
Definition toolRound (history : list Message) (currentMessage : string)
    (attachments : list Attachment) (response : GenerateContentResponse)
  : M GenerateContentResponse :=
  match firstParts response with
  | Some ps =>
      match functionCallsOf ps with
      | [] => ret response
      | functionCalls =>
          functionResponses <- forM executeTool functionCalls ;;
          callGenerateContent env
            (secondRequest history currentMessage attachments ps functionResponses)
      end
  | None => ret response
  end.

(** Steps 7 to 9: the text, the sources, the transcript mirror. *)
Definition finishTurn (currentMessage : string) (attachments : list Attachment)
    (response : GenerateContentResponse) : M Advice :=
  let text := strOr (resp_text response) MSG_NO_RESPONSE in
  sources <- (match chunksOf response with
              | Some chunks => extractSources chunks
              | None => ret []
              end) ;;
  _ <- pushHistory [ {| role := user; parts := currentParts currentMessage attachments |};
                     {| role := model; parts := [PText (Some text)] |} ] ;;
  ret {| text := text; sources := sources |}.

(** The [try] block of [generateFinancialAdvice]. *)
Definition adviceBody (history : list Message) (currentMessage : string)
    (attachments : list Attachment) : M Advice :=
  if String.eqb API_KEY "" then throw MISSING_KEY_ERROR
  else
    first_response <- callGenerateContent env
                        (firstRequest history currentMessage attachments) ;;
    response <- toolRound history currentMessage attachments first_response ;;
    finishTurn currentMessage attachments response.

Definition generateFinancialAdvice (history : list Message) (currentMessage : string)
    (attachments : list Attachment) : M Advice :=
  try_catch
    (adviceBody history currentMessage attachments)
    (fun error => ret {| text := errorMessage error; sources := [] |}).

(** The legacy single-shot entry point. *)
Definition sendMessage (userMessage : string) (attachments : list Attachment) : M string :=
  result <- generateFinancialAdvice [] userMessage attachments ;;
  ret (text result).

End WithEnv.
End GeminiService.

(* ===================================================================== *)
(** * services/firestoreService.ts *)
(* ===================================================================== *)

Module FirestoreService.

(** [cleaned[key] = value] for one defined property: arrays are mapped,
    their object elements cleaned; nested objects are cleaned.  An array
    handed to [removeUndefined] itself is walked by [for ... in] like an
    object whose keys are its indices. *)
Fixpoint removeUndefined (obj : JsVal) : JsVal :=
  let cleanElement (item : JsVal) : JsVal :=
    match item with
    | JArr _ | JObj _ => removeUndefined item
    | _ => item
    end in
  match obj with
  | JObj fields =>
      JObj ((fix cleanFields (fs : list (string * JsVal)) : list (string * JsVal) :=
               match fs with
               | [] => []
               | (key, value) :: rest =>
                   match value with
                   | JUndefined => cleanFields rest
                   | JArr items => (key, JArr (List.map cleanElement items)) :: cleanFields rest
                   | JObj _ => (key, removeUndefined value) :: cleanFields rest
                   | _ => (key, value) :: cleanFields rest
                   end
               end) fields)
  | JArr elements =>
      JObj ((fix cleanIndices (i : nat) (es : list JsVal) : list (string * JsVal) :=
               match es with
               | [] => []
               | value :: rest =>
                   match value with
                   | JUndefined => cleanIndices (S i) rest
                   | JArr items =>
                       (indexKey i, JArr (List.map cleanElement items)) :: cleanIndices (S i) rest
                   | JObj _ => (indexKey i, removeUndefined value) :: cleanIndices (S i) rest
                   | _ => (indexKey i, value) :: cleanIndices (S i) rest
                   end
               end) 0%nat elements)
  | _ => JObj []
  end.

(** The attachment object both [cleanMessage] and [saveChatSession] build:
    the metadata, without [content]. *)
Definition cleanAttachment (att : FileAttachment) : JsVal :=
  removeUndefined
    (JObj [("id", ofOptStr (fa_id att));
           ("name", ofOptStr (fa_name att));
           ("type", ofOptStr (fileTypeName <$> fa_type att));
           ("size", ofOptNum (fa_size att));
           ("mimeType", ofOptStr (fa_mimeType att));
           ("uri", JStr (strOr (fa_uri att) ""))]).

Definition cleanSource (src : GroundingSource) : JsVal :=
  JObj [("uri", JStr (strOr (gs_uri src) ""));
        ("title", JStr (strOr (gs_title src) ""))].

(** [xs?.map(f) || []] *)
Definition mapOrEmpty {A} (f : A -> JsVal) (xs : option (list A)) : JsVal :=
  match xs with
  | Some l => JArr (List.map f l)
  | None => JArr []
  end.

Definition cleanMessage (msg : Message) : JsVal :=
  removeUndefined
    (JObj [("id", ofOptStr (m_id msg));
           ("content", ofOptStr (m_content msg));
           ("role", ofOptStr (m_role msg));
           ("timestamp", ofOptNum (m_timestamp msg));
           ("attachments", mapOrEmpty cleanAttachment (m_attachments msg));
           ("sources", mapOrEmpty cleanSource (m_sources msg))]).

(** A stored field: a plain value, or a server timestamp. *)
Inductive FieldValue :=
  | FJs (v : JsVal)
  | FTimestamp (millis : Z).

(** The remote store: the signed-in user, the documents at
    users/{uid}/chats/{sessionId}, the client clock and the server clock. *)
Record Cloud := mkCloud {
  currentUser : option string;
  chats : gmap (string * string) (gmap string FieldValue);
  clientNow : Z;
  serverNow : Z
}.

(** What [getChatSession] hands back: the stored fields, uninterpreted. *)
Record LoadedSession := mkLoaded {
  ls_id : string;
  ls_title : FieldValue;
  ls_messages : FieldValue;
  ls_attachments : FieldValue;
  ls_createdAt : FieldValue;
  ls_updatedAt : FieldValue
}.

Definition getUserId : ST Cloud string :=
  fun c =>
    match currentUser c with
    | Some uid => (Normal uid, c)
    | None => (Throw (mkError (Some "User not authenticated")), c)
    end.

(** The data of one [setDoc]; [updatedAt] is the [serverTimestamp()]
    sentinel, which the server replaces by its clock. *)
Definition sessionData (session : ChatSession) (now : Z) : list (string * JsVal) :=
  [("title", JStr (strOr (s_title session) "Chat Baru"));
   ("messages", JArr (List.map cleanMessage (s_messages session)));
   ("attachments", JArr (List.map cleanAttachment (default [] (s_attachments session))));
   ("createdAt", JNum (match s_createdAt session with
                       | Some t => if t =? 0 then now else t
                       | None => now
                       end))].

(** [setDoc(ref, data, { merge: true })]: the written fields replace the
    stored ones, other stored fields stay. *)
Definition setDocMerge (uid id : string) (data : list (string * JsVal)) : ST Cloud unit :=
  fun c =>
    let old := default ∅ (chats c !! (uid, id)) in
    let written :=
      <["updatedAt" := FTimestamp (serverNow c)]>
        (foldr (fun kv d => <[kv.1 := FJs kv.2]> d) old data) in
    (Normal tt,
     {| currentUser := currentUser c;
        chats := <[(uid, id) := written]> (chats c);
        clientNow := clientNow c;
        serverNow := serverNow c |}).

Definition saveChatSession (session : ChatSession) : ST Cloud unit :=
  try_catch
    (userId <- getUserId ;;
     fun c => setDocMerge userId (s_id session) (sessionData session (clientNow c)) c)
    (fun error => throw error).

Definition field (data : gmap string FieldValue) (k : string) : FieldValue :=
  default (FJs JUndefined) (data !! k).

Definition truthyF (x : FieldValue) : bool :=
  match x with
  | FJs v => truthy v
  | FTimestamp _ => true
  end.

(** [x || []] *)
Definition orEmptyArray (x : FieldValue) : FieldValue :=
  if truthyF x then x else FJs (JArr []).

(** [x?.toMillis?.() || x || Date.now()] *)
Definition millisOf (x : FieldValue) (now : Z) : Completion FieldValue :=
  match x with
  | FTimestamp t => Normal (if t =? 0 then x else FJs (JNum t))
  | FJs (JObj fields) =>
      match lookupField "toMillis" fields with
      | JUndefined | JNull => Normal x
      | _ => Throw (TypeError "toMillis is not a function")
      end
  | FJs v => Normal (if truthy v then x else FJs (JNum now))
  end.

Definition getChatSession (sessionId : string) : ST Cloud (option LoadedSession) :=
  try_catch
    (userId <- getUserId ;;
     fun c =>
       match chats c !! (userId, sessionId) with
       | None => (Normal None, c)
       | Some data =>
           match millisOf (field data "createdAt") (clientNow c),
                 millisOf (field data "updatedAt") (clientNow c) with
           | Normal created, Normal updated =>
               (Normal (Some {| ls_id := sessionId;
                                ls_title := field data "title";
                                ls_messages := orEmptyArray (field data "messages");
                                ls_attachments := orEmptyArray (field data "attachments");
                                ls_createdAt := created;
                                ls_updatedAt := updated |}), c)
           | Throw e, _ => (Throw e, c)
           | _, Throw e => (Throw e, c)
           end
       end)
    (fun _ => ret None).

Definition deleteChatSession (sessionId : string) : ST Cloud unit :=
  try_catch
    (userId <- getUserId ;;
     fun c =>
       (Normal tt,
        {| currentUser := currentUser c;
           chats := delete (userId, sessionId) (chats c);
           clientNow := clientNow c;
           serverNow := serverNow c |}))
    (fun error => throw error).

End FirestoreService.

(* ===================================================================== *)
(** * services/storageService.ts *)
(* ===================================================================== *)

Module StorageService.

(** AsyncStorage holds, under CHAT_SESSIONS_KEY, the JSON text of the
    session list, and under CURRENT_SESSION_KEY the last session id.  The
    text is kept as the list it parses to: [JSON.parse (JSON.stringify l)]
    is [l] for session data, where a missing property and an [undefined]
    one are both [None]. *)
Record Storage := mkStorage {
  chatSessions : option (list ChatSession);
  currentSessionId : option string
}.

(** [data ? JSON.parse(data) : []] *)
Definition getAllChatSessions (st : Storage) : list ChatSession :=
  default [] (chatSessions st).

(** [sessions.findIndex(s => s.id === id)] *)
Fixpoint findIndex (id : string) (sessions : list ChatSession) : option nat :=
  match sessions with
  | [] => None
  | s :: rest =>
      if String.eqb (s_id s) id then Some 0%nat
      else S <$> findIndex id rest
  end.

Definition setSessions (sessions : list ChatSession) (st : Storage) : Storage :=
  {| chatSessions := Some sessions; currentSessionId := currentSessionId st |}.

Definition saveChatSession (session : ChatSession) (st : Storage) : Storage :=
  let sessions := getAllChatSessions st in
  match findIndex (s_id session) sessions with
  | Some existingIndex => setSessions (<[existingIndex := session]> sessions) st
  | None => setSessions (sessions ++ [session]) st
  end.

(** [sessions.find(s => s.id === sessionId) || null] *)
Definition getChatSession (sessionId : string) (st : Storage) : option ChatSession :=
  List.find (fun s => String.eqb (s_id s) sessionId) (getAllChatSessions st).

Definition deleteChatSession (sessionId : string) (st : Storage) : Storage :=
  setSessions
    (List.filter (fun s => negb (String.eqb (s_id s) sessionId)) (getAllChatSessions st))
    st.

Definition addMessageToSession (sessionId : string) (message : Message) (now : Z)
    (st : Storage) : Storage :=
  match getChatSession sessionId st with
  | Some session =>
      saveChatSession
        {| s_id := s_id session;
           s_title := s_title session;
           s_messages := s_messages session ++ [message];
           s_createdAt := s_createdAt session;
           s_updatedAt := Some now;
           s_attachments := s_attachments session |} st
  | None => st
  end.

Definition setCurrentSession (sessionId : string) (st : Storage) : Storage :=
  {| chatSessions := chatSessions st; currentSessionId := Some sessionId |}.

Definition clearAllSessions (st : Storage) : Storage :=
  {| chatSessions := None; currentSessionId := None |}.

End StorageService.

(* ===================================================================== *)
(** * services/fileService.ts, the codec *)
(* ===================================================================== *)

Module FileCodec.
Import FileService.

(** A string is held as its UTF-8 bytes.  [toLowerCase] is modelled on the
    ASCII letters; the extensions the service tests are ASCII and contain
    neither [k] nor [i], the only ASCII letters a non-ASCII character can
    lower to, so the tests below come out as in the source. *)
Definition isUpper (c : ascii) : bool :=
  (65 <=? nat_of_ascii c)%nat && (nat_of_ascii c <=? 90)%nat.

Definition lowerChar (c : ascii) : ascii :=
  if isUpper c then ascii_of_nat (nat_of_ascii c + 32) else c.

Fixpoint toLowerCase (s : string) : string :=
  match s with
  | EmptyString => EmptyString
  | String c s' => String (lowerChar c) (toLowerCase s')
  end.

(** [s.split('.').pop()], with the segment read so far. *)
Fixpoint lastSegment (current s : string) : string :=
  match s with
  | EmptyString => current
  | String c s' =>
      if Ascii.eqb c "." then lastSegment "" s'
      else lastSegment (current ++ String c "") s'
  end.

(** [fileName.toLowerCase().split('.').pop()] *)
Definition extensionOf (fileName : string) : string :=
  lastSegment "" (toLowerCase fileName).

Definition getMimeType (fileName : string) : string :=
  let ext := extensionOf fileName in
  if String.eqb ext "pdf" then "application/pdf"
  else if String.eqb ext "csv" then "text/csv"
  else if String.eqb ext "txt" then "text/plain"
  else if String.eqb ext "xls" then "application/vnd.ms-excel"
  else if String.eqb ext "xlsx" then
    "application/vnd.openxmlformats-officedocument.spreadsheetml.sheet"
  else "application/octet-stream".

Definition getFileType (fileName : string) : FileType :=
  let ext := extensionOf fileName in
  if String.eqb ext "pdf" then pdf
  else if String.eqb ext "xls" || String.eqb ext "xlsx" then excel
  else if String.eqb ext "csv" then csv
  else txt.

Definition chars : string :=
  "ABCDEFGHIJKLMNOPQRSTUVWXYZabcdefghijklmnopqrstuvwxyz0123456789+/=".

(** [chars.charAt(n)] *)
Definition charAt (n : Z) : string :=
  if n <? 0 then ""
  else match String.get (Z.to_nat n) chars with
       | Some c => String c ""
       | None => ""
       end.

(** The code of a byte of [utf8Str]. *)
Definition codeOf (c : ascii) : Z := Z.of_nat (nat_of_ascii c).

(** A char code in a bit operation: [NaN] counts as 0. *)
Definition toInt (chr : option Z) : Z := default 0 chr.

(** One turn of the loop: [chr2] and [chr3] are [None] where
    [charCodeAt] is past the end and returns [NaN]. *)
Definition encodeChunk (chr1 : Z) (chr2 chr3 : option Z) : string :=
  let enc1 := Z.shiftr chr1 2 in
  let enc2 := Z.lor (Z.shiftl (Z.land chr1 3) 4) (Z.shiftr (toInt chr2) 4) in
  let enc3 := Z.lor (Z.shiftl (Z.land (toInt chr2) 15) 2) (Z.shiftr (toInt chr3) 6) in
  let enc4 := Z.land (toInt chr3) 63 in
  match chr2, chr3 with
  | None, _ => charAt enc1 ++ charAt enc2 ++ "=="
  | Some _, None => charAt enc1 ++ charAt enc2 ++ charAt enc3 ++ "="
  | Some _, Some _ => charAt enc1 ++ charAt enc2 ++ charAt enc3 ++ charAt enc4
  end.

(** [for (let i = 0; i < utf8Str.length; i += 3)]: three bytes a turn. *)
Fixpoint encodeLoop (utf8Str : string) : string :=
  match utf8Str with
  | EmptyString => ""
  | String c1 rest1 =>
      match rest1 with
      | EmptyString => encodeChunk (codeOf c1) None None
      | String c2 rest2 =>
          match rest2 with
          | EmptyString => encodeChunk (codeOf c1) (Some (codeOf c2)) None
          | String c3 rest3 =>
              encodeChunk (codeOf c1) (Some (codeOf c2)) (Some (codeOf c3))
                ++ encodeLoop rest3
          end
      end
  end.

(** [btoa] is the platform's, where it has one.  With strings held as
    UTF-8 bytes, [unescape(encodeURIComponent(str))] is [str]. *)
Definition stringToBase64 (btoa : option (string -> string)) (str : string) : string :=
  match btoa with
  | Some f => f str
  | None => encodeLoop str
  end.

Definition convertToGeminiAttachment (file : FileAttachment) : Attachment :=
  {| att_name := fa_name file;
     att_mimeType := fa_mimeType file;
     att_data := fa_content file |}.

Definition convertAllToGeminiAttachments (files : list FileAttachment) : list Attachment :=
  List.map convertToGeminiAttachment files.

(** What the document picker hands back for one file. *)
Record Asset := mkAsset {
  a_name : string;
  a_size : option Z;
  a_uri : string
}.

Record PickerResult := mkPickerResult {
  canceled : bool;
  assets : option (list Asset)
}.

(** The platform under [pickFile]: the picker, the two readers, [btoa]
    and the clock. *)
Record FilePlatform := mkFilePlatform {
  getDocumentAsync : Completion PickerResult;
  readFileAsText : string -> Completion string;
  readFileAsBase64 : string -> Completion string;
  btoa : option (string -> string);
  now : Z
}.

(** The [try] block of [pickFile]. *)
Definition pickFileBody (p : FilePlatform) : Completion (option FileAttachment) :=
  match getDocumentAsync p with
  | Throw e => Throw e
  | Normal result =>
      match canceled result, assets result with
      | false, Some (file :: _) =>
          let fileName := a_name file in
          let fileType := getFileType fileName in
          let mimeType := getMimeType fileName in
          let content :=
            match fileType with
            | csv | txt =>
                match readFileAsText p (a_uri file) with
                | Normal textContent => Normal (stringToBase64 (btoa p) textContent)
                | Throw e => Throw e
                end
            | _ => readFileAsBase64 p (a_uri file)
            end in
          match content with
          | Throw e => Throw e
          | Normal content =>
              Normal (Some {| fa_id := Some ("file_" ++ numberToString (now p));
                              fa_name := Some fileName;
                              fa_type := Some fileType;
                              fa_size := Some (default 0 (a_size file));
                              fa_uri := Some (a_uri file);
                              fa_content := Some content;
                              fa_mimeType := Some mimeType |})
          end
      | _, _ => Normal None
      end
  end.

Definition pickFile (p : FilePlatform) : option FileAttachment :=
  match pickFileBody p with
  | Normal r => r
  | Throw _ => None
  end.

End FileCodec.

(* ===================================================================== *)
(** * services/geminiService.ts, the transcript mirror *)
(* ===================================================================== *)

Module GeminiHistory.

Definition resetHistory : M unit :=
  fun w =>
    (Normal tt,
     {| fetchLog := fetchLog w;
        aiLog := aiLog w;
        conversationHistory := [];
        clock := clock w |}).

Definition initializeConversation : M unit := resetHistory.

Definition clearHistory : M unit := resetHistory.

End GeminiHistory.

(* ===================================================================== *)
(** * screens/ChatScreen.tsx, the handlers *)
(* ===================================================================== *)

Module ChatScreen.
Import FileService FileCodec GeminiService.

(** The state the handlers read and set. *)
Record Ui := mkUi {
  messages : list Message;
  attachments : list FileAttachment
}.

(** [m.id !== 'welcome'] *)
Definition notWelcome (m : Message) : bool :=
  match m_id m with
  | Some id => negb (String.eqb id "welcome")
  | None => true
  end.

(** [f.id !== fileId] *)
Definition idDiffers (id : option string) (other : string) : bool :=
  match id with
  | Some i => negb (String.eqb i other)
  | None => true
  end.

Definition handleAttachFile (p : FilePlatform) (ui : Ui) : Ui :=
  if (3 <=? List.length (attachments ui))%nat then ui
  else
    match pickFile p with
    | Some file =>
        if valid (validateFile file)
        then {| messages := messages ui; attachments := (attachments ui ++ [file])%list |}
        else ui
    | None => ui
    end.

Definition handleRemoveAttachment (fileId : string) (ui : Ui) : Ui :=
  {| messages := messages ui;
     attachments := List.filter (fun f => idDiffers (fa_id f) fileId) (attachments ui) |}.

(** The message the handler shows for the user's turn. *)
Definition userMessageOf (idNow timestampNow : Z) (text : string)
    (staged : list FileAttachment) : Message :=
  {| m_id := Some (numberToString idNow);
     m_content := Some text;
     m_role := Some "user";
     m_timestamp := Some timestampNow;
     m_attachments := match staged with [] => None | _ => Some staged end;
     m_sources := None;
     m_isPlaceholder := None |}.

Definition aiMessageOf (idNow timestampNow : Z) (response : Advice) : Message :=
  {| m_id := Some (numberToString (idNow + 1));
     m_content := Some (text response);
     m_role := Some "assistant";
     m_timestamp := Some timestampNow;
     m_attachments := None;
     m_sources := Some (sources response);
     m_isPlaceholder := None |}.

Section WithEnv.
Variable env : Env.
Variable trim : string -> string.

(** One send.  [messages ui] is both the list the handler closed over
    (the history it sends) and the list its first update adds the user's
    message to; every [Date.now()] is a reading of its own. *)
Definition handleSendMessage (text : string) (ui : Ui) : M Ui :=
  if String.eqb (trim text) "" && (List.length (attachments ui) =? 0)%nat then ret ui
  else
    idNow <- Date_now ;;
    timestampNow <- Date_now ;;
    let userMessage := userMessageOf idNow timestampNow text (attachments ui) in
    let shown := (messages ui ++ [userMessage])%list in
    try_catch
      (let geminiAttachments := List.map convertToGeminiAttachment (attachments ui) in
       let historyMessages := List.filter notWelcome (messages ui) in
       response <- generateFinancialAdvice env historyMessages text geminiAttachments ;;
       replyIdNow <- Date_now ;;
       replyTimestampNow <- Date_now ;;
       ret {| messages := (shown ++ [aiMessageOf replyIdNow replyTimestampNow response])%list;
              attachments := [] |})
      (fun _ =>
         ret {| messages :=
                  List.filter (fun m => negb (bool_decide (m_id m = m_id userMessage))) shown;
                attachments := attachments ui |}).

End WithEnv.
End ChatScreen.

(* ===================================================================== *)
(** * screens/HistoryScreen.tsx, the bulk delete *)
(* ===================================================================== *)

Module HistoryScreen.

(** [for (const session of sessions) await storage.deleteChatSession(session.id)]
    on the local store. *)
Definition deleteAllLocal (sessions : list ChatSession) (st : StorageService.Storage)
  : StorageService.Storage :=
  fold_left (fun st session => StorageService.deleteChatSession (s_id session) st)
            sessions st.

(** The same loop on the remote store: the first failure ends it. *)
Fixpoint deleteAllRemote (ids : list string) : ST FirestoreService.Cloud unit :=
  match ids with
  | [] => ret tt
  | id :: rest =>
      _ <- FirestoreService.deleteChatSession id ;;
      deleteAllRemote rest
  end.

End HistoryScreen.

(* ===================================================================== *)
(** * utils: truncateText *)
(* ===================================================================== *)

Module Utils.

(** A JavaScript string as its sequence of code units, of whatever kind:
    [length] and [substring] only count them. *)
Section OverUnits.
Context {U : Type}.

(** [text.substring(0, n)]: a negative [n] counts as 0. *)
Definition substring0 (n : Z) (text : list U) : list U :=
  take (Z.to_nat n) text.

Definition truncateText (text : list U) (maxLength : Z) (suffix : list U) : list U :=
  if Z.of_nat (List.length text) <=? maxLength then text
  else (substring0 (maxLength - Z.of_nat (List.length suffix)) text ++ suffix)%list.

End OverUnits.
End Utils.

(* ===================================================================== *)
(** * Notions used to state the properties *)
(* ===================================================================== *)

Module Notions.
Import FileService GeminiService FirestoreService.

(** ** Effects *)

(** [stable f m]: running [m] leaves the observation [f] of the world as it
    was, however [m] completes. *)
Definition stable {X A : Type} (f : World -> X) (m : M A) : Prop :=
  forall w, f (snd (m w)) = f w.

(** [total m]: [m] completes normally from every world. *)
Definition total {A : Type} (m : M A) : Prop :=
  forall w, exists a, fst (m w) = Normal a.

(** [callsAtMost n m]: running [m] appends at most [n] calls to the log of
    AI backend calls, and removes none. *)
Definition callsAtMost {A : Type} (n : nat) (m : M A) : Prop :=
  forall w, exists added,
    aiLog (snd (m w)) = (aiLog w ++ added)%list /\ (List.length added <= n)%nat.

(** ** Configuration *)

(** A configured key that is missing, empty, or the given placeholder. *)
Definition absentOrPlaceholder (placeholder : string) (key : option string) : Prop :=
  key = None \/ key = Some "" \/ key = Some placeholder.

(** ** The orchestration *)

(** The categories the [catch] block tells apart, in the order it tests
    them. *)
Inductive ErrorCategory := Configuration | Network | Quota | Unknown.

Definition categoryOf (error : JsError) : ErrorCategory :=
  if messageIncludes error "API Key" then Configuration
  else if messageIncludes error "network" || messageIncludes error "fetch" then Network
  else if messageIncludes error "quota" then Quota
  else Unknown.

Definition fallbackFor (c : ErrorCategory) : string :=
  match c with
  | Configuration => MSG_CONFIGURATION
  | Network => MSG_NETWORK
  | Quota => MSG_QUOTA
  | Unknown => MSG_UNKNOWN
  end.


Definition UNKNOWN_FUNCTION : JsVal := JObj [("error", JStr "Unknown function")].






(** The part that answers a call with a given payload. *)
Definition responsePart (call : FunctionCall) (apiResult : JsVal) : Part :=
  PFunctionResponse
    {| fr_name := fc_name call;
       fr_response := JObj [("result", apiResult)];
       fr_id := fc_id call |}.


(** The [catch] block. *)
Definition onError (error : JsError) : M Advice :=
  ret {| text := errorMessage error; sources := [] |}.

(** The world once a backend call has been logged. *)
Definition logCall (params : GenerateContentParameters) (w : World) : World :=
  {| fetchLog := fetchLog w;
     aiLog := aiLog w ++ [params];
     conversationHistory := conversationHistory w;
     clock := clock w |}.

(** The backend supplied no title: the property is missing or empty. *)
Definition untitled (wr : WebRef) : Prop :=
  web_title wr = None \/ web_title wr = Some "".

Section Citations.
Variable env : Env.

(** The host of a URI, where the URL parser finds one. *)
Definition hostnameOf (uri : option string) : string :=
  match URL_hostname env uri with
  | Normal host => host
  | Throw _ => ""
  end.

(** The citation of a web reference: its URI, and its title or, for want
    of a title, the host of the URI. *)
Definition citationOf (wr : WebRef) : GroundingSource :=
  {| gs_uri := web_uri wr;
     gs_title := Some (strOr (web_title wr) (hostnameOf (web_uri wr))) |}.

(** One citation per chunk that carries a web reference, in order. *)
Definition citations (chunks : list GroundingChunk) : list GroundingSource :=
  omap (fun chunk => citationOf <$> web chunk) chunks.

(** Every chunk that lacks a title has a URI the parser accepts. *)
Definition hostsResolve (chunks : list GroundingChunk) : Prop :=
  forall chunk wr,
    In chunk chunks -> web chunk = Some wr -> untitled wr ->
    exists host, URL_hostname env (web_uri wr) = Normal host.

End Citations.

(** ** Stored values *)

(** [undefined] occurs nowhere in the value: not as the value itself, not
    as an array element, not as a property value, at any depth. *)
Fixpoint noUndefined (v : JsVal) : bool :=
  match v with
  | JUndefined => false
  | JArr items => forallb noUndefined items
  | JObj fields => forallb (fun kv => noUndefined (snd kv)) fields
  | _ => true
  end.

(** No object in the value, at any depth, has a property whose value is
    [undefined]. *)
Fixpoint fieldsDefined (v : JsVal) : bool :=
  match v with
  | JArr items => forallb fieldsDefined items
  | JObj fields =>
      forallb (fun kv => negb (isUndefined (snd kv)) && fieldsDefined (snd kv)) fields
  | _ => true
  end.

(** The element function of [removeUndefined], by itself. *)
Definition cleanElement (item : JsVal) : JsVal :=
  match item with
  | JArr _ | JObj _ => removeUndefined item
  | _ => item
  end.

(** What [removeUndefined] stores for one defined property value. *)
Definition cleanValue (value : JsVal) : JsVal :=
  match value with
  | JArr items => JArr (List.map cleanElement items)
  | JObj _ => removeUndefined value
  | _ => value
  end.

(** The properties [removeUndefined] keeps, cleaned. *)
Fixpoint cleanFields (fs : list (string * JsVal)) : list (string * JsVal) :=
  match fs with
  | [] => []
  | (key, value) :: rest =>
      if isUndefined value then cleanFields rest
      else (key, cleanValue value) :: cleanFields rest
  end.

Fixpoint cleanIndices (i : nat) (es : list JsVal) : list (string * JsVal) :=
  match es with
  | [] => []
  | value :: rest =>
      if isUndefined value then cleanIndices (S i) rest
      else (indexKey i, cleanValue value) :: cleanIndices (S i) rest
  end.

(** The properties of a cleaned message, spelled out: the four scalars
    that are present, then the two arrays. *)
Definition present (key : string) (value : JsVal) : list (string * JsVal) :=
  if isUndefined value then [] else [(key, value)].

(** What the remote store keeps of an attachment, of a source and of a
    message.  Of an attachment: the metadata id, name, type, size and
    mimeType that are defined, and the uri, empty when there is none;
    never the content.  Of a source: the uri and the title, empty when
    missing.  Of a message: id, content, role and timestamp when defined,
    then its attachments and its sources in their stored form, each the
    empty array when the message has none; nothing else. *)
Definition storedAttachment (att : FileAttachment) : JsVal :=
  JObj (present "id" (ofOptStr (fa_id att))
        ++ present "name" (ofOptStr (fa_name att))
        ++ present "type" (ofOptStr (fileTypeName <$> fa_type att))
        ++ present "size" (ofOptNum (fa_size att))
        ++ present "mimeType" (ofOptStr (fa_mimeType att))
        ++ [("uri", JStr (strOr (fa_uri att) ""))])%list.

Definition storedSource (src : GroundingSource) : JsVal :=
  JObj [("uri", JStr (strOr (gs_uri src) ""));
        ("title", JStr (strOr (gs_title src) ""))].

Definition storedMessage (msg : Message) : JsVal :=
  JObj (present "id" (ofOptStr (m_id msg))
        ++ present "content" (ofOptStr (m_content msg))
        ++ present "role" (ofOptStr (m_role msg))
        ++ present "timestamp" (ofOptNum (m_timestamp msg))
        ++ [("attachments",
              JArr (List.map storedAttachment (default [] (m_attachments msg))));
            ("sources", JArr (List.map storedSource (default [] (m_sources msg))))])%list.

(** The document fields after a write. *)
Definition writtenDoc (c : Cloud) (uid id : string) (data : list (string * JsVal))
  : gmap string FieldValue :=
  <["updatedAt" := FTimestamp (serverNow c)]>
    (foldr (fun kv d => <[kv.1 := FJs kv.2]> d) (default ∅ (chats c !! (uid, id))) data).

Definition afterWrite (c : Cloud) (uid id : string) (data : list (string * JsVal)) : Cloud :=
  {| currentUser := currentUser c;
     chats := <[(uid, id) := writtenDoc c uid id data]> (chats c);
     clientNow := clientNow c;
     serverNow := serverNow c |}.

(** The metadata properties an attachment object may have. *)
Definition metadataKeys : list string :=
  ["id"; "name"; "type"; "size"; "mimeType"; "uri"].

Definition keysOf (v : JsVal) : list string :=
  match v with
  | JObj fields => List.map fst fields
  | _ => []
  end.

(** The run-time object of an attachment, a source and a message: the
    properties that are present. *)
Definition attachmentToJs (att : FileAttachment) : JsVal :=
  JObj (present "id" (ofOptStr (fa_id att))
        ++ present "name" (ofOptStr (fa_name att))
        ++ present "type" (ofOptStr (fileTypeName <$> fa_type att))
        ++ present "size" (ofOptNum (fa_size att))
        ++ present "uri" (ofOptStr (fa_uri att))
        ++ present "content" (ofOptStr (fa_content att))
        ++ present "mimeType" (ofOptStr (fa_mimeType att)))%list.

Definition sourceToJs (src : GroundingSource) : JsVal :=
  JObj (present "uri" (ofOptStr (gs_uri src))
        ++ present "title" (ofOptStr (gs_title src)))%list.

Definition arrayOrUndefined {A} (f : A -> JsVal) (xs : option (list A)) : JsVal :=
  match xs with
  | Some l => JArr (List.map f l)
  | None => JUndefined
  end.

Definition messageToJs (msg : Message) : JsVal :=
  JObj (present "id" (ofOptStr (m_id msg))
        ++ present "content" (ofOptStr (m_content msg))
        ++ present "role" (ofOptStr (m_role msg))
        ++ present "timestamp" (ofOptNum (m_timestamp msg))
        ++ present "attachments" (arrayOrUndefined attachmentToJs (m_attachments msg))
        ++ present "sources" (arrayOrUndefined sourceToJs (m_sources msg))
        ++ present "isPlaceholder" (ofOptBool (m_isPlaceholder msg)))%list.

End Notions.

(* ===================================================================== *)
(** * Concrete inputs *)
(* ===================================================================== *)

Module Examples.
Import GeminiService FirestoreService Notions.

Definition pdfAtLimit : FileAttachment :=
  {| fa_id := Some "file_1"; fa_name := Some "report.pdf"; fa_type := Some pdf;
     fa_size := Some 10485760; fa_uri := Some "file:///report.pdf";
     fa_content := Some "JVBERi0="; fa_mimeType := Some "application/pdf" |}.

Definition csvOverLimit : FileAttachment :=
  {| fa_id := Some "file_2"; fa_name := Some "prices.csv"; fa_type := Some csv;
     fa_size := Some 5242881; fa_uri := Some "file:///prices.csv";
     fa_content := Some "YSxi"; fa_mimeType := Some "text/csv" |}.

Definition emptyText : FileAttachment :=
  {| fa_id := Some "file_3"; fa_name := Some "notes.txt"; fa_type := Some txt;
     fa_size := Some 0; fa_uri := Some "file:///notes.txt";
     fa_content := Some ""; fa_mimeType := Some "text/plain" |}.

(** The world a call starts from in the examples: nothing requested yet. *)
Definition freshWorld : World :=
  {| fetchLog := []; aiLog := []; conversationHistory := []; clock := 1700000000000 |}.

(** A platform with the given keys, whose network and AI backend are
    unreachable. *)
Definition offlineEnv (gemini fmp news : option string) : Env :=
  {| extra_GEMINI_API_KEY := None;
     env_GEMINI_API_KEY := gemini;
     extra_FMP_API_KEY := None;
     env_FMP_API_KEY := fmp;
     extra_NEWS_API_KEY := None;
     env_NEWS_API_KEY := news;
     fetch := fun _ _ => Throw (mkError (Some "Network request failed"));
     generateContent := fun _ _ => Throw (mkError (Some "fetch failed"));
     URL_hostname := fun _ => Throw (mkError (Some "Invalid URL"));
     encodeURIComponent := fun v => match v with JStr s => s | _ => "undefined" end;
     URLSearchParams_toString :=
       fun kvs => String.concat "&" (List.map (fun kv => kv.1 ++ "=" ++ kv.2) kvs);
     parseInt := fun _ => None;
     toISOString := fun _ => "2023-11-14T22:13:20.000Z" |}.

(** The placeholder that newsService.ts names in [IS_NEWS_ENABLED]. *)
Definition placeholderNewsEnv : Env :=
  offlineEnv (Some "AIzaSyExampleGeminiKey") (Some "demo") (Some "YOUR_NEWS_API_KEY_HERE").

Definition weatherCall : FunctionCall :=
  {| fc_name := Some "get_weather";
     fc_args := JObj [("city", JStr "Jakarta")];
     fc_id := Some "call_1" |}.

Definition stockNewsCall : FunctionCall :=
  {| fc_name := Some "get_stock_news";
     fc_args := JObj [("ticker", JStr "BBCA")];
     fc_id := Some "call_2" |}.

Definition toolParts : list Part :=
  [PFunctionCall weatherCall; PFunctionCall stockNewsCall].




(** A first reply that asks for an unknown tool and for the stock news. *)
Definition replyWithTools : GenerateContentResponse :=
  {| candidates := Some [ {| content := Some {| c_parts := Some toolParts |};
                             groundingMetadata := None |} ];
     resp_text := None |}.

Definition idxChunk : GroundingChunk :=
  {| web := Some {| web_uri := Some "https://www.idx.co.id/id/berita";
                    web_title := None |} |}.

Definition titledChunk : GroundingChunk :=
  {| web := Some {| web_uri := Some "https://www.bi.go.id/id/publikasi";
                    web_title := Some "Bank Indonesia" |} |}.

(** A second reply that answers, cites two pages, and asks for a tool
    again. *)
Definition replyFinal : GenerateContentResponse :=
  {| candidates :=
       Some [ {| content := Some {| c_parts := Some [PText (Some "BBCA stabil.");
                                                     PFunctionCall stockNewsCall] |};
                 groundingMetadata :=
                   Some {| groundingChunks := Some [idxChunk; titledChunk] |} |} ];
     resp_text := Some "BBCA stabil." |}.

(** The platform of the examples: a Gemini key, the scripted replies, and a
    URL parser that knows the host of the page cited without a title. *)
Definition scriptedEnv : Env :=
  {| extra_GEMINI_API_KEY := None;
     env_GEMINI_API_KEY := Some "AIzaSyExampleGeminiKey";
     extra_FMP_API_KEY := None;
     env_FMP_API_KEY := None;
     extra_NEWS_API_KEY := None;
     env_NEWS_API_KEY := None;
     fetch := fun _ _ => Throw (mkError (Some "Network request failed"));
     generateContent :=
       fun n _ => match n with
                  | O => Normal replyWithTools
                  | _ => Normal replyFinal
                  end;
     URL_hostname :=
       fun uri => match uri with
                  | Some "https://www.idx.co.id/id/berita" => Normal "www.idx.co.id"
                  | _ => Throw (mkError (Some "Invalid URL"))
                  end;
     encodeURIComponent := fun v => match v with JStr s => s | _ => "undefined" end;
     URLSearchParams_toString := fun _ => "";
     parseInt := fun _ => None;
     toISOString := fun _ => "2023-11-14T22:13:20.000Z" |}.

(** A reference without a title whose URI is not a URL. *)
Definition brokenChunk : GroundingChunk :=
  {| web := Some {| web_uri := Some "not a url"; web_title := None |} |}.

(** A plain answer that cites a reference without title, a chunk without
    web reference and a titled reference. *)
Definition replyCited : GenerateContentResponse :=
  {| candidates :=
       Some [ {| content := Some {| c_parts := Some [PText (Some "BBCA stabil.")] |};
                 groundingMetadata :=
                   Some {| groundingChunks :=
                             Some [idxChunk; {| web := None |}; titledChunk] |} |} ];
     resp_text := Some "BBCA stabil." |}.

(** A plain answer that cites a broken reference and a titled one. *)
Definition replyBrokenCitation : GenerateContentResponse :=
  {| candidates :=
       Some [ {| content := Some {| c_parts := Some [PText (Some "BBCA stabil.")] |};
                 groundingMetadata :=
                   Some {| groundingChunks := Some [brokenChunk; titledChunk] |} |} ];
     resp_text := Some "BBCA stabil." |}.

(** The platform of [scriptedEnv], with a backend that gives the same
    reply to every request. *)
Definition repeatingEnv (reply : GenerateContentResponse) : Env :=
  {| extra_GEMINI_API_KEY := None;
     env_GEMINI_API_KEY := Some "AIzaSyExampleGeminiKey";
     extra_FMP_API_KEY := None;
     env_FMP_API_KEY := None;
     extra_NEWS_API_KEY := None;
     env_NEWS_API_KEY := None;
     fetch := fun _ _ => Throw (mkError (Some "Network request failed"));
     generateContent := fun _ _ => Normal reply;
     URL_hostname :=
       fun uri => match uri with
                  | Some "https://www.idx.co.id/id/berita" => Normal "www.idx.co.id"
                  | _ => Throw (mkError (Some "Invalid URL"))
                  end;
     encodeURIComponent := fun v => match v with JStr s => s | _ => "undefined" end;
     URLSearchParams_toString := fun _ => EmptyString;
     parseInt := fun _ => None;
     toISOString := fun _ => "2023-11-14T22:13:20.000Z" |}.

Definition placeholderMessage : Message :=
  {| m_id := Some "2"; m_content := Some "..."; m_role := Some "assistant";
     m_timestamp := Some 1700000000001; m_attachments := None; m_sources := None;
     m_isPlaceholder := Some true |}.

Definition userMessage : Message :=
  {| m_id := Some "1"; m_content := Some "Halo"; m_role := Some "user";
     m_timestamp := Some 1700000000000; m_attachments := None; m_sources := None;
     m_isPlaceholder := None |}.

Definition assistantMessage : Message :=
  {| m_id := Some "3"; m_content := Some "Halo juga"; m_role := Some "assistant";
     m_timestamp := Some 1700000000002; m_attachments := None; m_sources := None;
     m_isPlaceholder := Some false |}.

Definition sampleHistory : list Message :=
  [userMessage; placeholderMessage; assistantMessage].

Definition sampleAttachment : Attachment :=
  {| att_name := Some "laporan.pdf"; att_mimeType := Some "application/pdf";
     att_data := Some "JVBERi0=" |}.

Definition signedIn : Cloud :=
  {| currentUser := Some "uid_1";
     chats := ∅;
     clientNow := 1700000000500;
     serverNow := 1700000000900 |}.

Definition reportAttachment : FileAttachment :=
  {| fa_id := Some "file_1"; fa_name := Some "laporan.pdf"; fa_type := Some pdf;
     fa_size := Some 2048; fa_uri := Some "file:///laporan.pdf";
     fa_content := Some "JVBERi0="; fa_mimeType := Some "application/pdf" |}.

Definition questionMessage : Message :=
  {| m_id := Some "1700000000000"; m_content := Some "Analisis laporan ini";
     m_role := Some "user"; m_timestamp := Some 1700000000000;
     m_attachments := Some [reportAttachment]; m_sources := None;
     m_isPlaceholder := None |}.

Definition plainMessage : Message :=
  {| m_id := Some "1700000000000"; m_content := Some "Halo";
     m_role := Some "user"; m_timestamp := Some 1700000000000;
     m_attachments := None; m_sources := None; m_isPlaceholder := None |}.

Definition titledSession : ChatSession :=
  {| s_id := "chat_1"; s_title := Some "Analisis laporan ini";
     s_messages := [questionMessage];
     s_createdAt := Some 1700000000000; s_updatedAt := Some 1700000000400;
     s_attachments := Some [] |}.

(** A well-typed session whose title is the empty string. *)
Definition untitledSession : ChatSession :=
  {| s_id := "chat_2"; s_title := Some "";
     s_messages := [plainMessage];
     s_createdAt := Some 1700000000000; s_updatedAt := Some 1700000000400;
     s_attachments := Some [] |}.

Definition emptyStorage : StorageService.Storage :=
  {| StorageService.chatSessions := None; StorageService.currentSessionId := None |}.

End Examples.

(* ===================================================================== *)
(** * Further notions *)
(* ===================================================================== *)

Module MoreNotions.
Import FileService FileCodec GeminiService FirestoreService Notions.

(** ** Base64 *)

(** The position of a character in an alphabet, counted from [i]. *)
Fixpoint indexIn (c : ascii) (alphabet : string) (i : Z) : option Z :=
  match alphabet with
  | EmptyString => None
  | String a rest => if Ascii.eqb a c then Some i else indexIn c rest (i + 1)
  end.

(** The six bits a base64 character stands for; the padding character
    stands for none. *)
Definition sextetOf (c : ascii) : option Z :=
  match indexIn c chars 0 with
  | Some i => if i <? 64 then Some i else None
  | None => None
  end.

Definition byteOf (n : Z) : ascii := ascii_of_nat (Z.to_nat n).

Definition isPad (c : ascii) : bool := Ascii.eqb c "=".

(** The reading of standard base64 (RFC 4648): four characters give three
    bytes; padding is allowed in the last quantum only. *)
Fixpoint decodeBase64 (s : string) : option string :=
  match s with
  | EmptyString => Some EmptyString
  | String c1 (String c2 (String c3 (String c4 rest))) =>
      match sextetOf c1, sextetOf c2 with
      | Some e1, Some e2 =>
          let b1 := byteOf (Z.lor (Z.shiftl e1 2) (Z.shiftr e2 4)) in
          if isPad c3 then
            if isPad c4 && String.eqb rest "" then Some (String b1 "") else None
          else
            match sextetOf c3 with
            | Some e3 =>
                let b2 := byteOf (Z.lor (Z.shiftl (Z.land e2 15) 4) (Z.shiftr e3 2)) in
                if isPad c4 then
                  if String.eqb rest "" then Some (String b1 (String b2 "")) else None
                else
                  match sextetOf c4 with
                  | Some e4 =>
                      let b3 := byteOf (Z.lor (Z.shiftl (Z.land e3 3) 6) e4) in
                      match decodeBase64 rest with
                      | Some tail => Some (String b1 (String b2 (String b3 tail)))
                      | None => None
                      end
                  | None => None
                  end
            | None => None
            end
      | _, _ => None
      end
  | _ => None
  end.

(** Every character of [s] is one of [chars]. *)
Fixpoint inAlphabet (s : string) : bool :=
  match s with
  | EmptyString => true
  | String c rest =>
      match indexIn c chars 0 with
      | Some _ => inAlphabet rest
      | None => false
      end
  end.

(** No dot in the string. *)
Fixpoint dotFree (s : string) : bool :=
  match s with
  | EmptyString => true
  | String c rest => negb (Ascii.eqb c ".") && dotFree rest
  end.

(** The integers from 0 up to [n], excluded. *)
Definition upTo (n : nat) : list Z := List.map Z.of_nat (seq 0 n).

(** The sextets of the encoder, as functions of the bytes. *)
Definition enc2Of (a b : Z) : Z := Z.lor (Z.shiftl (Z.land a 3) 4) (Z.shiftr b 4).
Definition enc3Of (b c : Z) : Z := Z.lor (Z.shiftl (Z.land b 15) 2) (Z.shiftr c 6).

(** ** Requests *)

(** [requestsAtMost n m]: running [m] appends at most [n] URLs to the log
    of HTTP requests, and removes none. *)
Definition requestsAtMost {A : Type} (n : nat) (m : M A) : Prop :=
  forall w, exists added,
    fetchLog (snd (m w)) = (fetchLog w ++ added)%list /\ (List.length added <= n)%nat.

(** The world once a request has been logged. *)
Definition logFetch (url : string) (w : World) : World :=
  {| fetchLog := fetchLog w ++ [url];
     aiLog := aiLog w;
     conversationHistory := conversationHistory w;
     clock := clock w |}.

(** [requestsExactly n m]: running [m] appends exactly [n] URLs to the log
    of HTTP requests, and removes none. *)
Definition requestsExactly {A : Type} (n : nat) (m : M A) : Prop :=
  forall w, exists added,
    fetchLog (snd (m w)) = (fetchLog w ++ added)%list /\ List.length added = n.

(** The network answers no request: each one fails, or is answered with
    a status that is not a success. *)
Definition refusing (env : Env) : Prop :=
  forall n url,
    (exists e, fetch env n url = Throw e)
    \/ (exists r, fetch env n url = Normal r /\ ok r = false).

(** [returns m P]: whenever [m] completes normally, its result satisfies
    [P]. *)
Definition returns {A : Type} (m : M A) (P : A -> Prop) : Prop :=
  forall w a w', m w = (Normal a, w') -> P a.

(** [always m P]: from every world [m] completes normally, with a result
    that satisfies [P]. *)
Definition always {A : Type} (m : M A) (P : A -> Prop) : Prop :=
  forall w, exists a, fst (m w) = Normal a /\ P a.

(** Neither [undefined] nor [null]. *)
Definition isDefined (v : JsVal) : bool :=
  match v with
  | JUndefined | JNull => false
  | _ => true
  end.

(** An object with exactly the given keys, in order, every value of which
    is defined. *)
Definition definedObject (keys : list string) (v : JsVal) : Prop :=
  exists fields,
    v = JObj fields
    /\ List.map fst fields = keys
    /\ Forall (fun kv => isDefined (snd kv) = true) fields.

(** An array, every element of which satisfies [P]. *)
Definition arrayOf (P : JsVal -> Prop) (v : JsVal) : Prop :=
  exists items, v = JArr items /\ Forall P items.

(** An array of at most [n] elements. *)
Definition arrayUpTo (n : nat) (v : JsVal) : Prop :=
  exists items, v = JArr items /\ (List.length items <= n)%nat.

(** The property [symbol] of a result is the one the backend gave, or the
    ticker asked for. *)
Definition symbolFor (ticker : string) (v : JsVal) : Prop :=
  truthy (prop v "symbol") = true \/ prop v "symbol" = JStr ticker.

(** The properties of the interfaces StockQuote, CompanyProfile,
    KeyMetrics, FinancialStatement and MacroNewsItem of
    externalDataService.ts, in the order the objects are built. *)
Definition quoteKeys : list string :=
  ["symbol"; "name"; "price"; "change"; "changesPercentage"; "dayLow"; "dayHigh";
   "yearLow"; "yearHigh"; "marketCap"; "volume"; "avgVolume"; "open"; "previousClose";
   "pe"; "eps"; "earningsAnnouncement"].

Definition profileKeys : list string :=
  ["symbol"; "companyName"; "currency"; "exchange"; "industry"; "sector"; "country";
   "description"; "ceo"; "website"; "employees"; "marketCap"; "price"; "beta"; "ipoDate"].

Definition metricsKeys : list string :=
  ["symbol"; "date"; "peRatio"; "pbRatio"; "debtToEquity"; "currentRatio"; "roe"; "roa";
   "dividendYield"; "priceToSalesRatio"; "enterpriseValue"].

Definition statementKeys : list string :=
  ["date"; "period"; "revenue"; "netIncome"; "grossProfit"; "operatingIncome"; "eps"].


(** What the FMP client makes of a payload: for a single entity, the
    payload itself or its first element, and [null] when the payload
    carries an [error]; for a list, the payload when it is an array. *)
Definition entityOf (data : JsVal) : JsVal :=
  match data with
  | JUndefined | JNull => JNull
  | _ =>
      if truthy (prop data "error") then JNull
      else if isArray data then first data else data
  end.

Definition listOf (data : JsVal) : JsVal :=
  match data with
  | JArr items => JArr items
  | _ => JArr []
  end.

(** An article the news search hands out: an object with a title and a
    description that are not empty, and an [id]. *)
Definition completeArticle (v : JsVal) : Prop :=
  exists fields id,
    v = JObj fields
    /\ truthy (lookupField "title" fields) = true
    /\ truthy (lookupField "description" fields) = true
    /\ lookupField "id" fields = JStr id.

(** The [id] properties of the elements of an array. *)
Definition articleIds (v : JsVal) : list JsVal :=
  match v with
  | JArr items => List.map (fun a => prop a "id") items
  | _ => []
  end.

(** The length of an array value; anything else counts as having none. *)
Definition arrayLength (v : JsVal) : option nat :=
  match v with
  | JArr items => Some (List.length items)
  | _ => None
  end.

(** ** The transcript mirror *)

(** Two worlds that differ in the transcript mirror at most. *)
Definition sameButHistory (w1 w2 : World) : Prop :=
  fetchLog w1 = fetchLog w2 /\ aiLog w1 = aiLog w2 /\ clock w1 = clock w2.

(** [m] does not read the transcript mirror: from two worlds that differ
    there only, it completes alike and leaves worlds that differ there
    only. *)
Definition ignoresHistory {A : Type} (m : M A) : Prop :=
  forall w1 w2,
    sameButHistory w1 w2 ->
    fst (m w1) = fst (m w2) /\ sameButHistory (snd (m w1)) (snd (m w2)).


(** The first reply asks for no tool. *)
Definition noToolRequested (first : GenerateContentResponse) : Prop :=
  firstParts first = None
  \/ (exists ps, firstParts first = Some ps /\ functionCallsOf ps = []).

(** The two entries a completed turn adds to the transcript mirror. *)
Definition turnOf (currentMessage : string) (attachments : list Attachment) (text : string)
  : list ChatHistoryItem :=
  [ {| role := user; parts := currentParts currentMessage attachments |};
    {| role := model; parts := [PText (Some text)] |} ].

(** The world once entries have been added to the transcript mirror. *)
Definition recordTurn (items : list ChatHistoryItem) (w : World) : World :=
  {| fetchLog := fetchLog w;
     aiLog := aiLog w;
     conversationHistory := conversationHistory w ++ items;
     clock := clock w |}.

Section ToolRequests.
Variable env : Env.






End ToolRequests.

(** ** Staged attachments *)

(** The size limit [validateFile] applies to a file of that name. *)
Definition sizeLimitFor (fileName : string) : Z :=
  if String.eqb (extensionOf fileName) "pdf" then 10 * 1024 * 1024 else 5 * 1024 * 1024.

(** What [pickFile] reads for an asset: the text, encoded, for the
    categories csv and txt, the base64 content for the others. *)
Definition contentRead (p : FilePlatform) (asset : Asset) : Completion string :=
  match getFileType (a_name asset) with
  | csv | txt =>
      match readFileAsText p (a_uri asset) with
      | Normal textContent => Normal (stringToBase64 (btoa p) textContent)
      | Throw e => Throw e
      end
  | _ => readFileAsBase64 p (a_uri asset)
  end.

(** The attachment [pickFile] builds for an asset and its content. *)
Definition attachmentOf (p : FilePlatform) (asset : Asset) (content : string)
  : FileAttachment :=
  {| fa_id := Some ("file_" ++ numberToString (now p));
     fa_name := Some (a_name asset);
     fa_type := Some (getFileType (a_name asset));
     fa_size := Some (default 0 (a_size asset));
     fa_uri := Some (a_uri asset);
     fa_content := Some content;
     fa_mimeType := Some (getMimeType (a_name asset)) |}.

(** The picker returned at least one file, [asset] first. *)
Definition picked (p : FilePlatform) (asset : Asset) : Prop :=
  exists others,
    getDocumentAsync p = Normal {| canceled := false; assets := Some (asset :: others) |}.

(** The picker returned nothing to read: it failed, was canceled, or
    returned no file. *)
Definition nothingPicked (p : FilePlatform) : Prop :=
  match getDocumentAsync p with
  | Throw _ => True
  | Normal result =>
      canceled result = true \/ assets result = None \/ assets result = Some []
  end.

(** At most three files are staged, and each passed validation. *)
Definition stagedOk (files : list FileAttachment) : Prop :=
  (List.length files <= 3)%nat
  /\ Forall (fun f => valid (validateFile f) = true) files.

(** ** Stores *)

Definition idsOf (sessions : list ChatSession) : list string :=
  List.map s_id sessions.

(** The session's id is one of [ids]. *)
Definition listed (ids : list string) (s : ChatSession) : bool :=
  existsb (String.eqb (s_id s)) ids.

(** The session list after a save: the session replaces the first one
    with its id, or is added at the end. *)
Definition upsert (session : ChatSession) (sessions : list ChatSession) : list ChatSession :=
  match StorageService.findIndex (s_id session) sessions with
  | Some existingIndex => <[existingIndex := session]> sessions
  | None => (sessions ++ [session])%list
  end.

(** The session with one more message, as [addMessageToSession] saves
    it. *)
Definition withMessage (session : ChatSession) (message : Message) (now : Z) : ChatSession :=
  {| s_id := s_id session;
     s_title := s_title session;
     s_messages := s_messages session ++ [message];
     s_createdAt := s_createdAt session;
     s_updatedAt := Some now;
     s_attachments := s_attachments session |}.

(** The fields a remote save writes. *)
Definition writtenKeys : list string :=
  ["title"; "messages"; "attachments"; "createdAt"; "updatedAt"].

Definition NOT_AUTHENTICATED : JsError := mkError (Some "User not authenticated").

(** The [createdAt] a remote save writes: the session's, or the client
    clock when the session has none or has 0. *)
Definition createdAtFor (session : ChatSession) (now : Z) : Z :=
  match s_createdAt session with
  | Some t => if t =? 0 then now else t
  | None => now
  end.

End MoreNotions.

(* ===================================================================== *)
(** * Further inputs *)
(* ===================================================================== *)

Module MoreExamples.
Import FileService FileCodec GeminiService FirestoreService Notions Examples MoreNotions.

(** A native platform (no [btoa]) on which the user picks one file. *)
Definition pickOne (asset : Asset) (textContent base64Content : string) : FilePlatform :=
  {| getDocumentAsync := Normal {| canceled := false; assets := Some [asset] |};
     readFileAsText := fun _ => Normal textContent;
     readFileAsBase64 := fun _ => Normal base64Content;
     btoa := None;
     now := 1700000000000 |}.

Definition csvAsset : Asset :=
  {| a_name := "Harga.Saham.CSV"; a_size := Some 14; a_uri := "file:///cache/Harga.Saham.CSV" |}.

Definition emptyUi : ChatScreen.Ui :=
  {| ChatScreen.messages := []; ChatScreen.attachments := [] |}.

(** A reply that answers in plain text, asks for no tool and cites
    nothing. *)
Definition plainReply : GenerateContentResponse :=
  {| candidates := Some [ {| content := Some {| c_parts := Some [PText (Some "IHSG menguat.")] |};
                             groundingMetadata := None |} ];
     resp_text := Some "IHSG menguat." |}.




(** A platform with a Gemini key and a NewsAPI key, whose backend gives
    the same reply to every request and whose network is unreachable. *)
Definition answeringEnv (reply : GenerateContentResponse) : Env :=
  {| extra_GEMINI_API_KEY := None;
     env_GEMINI_API_KEY := Some "AIzaSyExampleGeminiKey";
     extra_FMP_API_KEY := None;
     env_FMP_API_KEY := None;
     extra_NEWS_API_KEY := None;
     env_NEWS_API_KEY := Some "0123456789abcdef";
     fetch := fun _ _ => Throw (mkError (Some "Network request failed"));
     generateContent := fun _ _ => Normal reply;
     URL_hostname := fun _ => Throw (mkError (Some "Invalid URL"));
     encodeURIComponent := fun v => match v with JStr s => s | _ => "undefined" end;
     URLSearchParams_toString := fun _ => EmptyString;
     parseInt := fun _ => None;
     toISOString := fun _ => "2023-11-14T22:13:20.000Z" |}.

(** A network that answers every request with the given status and JSON
    body; the FMP key is configured. *)
Definition repliedEnv (isOk : bool) (code : Z) (body : JsVal) : Env :=
  {| extra_GEMINI_API_KEY := None;
     env_GEMINI_API_KEY := None;
     extra_FMP_API_KEY := None;
     env_FMP_API_KEY := Some "fmp_key_123456";
     extra_NEWS_API_KEY := None;
     env_NEWS_API_KEY := Some "0123456789abcdef";
     fetch := fun _ _ => Normal {| ok := isOk; status := code; json := Normal body |};
     generateContent := fun _ _ => Throw (mkError (Some "fetch failed"));
     URL_hostname := fun _ => Throw (mkError (Some "Invalid URL"));
     encodeURIComponent := fun v => match v with JStr s => s | _ => "undefined" end;
     URLSearchParams_toString := fun _ => EmptyString;
     parseInt := fun _ => None;
     toISOString := fun _ => "2023-11-14T22:13:20.000Z" |}.

Definition moverRow : JsVal :=
  JObj [("symbol", JStr "BBCA"); ("price", JNum 9000)].

(** The session of [titledSession] under a new title and without
    messages. *)
Definition retitledSession : ChatSession :=
  {| s_id := "chat_1"; s_title := Some "Laporan Q3";
     s_messages := [];
     s_createdAt := Some 1700000000000; s_updatedAt := Some 1700000000700;
     s_attachments := Some [] |}.

Definition welcomeMessage : Message :=
  {| m_id := Some "welcome"; m_content := Some "Halo! Saya asisten keuangan Anda.";
     m_role := Some "assistant"; m_timestamp := Some 1699999999000;
     m_attachments := None; m_sources := None; m_isPlaceholder := None |}.


End MoreExamples.

(* ===================================================================== *)
(** * Properties of the file service *)
(* ===================================================================== *)

Module FileServiceProofs.
Import FileService Notions Examples.

Lemma maxSize_pdf : maxSize (Some pdf) = 10 * MB.
Proof. reflexivity. Qed.

Lemma maxSize_other (t : option FileType) : t <> Some pdf -> maxSize t = 5 * MB.
Proof. destruct t as [[]|]; intros H; try reflexivity; congruence. Qed.

(** The size check comes first: an oversized file is reported as too
    large whatever its content. *)
Lemma validateFile_oversized (file : FileAttachment) (n : Z) :
  fa_size file = Some n -> maxSize (fa_type file) < n ->
  validateFile file = TooLarge (fa_type file).
Proof.
  intros Hsize Hlt. unfold validateFile, sizeExceeds. rewrite Hsize.
  destruct (Z.ltb_spec (maxSize (fa_type file)) n) as [_|Hge]; [reflexivity | lia].
Qed.

Lemma validateFile_within (file : FileAttachment) (n : Z) :
  fa_size file = Some n -> n <= maxSize (fa_type file) ->
  validateFile file = if contentMissing (fa_content file) then Empty else Valid.
Proof.
  intros Hsize Hle. unfold validateFile, sizeExceeds. rewrite Hsize.
  destruct (Z.ltb_spec (maxSize (fa_type file)) n) as [Hlt|_]; [lia | reflexivity].
Qed.

Lemma contentMissing_nonempty (s : string) : s <> "" -> contentMissing (Some s) = false.
Proof. destruct s; [congruence | reflexivity]. Qed.

(** A file without content never validates, whatever its size. *)
Lemma validateFile_no_content_invalid (file : FileAttachment) :
  contentMissing (fa_content file) = true -> valid (validateFile file) = false.
Proof.
  intros Hc. unfold validateFile. rewrite Hc.
  destruct (sizeExceeds _ _); reflexivity.
Qed.

(** C7. Attachment validation at its boundaries: a pdf whose size is
    exactly the pdf limit of 10 MB (and which has content) passes; a file
    of any category one byte over its category limit fails with the
    too-large error; a file whose content is zero-length (and whose size is
    within the limit) fails with the empty error, and is invalid in any
    case; the pdf allowance, 10 MB, is strictly larger than the 5 MB of
    every other category. *)
Theorem validateFile_boundaries :
  (forall file content,
      fa_type file = Some pdf ->
      fa_size file = Some (10 * 1024 * 1024) ->
      fa_content file = Some content -> content <> "" ->
      validateFile file = Valid)
  /\ (forall file,
         fa_size file = Some (maxSize (fa_type file) + 1) ->
         validateFile file = TooLarge (fa_type file))
  /\ (forall file n,
         fa_content file = Some "" ->
         fa_size file = Some n -> n <= maxSize (fa_type file) ->
         validateFile file = Empty)
  /\ (forall file,
         fa_content file = Some "" -> valid (validateFile file) = false)
  /\ maxSize (Some pdf) = 10 * 1024 * 1024
  /\ (forall t, t <> pdf -> maxSize (Some t) = 5 * 1024 * 1024)
  /\ (forall t, t <> pdf -> maxSize (Some t) < maxSize (Some pdf)).
Proof.
  repeat split.
  - intros file content Ht Hs Hc Hne.
    rewrite (validateFile_within file (10 * 1024 * 1024) Hs).
    + rewrite Hc, (contentMissing_nonempty content Hne). reflexivity.
    + rewrite Ht. reflexivity.
  - intros file Hs.
    apply (validateFile_oversized file _ Hs). lia.
  - intros file n Hc Hs Hle.
    rewrite (validateFile_within file n Hs Hle), Hc. reflexivity.
  - intros file Hc. apply validateFile_no_content_invalid. rewrite Hc. reflexivity.
  - intros [] Hne; try reflexivity; congruence.
  - intros [] Hne; try reflexivity; congruence.
Qed.

Lemma validateFile_boundaries_witness :
  validateFile pdfAtLimit = Valid
  /\ validateFile csvOverLimit = TooLarge (Some csv)
  /\ validateFile emptyText = Empty
  /\ valid (validateFile emptyText) = false
  /\ maxSize (Some excel) < maxSize (Some pdf).
Proof.
  destruct validateFile_boundaries as (Hpass & Hlarge & Hempty & Hinvalid & _ & _ & Hlt).
  split; [| split; [| split; [| split]]].
  - apply (Hpass pdfAtLimit "JVBERi0="); [reflexivity | reflexivity | reflexivity | discriminate].
  - apply (Hlarge csvOverLimit). reflexivity.
  - apply (Hempty emptyText 0); [reflexivity | reflexivity | simpl; lia].
  - apply (Hinvalid emptyText). reflexivity.
  - apply (Hlt excel). discriminate.
Defined.

End FileServiceProofs.

(* ===================================================================== *)
(** * Facts about effects *)
(* ===================================================================== *)

Module EffectFacts.
Import Notions.

(** Unfolds the monad operations in the goal. *)
Ltac run := unfold bind, ret, throw, try_catch, liftC in *; simpl in *.

Section Stable.
Context {X : Type} (f : World -> X).

Lemma stable_ret {A} (a : A) : stable f (ret a).
Proof. intros w. reflexivity. Qed.

Lemma stable_throw {A} (e : JsError) : stable f (@throw World A e).
Proof. intros w. reflexivity. Qed.

Lemma stable_liftC {A} (c : Completion A) : stable f (liftC c).
Proof. intros w. reflexivity. Qed.

Lemma stable_bind {A B} (m : M A) (k : A -> M B) :
  stable f m -> (forall a, stable f (k a)) -> stable f (bind m k).
Proof.
  intros Hm Hk w. unfold bind. specialize (Hm w).
  destruct (m w) as [[a|e] w1]; simpl in *.
  - rewrite (Hk a w1). exact Hm.
  - exact Hm.
Qed.

Lemma stable_try_catch {A} (body : M A) (handler : JsError -> M A) :
  stable f body -> (forall e, stable f (handler e)) -> stable f (try_catch body handler).
Proof.
  intros Hb Hh w. unfold try_catch. specialize (Hb w).
  destruct (body w) as [[a|e] w1]; simpl in *.
  - exact Hb.
  - rewrite (Hh e w1). exact Hb.
Qed.

Lemma stable_forM {A B} (g : A -> M B) (xs : list A) :
  (forall x, stable f (g x)) -> stable f (forM g xs).
Proof.
  intros Hg. induction xs as [|x xs IH]; simpl.
  - apply stable_ret.
  - apply stable_bind; [apply Hg |]. intros y.
    apply stable_bind; [exact IH |]. intros ys. apply stable_ret.
Qed.

Lemma stable_getProp (v : JsVal) (k : string) : stable f (getProp v k).
Proof. intros w. destruct v; reflexivity. Qed.

Lemma stable_Date_now : stable f Date_now.
Proof. intros w. reflexivity. Qed.

End Stable.

Lemma stable_doFetch_aiLog env url : stable aiLog (doFetch env url).
Proof. intros w. reflexivity. Qed.

Lemma stable_doFetch_history env url : stable conversationHistory (doFetch env url).
Proof. intros w. reflexivity. Qed.

Lemma stable_call_fetchLog env params : stable fetchLog (callGenerateContent env params).
Proof. intros w. reflexivity. Qed.

(** Breaks a goal [stable f m] down along the structure of [m]. *)
Ltac stable_step :=
  first
    [ apply stable_ret | apply stable_throw | apply stable_liftC
    | apply stable_getProp | apply stable_Date_now
    | apply stable_doFetch_aiLog | apply stable_doFetch_history
    | apply stable_call_fetchLog
    | apply stable_bind; [| intros ?]
    | apply stable_try_catch; [| intros ?]
    | apply stable_forM; intros ?
    | match goal with
      | |- stable _ (if ?c then _ else _) => destruct c
      | |- stable _ (match ?x with _ => _ end) => destruct x
      end ].

Ltac stable_tac := repeat stable_step.

Lemma total_ret {A} (a : A) : total (ret a).
Proof. intros w. exists a. reflexivity. Qed.

(** A [try] whose handler completes normally completes normally. *)
Lemma total_try_catch {A} (body : M A) (handler : JsError -> M A) :
  (forall e, total (handler e)) -> total (try_catch body handler).
Proof.
  intros Hh w. unfold try_catch.
  destruct (body w) as [[a|e] w1]; simpl.
  - exists a. reflexivity.
  - apply Hh.
Qed.

Lemma total_bind {A B} (m : M A) (k : A -> M B) :
  total m -> (forall a, total (k a)) -> total (bind m k).
Proof.
  intros Hm Hk w. unfold bind. destruct (Hm w) as [a Ha].
  destruct (m w) as [[a'|e] w1]; simpl in Ha; [| discriminate].
  apply Hk.
Qed.

Lemma total_forM {A B} (g : A -> M B) (xs : list A) :
  (forall x, total (g x)) -> total (forM g xs).
Proof.
  intros Hg. induction xs as [|x xs IH]; simpl.
  - apply total_ret.
  - apply total_bind; [apply Hg |]. intros y.
    apply total_bind; [exact IH |]. intros ys. apply total_ret.
Qed.

(** The outcome of a total computation, as an equation. *)
Lemma total_run {A} (m : M A) (w : World) :
  total m -> exists a w', m w = (Normal a, w').
Proof.
  intros H. destruct (H w) as [a Ha].
  destruct (m w) as [r w'] eqn:E. simpl in Ha. subst r. eauto.
Qed.

(** A request followed by code that makes none: the log grows by one. *)
Lemma fetch_then_stable {A} env url (k : HttpResponse -> M A) (h : JsError -> M A) w :
  (forall r, stable fetchLog (k r)) -> (forall e, stable fetchLog (h e)) ->
  fetchLog (snd (try_catch (bind (doFetch env url) k) h w)) = (fetchLog w ++ [url])%list.
Proof.
  intros Hk Hh. unfold try_catch, bind, doFetch.
  destruct (fetch env (List.length (fetchLog w)) url) as [r|e].
  - match goal with |- context [ k r ?w0 ] =>
      specialize (Hk r w0); destruct (k r w0) as [[a|e] w1]
    end; simpl in *.
    + exact Hk.
    + rewrite (Hh e w1). exact Hk.
  - simpl. rewrite (Hh e _). reflexivity.
Qed.

Lemma bind_Normal_inv {A B} (m : M A) (k : A -> M B) w b w' :
  bind m k w = (Normal b, w') ->
  exists a w1, m w = (Normal a, w1) /\ k a w1 = (Normal b, w').
Proof.
  unfold bind. destruct (m w) as [[a|e] w1]; [| discriminate].
  intros H. exists a, w1. split; [reflexivity | exact H].
Qed.

Lemma callsAtMost_stable {A} (m : M A) : stable aiLog m -> callsAtMost 0 m.
Proof. intros H w. exists []. rewrite app_nil_r. split; [apply H | reflexivity]. Qed.

Lemma callsAtMost_weaken {A} (n n' : nat) (m : M A) :
  (n <= n')%nat -> callsAtMost n m -> callsAtMost n' m.
Proof.
  intros Hle H w. destruct (H w) as (added & Heq & Hlen).
  exists added. split; [exact Heq | lia].
Qed.

Lemma callsAtMost_bind {A B} (n k : nat) (m : M A) (f : A -> M B) :
  callsAtMost n m -> (forall a, callsAtMost k (f a)) -> callsAtMost (n + k) (bind m f).
Proof.
  intros Hm Hf w. unfold bind. destruct (Hm w) as (l1 & H1 & Hl1).
  destruct (m w) as [[a|e] w1]; simpl in H1.
  - destruct (Hf a w1) as (l2 & H2 & Hl2).
    exists (l1 ++ l2)%list. rewrite H2, H1, app_assoc. split; [reflexivity |].
    rewrite length_app. lia.
  - exists l1. split; [exact H1 | lia].
Qed.


Lemma callsAtMost_call env params : callsAtMost 1 (callGenerateContent env params).
Proof. intros w. exists [params]. split; reflexivity. Qed.

End EffectFacts.

(* ===================================================================== *)
(** * Properties of the external data clients *)
(* ===================================================================== *)

Module GatewayProofs.
Import Notions Examples EffectFacts.

Section ExternalData.
Import ExternalDataService.
Variable env : Env.

Lemma FMP_API_KEY_demo :
  absentOrPlaceholder "demo" (extra_FMP_API_KEY env) ->
  absentOrPlaceholder "demo" (env_FMP_API_KEY env) ->
  FMP_API_KEY env = "demo".
Proof.
  unfold FMP_API_KEY. intros [-> | [-> | ->]] [-> | [-> | ->]]; reflexivity.
Qed.

Lemma checkApiKey_demo : FMP_API_KEY env = "demo" -> checkApiKey env = false.
Proof. unfold checkApiKey. intros ->. reflexivity. Qed.

Lemma fetchOne_disabled url shape w :
  checkApiKey env = false -> fetchOne env url shape w = (Normal JNull, w).
Proof. intros H. unfold fetchOne. rewrite H. reflexivity. Qed.

Lemma fetchMany_disabled url shape w :
  checkApiKey env = false -> fetchMany env url shape w = (Normal (JArr []), w).
Proof. intros H. unfold fetchMany. rewrite H. reflexivity. Qed.

(** With the FMP key absent or left at the placeholder, every FMP lookup of
    externalDataService.ts returns its empty result and leaves the world,
    and so the request log, as it was. *)
Lemma externalData_guard w :
  checkApiKey env = false ->
  (forall ticker, fetchStockQuote env ticker w = (Normal JNull, w))
  /\ (forall ticker, fetchCompanyProfile env ticker w = (Normal JNull, w))
  /\ (forall ticker, fetchKeyMetrics env ticker w = (Normal JNull, w))
  /\ (forall ticker period limit,
         fetchIncomeStatement env ticker period limit w = (Normal (JArr []), w))
  /\ (forall ticker days, fetchHistoricalPrices env ticker days w = (Normal (JArr []), w))
  /\ (forall query, searchStocks env query w = (Normal (JArr []), w))
  /\ fetchMarketGainers env w = (Normal (JArr []), w)
  /\ fetchMarketLosers env w = (Normal (JArr []), w)
  /\ (forall indicator, fetchEconomicIndicator env indicator w = (Normal (JArr []), w)).
Proof.
  intros H. repeat split; intros;
    first [ apply fetchOne_disabled; exact H | apply fetchMany_disabled; exact H ].
Qed.

Lemma NEWS_API_KEY_demo :
  absentOrPlaceholder "demo" (extra_NEWS_API_KEY env) ->
  absentOrPlaceholder "demo" (env_NEWS_API_KEY env) ->
  NEWS_API_KEY env = "demo".
Proof.
  unfold NEWS_API_KEY. intros [-> | [-> | ->]] [-> | [-> | ->]]; reflexivity.
Qed.

(** The macro news search with the news key absent or at its placeholder. *)
Lemma fetchMacroNews_guard query w :
  NEWS_API_KEY env = "demo" -> fetchMacroNews env query w = (Normal (JArr []), w).
Proof.
  intros H. unfold fetchMacroNews, fetchMacroNewsFromNewsAPI. rewrite H. reflexivity.
Qed.

Lemma stable_macroNewsItem {X} (f : World -> X) item : stable f (macroNewsItem item).
Proof. unfold macroNewsItem. stable_tac. Qed.

Lemma stable_mapArray {X} (f : World -> X) (g : JsVal -> M JsVal) v :
  (forall x, stable f (g x)) -> stable f (mapArray g v).
Proof. intros Hg. unfold mapArray. stable_tac; apply Hg. Qed.

(** The macro news search never calls the AI backend nor touches the
    transcript mirror. *)
Lemma stable_fetchMacroNews_aiLog query : stable aiLog (fetchMacroNews env query).
Proof.
  unfold fetchMacroNews, fetchMacroNewsFromNewsAPI.
  apply stable_try_catch; [| intros; apply stable_ret].
  destruct (_ || _); [apply stable_ret |].
  apply stable_bind; [apply stable_doFetch_aiLog |]. intros response.
  apply stable_bind; [apply stable_liftC |]. intros data.
  apply stable_bind; [apply stable_getProp |]. intros st.
  destruct (negb _); [apply stable_ret |].
  apply stable_bind; [apply stable_getProp |]. intros articles.
  apply stable_mapArray. intros x. apply stable_macroNewsItem.
Qed.

Lemma stable_fetchMacroNews_history query :
  stable conversationHistory (fetchMacroNews env query).
Proof.
  unfold fetchMacroNews, fetchMacroNewsFromNewsAPI.
  apply stable_try_catch; [| intros; apply stable_ret].
  destruct (_ || _); [apply stable_ret |].
  apply stable_bind; [apply stable_doFetch_history |]. intros response.
  apply stable_bind; [apply stable_liftC |]. intros data.
  apply stable_bind; [apply stable_getProp |]. intros st.
  destruct (negb _); [apply stable_ret |].
  apply stable_bind; [apply stable_getProp |]. intros articles.
  apply stable_mapArray. intros x. apply stable_macroNewsItem.
Qed.


End ExternalData.

Section FMP.
Import FMPService.
Variable env : Env.

Lemma IS_FMP_ENABLED_demo :
  absentOrPlaceholder "demo" (env_FMP_API_KEY env) -> IS_FMP_ENABLED env = false.
Proof.
  unfold IS_FMP_ENABLED, API_KEY. intros [-> | [-> | ->]]; reflexivity.
Qed.

Lemma getOne_disabled url w :
  IS_FMP_ENABLED env = false -> getOne env url w = (Normal JNull, w).
Proof. intros H. unfold getOne. rewrite H. reflexivity. Qed.

Lemma getMany_disabled url w :
  IS_FMP_ENABLED env = false -> getMany env url w = (Normal (JArr []), w).
Proof. intros H. unfold getMany. rewrite H. reflexivity. Qed.

(** With the FMP key absent or too short to be one, every client function
    of fmpService.ts returns its empty result without a request. *)
Lemma fmpService_guard w :
  IS_FMP_ENABLED env = false ->
  (forall symbol, getQuote env symbol w = (Normal JNull, w))
  /\ (forall symbols, getMultipleQuotes env symbols w = (Normal (JArr []), w))
  /\ (forall symbol, getCompanyProfile env symbol w = (Normal JNull, w))
  /\ (forall symbol period limit,
         getIncomeStatement env symbol period limit w = (Normal (JArr []), w))
  /\ (forall symbol period limit,
         getBalanceSheet env symbol period limit w = (Normal (JArr []), w))
  /\ (forall symbol period limit,
         getCashFlowStatement env symbol period limit w = (Normal (JArr []), w))
  /\ (forall symbol period limit,
         getKeyMetrics env symbol period limit w = (Normal (JArr []), w))
  /\ getBiggestGainers env w = (Normal (JArr []), w)
  /\ getBiggestLosers env w = (Normal (JArr []), w)
  /\ (forall query limit, searchSymbol env query limit w = (Normal (JArr []), w)).
Proof.
  intros H. repeat split; intros;
    first [ apply getOne_disabled; exact H | apply getMany_disabled; exact H ].
Qed.

End FMP.

Section News.
Import NewsService.
Variable env : Env.

(** With no news key at all, the news search of newsService.ts returns the
    empty array without a request. *)
Lemma searchFinancialNews_no_key query limit w :
  env_NEWS_API_KEY env = None \/ env_NEWS_API_KEY env = Some "" ->
  searchFinancialNews env query limit w = (Normal (JArr []), w).
Proof.
  intros H. unfold searchFinancialNews.
  assert (Hk : API_KEY env = "") by (unfold API_KEY; destruct H as [-> | ->]; reflexivity).
  rewrite Hk. reflexivity.
Qed.

Lemma stable_keepComplete {X} (f : World -> X) articles : stable f (keepComplete articles).
Proof.
  induction articles as [|a rest IH]; simpl; [apply stable_ret |].
  apply stable_bind; [apply stable_getProp |]. intros title.
  apply stable_bind.
  - destruct (truthy title); [| apply stable_ret].
    apply stable_bind; [apply stable_getProp |]. intros d. apply stable_ret.
  - intros keep. apply stable_bind; [exact IH |]. intros kept. apply stable_ret.
Qed.

(** With any other key, the placeholder included, the request is sent:
    the request log grows by exactly one URL. *)
Lemma searchFinancialNews_requests query limit w :
  API_KEY env <> "" ->
  exists url,
    fetchLog (snd (searchFinancialNews env query limit w)) = (fetchLog w ++ [url])%list.
Proof.
  intros Hk. unfold searchFinancialNews.
  destruct (String.eqb_spec (API_KEY env) "") as [E|_]; [contradiction |].
  eexists. apply fetch_then_stable; [| intros; apply stable_ret].
  intros response. destruct (negb (ok response)).
  - apply stable_bind; [apply stable_liftC |]. intros error.
    apply stable_bind; [apply stable_getProp |]. intros _. apply stable_ret.
  - apply stable_bind; [apply stable_liftC |]. intros data.
    apply stable_bind; [apply stable_getProp |]. intros st.
    apply stable_bind; [apply stable_getProp |]. intros articles.
    destruct (_ || _); [apply stable_ret |].
    destruct articles; try apply stable_throw.
    apply stable_bind; [apply stable_keepComplete |]. intros kept.
    apply stable_bind; [apply stable_Date_now |]. intros now. apply stable_ret.
Qed.

End News.

(** C4. At the placeholder news key the news search of newsService.ts does
    not short-circuit: [IS_NEWS_ENABLED] is false, the flag is not read,
    and the request for the query goes out to newsapi.org. *)
Theorem searchFinancialNews_placeholder_requests :
  NewsService.IS_NEWS_ENABLED placeholderNewsEnv = false
  /\ fetchLog (snd (NewsService.searchFinancialNews placeholderNewsEnv
                      (Some "BBCA") (Some 5) freshWorld))
     = ["https://newsapi.org/v2/everything?q=BBCA saham OR pasar OR investasi OR ekonomi&language=id&sortBy=publishedAt&pageSize=5&apiKey=YOUR_NEWS_API_KEY_HERE"].
Proof. split; vm_compute; reflexivity. Qed.




End GatewayProofs.

(* ===================================================================== *)
(** * Properties of the Gemini orchestration *)
(* ===================================================================== *)

Module GeminiProofs.
Import Notions Examples EffectFacts GeminiService.

Lemma errorMessage_category (error : JsError) :
  errorMessage error = fallbackFor (categoryOf error).
Proof.
  unfold errorMessage, categoryOf.
  destruct (messageIncludes error "API Key"); [reflexivity |].
  destruct (messageIncludes error "network" || messageIncludes error "fetch"); [reflexivity |].
  destruct (messageIncludes error "quota"); reflexivity.
Qed.

Lemma fallbackFor_nonempty (c : ErrorCategory) : fallbackFor c <> "".
Proof. destruct c; discriminate. Qed.

Lemma strOr_nonempty (a : option string) (b : string) : b <> "" -> strOr a b <> "".
Proof.
  intros Hb. unfold strOr. destruct a as [s|]; [| exact Hb].
  destruct (String.eqb_spec s ""); [exact Hb | assumption].
Qed.

Lemma MISSING_KEY_is_configuration : categoryOf MISSING_KEY_ERROR = Configuration.
Proof. reflexivity. Qed.

Section WithEnv.
Variable env : Env.

(** ** One tool call *)









Lemma stable_executeTool_aiLog (call : FunctionCall) : stable aiLog (executeTool env call).
Proof.
  unfold executeTool. apply stable_bind; [| intros; apply stable_ret].
  destruct (nameIs _ _).
  - apply stable_bind; [apply stable_getProp | intros; apply stable_ret].
  - destruct (nameIs _ _); [| apply stable_ret].
    apply stable_bind; [apply stable_getProp |]. intros query.
    apply GatewayProofs.stable_fetchMacroNews_aiLog.
Qed.

Lemma stable_executeTool_history (call : FunctionCall) :
  stable conversationHistory (executeTool env call).
Proof.
  unfold executeTool. apply stable_bind; [| intros; apply stable_ret].
  destruct (nameIs _ _).
  - apply stable_bind; [apply stable_getProp | intros; apply stable_ret].
  - destruct (nameIs _ _); [| apply stable_ret].
    apply stable_bind; [apply stable_getProp |]. intros query.
    apply GatewayProofs.stable_fetchMacroNews_history.
Qed.

(** ** The tool loop *)



Lemma stable_forM_executeTool_aiLog (calls : list FunctionCall) :
  stable aiLog (forM (executeTool env) calls).
Proof. apply stable_forM. intros call. apply stable_executeTool_aiLog. Qed.

(** ** The end of the turn *)

Lemma stable_sourceOf {X} (f : World -> X) (wr : WebRef) : stable f (sourceOf env wr).
Proof.
  unfold sourceOf. apply stable_bind; [| intros; apply stable_ret].
  destruct (web_title wr) as [t|]; [destruct (String.eqb t "") |];
    first [apply stable_liftC | apply stable_ret].
Qed.

Lemma stable_extractSources {X} (f : World -> X) (chunks : list GroundingChunk) :
  stable f (extractSources env chunks).
Proof.
  induction chunks as [|chunk rest IH]; simpl; [apply stable_ret |].
  destruct (web chunk) as [wr|]; [| exact IH].
  apply stable_bind; [apply stable_sourceOf |]. intros s.
  apply stable_bind; [exact IH |]. intros ss. apply stable_ret.
Qed.

Lemma stable_pushHistory_aiLog items : stable aiLog (pushHistory items).
Proof. intros w. reflexivity. Qed.

Lemma stable_pushHistory_fetchLog items : stable fetchLog (pushHistory items).
Proof. intros w. reflexivity. Qed.

(** Steps 7 to 9 call neither the AI backend nor the network. *)
Lemma stable_finishTurn_aiLog msg atts response :
  stable aiLog (finishTurn env msg atts response).
Proof.
  unfold finishTurn. apply stable_bind.
  - destruct (chunksOf response); [apply stable_extractSources | apply stable_ret].
  - intros srcs. apply stable_bind; [apply stable_pushHistory_aiLog |].
    intros _. apply stable_ret.
Qed.

Lemma stable_finishTurn_fetchLog msg atts response :
  stable fetchLog (finishTurn env msg atts response).
Proof.
  unfold finishTurn. apply stable_bind.
  - destruct (chunksOf response); [apply stable_extractSources | apply stable_ret].
  - intros srcs. apply stable_bind; [apply stable_pushHistory_fetchLog |].
    intros _. apply stable_ret.
Qed.

Lemma finishTurn_text msg atts response w advice w' :
  finishTurn env msg atts response w = (Normal advice, w') ->
  text advice = strOr (resp_text response) MSG_NO_RESPONSE.
Proof.
  unfold finishTurn. intros H.
  apply bind_Normal_inv in H. destruct H as (srcs & w1 & _ & H).
  apply bind_Normal_inv in H. destruct H as (u & w2 & _ & H).
  unfold ret in H. injection H as <- _. reflexivity.
Qed.

Lemma stable_onError {X} (f : World -> X) e : stable f (onError e).
Proof. apply stable_ret. Qed.

(** ** The tool round *)

Lemma toolRound_direct history msg atts response w :
  firstParts response = None
  \/ (exists ps, firstParts response = Some ps /\ functionCallsOf ps = []) ->
  toolRound env history msg atts response w = (Normal response, w).
Proof.
  unfold toolRound. intros [-> | (ps & -> & ->)]; reflexivity.
Qed.


Lemma callsAtMost_toolRound history msg atts response :
  callsAtMost 1 (toolRound env history msg atts response).
Proof.
  unfold toolRound.
  destruct (firstParts response) as [ps|];
    [| apply (callsAtMost_weaken 0); [lia | apply callsAtMost_stable, stable_ret]].
  destruct (functionCallsOf ps) as [|c cs] eqn:Ec;
    [apply (callsAtMost_weaken 0); [lia | apply callsAtMost_stable, stable_ret] |].
  apply (callsAtMost_bind 0 1).
  - apply callsAtMost_stable, stable_forM_executeTool_aiLog.
  - intros responses. apply callsAtMost_call.
Qed.

(** ** The whole turn *)

Lemma adviceBody_keyed history msg atts :
  API_KEY env <> "" ->
  adviceBody env history msg atts
  = bind (callGenerateContent env (firstRequest history msg atts))
         (fun first_response =>
            bind (toolRound env history msg atts first_response)
                 (finishTurn env msg atts)).
Proof.
  intros Hk. unfold adviceBody.
  destruct (String.eqb_spec (API_KEY env) ""); [contradiction | reflexivity].
Qed.

Lemma adviceBody_no_key history msg atts w :
  API_KEY env = "" ->
  adviceBody env history msg atts w = (Throw MISSING_KEY_ERROR, w).
Proof. intros Hk. unfold adviceBody. rewrite Hk. reflexivity. Qed.


(** The shape of a turn whose first reply asks for no tool: steps 7 to 9
    run on that reply. *)
Lemma turn_direct history msg atts w first :
  API_KEY env <> "" ->
  generateContent env (List.length (aiLog w)) (firstRequest history msg atts) = Normal first ->
  firstParts first = None
  \/ (exists ps, firstParts first = Some ps /\ functionCallsOf ps = []) ->
  generateFinancialAdvice env history msg atts w
  = try_catch (finishTurn env msg atts first) onError
      (logCall (firstRequest history msg atts) w).
Proof.
  intros Hk Hfirst Hno.
  unfold generateFinancialAdvice. rewrite (adviceBody_keyed history msg atts Hk).
  unfold try_catch at 1, bind at 1.
  unfold callGenerateContent at 1. rewrite Hfirst.
  change (mkWorld (fetchLog w) (aiLog w ++ [firstRequest history msg atts])%list
            (conversationHistory w) (clock w))
    with (logCall (firstRequest history msg atts) w).
  unfold bind at 1.
  rewrite (toolRound_direct history msg atts first _ Hno).
  reflexivity.
Qed.


(** The turn always completes normally, with a text that is not empty;
    when the [try] block throws, the answer is the fallback for the
    category of the error, without sources. *)
Lemma generateFinancialAdvice_completes history msg atts w :
  exists advice w',
    generateFinancialAdvice env history msg atts w = (Normal advice, w')
    /\ text advice <> ""
    /\ (forall e w1,
           adviceBody env history msg atts w = (Throw e, w1) ->
           advice = {| text := fallbackFor (categoryOf e); sources := [] |} /\ w' = w1)
    /\ (forall r w1,
           adviceBody env history msg atts w = (Normal r, w1) -> advice = r /\ w' = w1).
Proof.
  unfold generateFinancialAdvice, try_catch.
  destruct (adviceBody env history msg atts w) as [[r|e] w1] eqn:E.
  - exists r, w1. split; [reflexivity |]. split.
    + unfold adviceBody in E. destruct (String.eqb (API_KEY env) ""); [discriminate |].
      apply bind_Normal_inv in E. destruct E as (first & w2 & _ & E).
      apply bind_Normal_inv in E. destruct E as (response & w3 & _ & E).
      rewrite (finishTurn_text _ _ _ _ _ _ E).
      apply strOr_nonempty. discriminate.
    + split; [intros e w2 [=] |]. intros r' w2 [= <- <-]. split; reflexivity.
  - exists {| text := errorMessage e; sources := [] |}, w1.
    split; [reflexivity |]. split.
    + simpl. rewrite errorMessage_category. apply fallbackFor_nonempty.
    + split; [| intros r w2 [=]]. intros e' w2 [= <- <-].
      rewrite errorMessage_category. split; reflexivity.
Qed.





(** C1. [generateFinancialAdvice] is total: from every history, text,
    attachment list and world, and whatever the backend, the network and
    the URL parser do, it completes normally with a [{text, sources}]
    object whose text is not empty.  Whenever its [try] block throws, the
    text is the fallback selected by the category of the error
    (configuration, network, quota, unknown) and the sources are empty; in
    particular a missing API key yields the configuration text without any
    backend call, and a rejected backend call yields the text for the
    category of the rejection. *)
Theorem generateFinancialAdvice_never_throws history msg atts w :
  exists advice w',
    generateFinancialAdvice env history msg atts w = (Normal advice, w')
    /\ text advice <> ""
    /\ (forall e w1,
           adviceBody env history msg atts w = (Throw e, w1) ->
           advice = {| text := fallbackFor (categoryOf e); sources := [] |})
    /\ (API_KEY env = "" ->
        advice = {| text := MSG_CONFIGURATION; sources := [] |} /\ w' = w)
    /\ (forall e,
           API_KEY env <> "" ->
           generateContent env (List.length (aiLog w)) (firstRequest history msg atts) = Throw e ->
           advice = {| text := fallbackFor (categoryOf e); sources := [] |}).
Proof.
  destruct (generateFinancialAdvice_completes history msg atts w)
    as (advice & w' & Hrun & Htext & Hthrow & Hnormal).
  exists advice, w'. split; [exact Hrun |]. split; [exact Htext |]. split; [| split].
  - intros e w1 E. apply (Hthrow e w1 E).
  - intros Hk. destruct (Hthrow _ _ (adviceBody_no_key history msg atts w Hk)) as [-> ->].
    split; reflexivity.
  - intros e Hk Hfail. apply (Hthrow e (logCall (firstRequest history msg atts) w)).
    rewrite (adviceBody_keyed history msg atts Hk).
    unfold bind, callGenerateContent. rewrite Hfail. reflexivity.
Qed.



(** ** The context sent to the backend *)

Lemma first_request_logged history msg atts w :
  API_KEY env <> "" ->
  exists later,
    aiLog (snd (generateFinancialAdvice env history msg atts w))
    = (aiLog w ++ firstRequest history msg atts :: later)%list.
Proof.
  intros Hk. unfold generateFinancialAdvice.
  rewrite (adviceBody_keyed history msg atts Hk).
  unfold try_catch, bind at 1, callGenerateContent at 1.
  destruct (generateContent env (List.length (aiLog w)) (firstRequest history msg atts))
    as [first|e].
  - match goal with |- context [ bind ?m ?k ?w1 ] =>
      assert (Hrest : callsAtMost (1 + 0) (bind m k))
        by (apply callsAtMost_bind;
            [apply callsAtMost_toolRound
            | intros r; apply callsAtMost_stable, stable_finishTurn_aiLog]);
      destruct (Hrest w1) as (added & Heq & _);
      destruct (bind m k w1) as [[a|e] w3]
    end; simpl in *; exists added; rewrite Heq, <- app_assoc; reflexivity.
  - exists []. reflexivity.
Qed.

(** C8. AssembleContext.  With a key configured, the first request of a
    turn is the one logged first, and its contents are: for every message
    of the history whose [isPlaceholder] flag is not set, in order, one
    turn with the role [model] when the message's role is assistant and
    [user] otherwise, and with the message text as its only part; then the
    new user turn, whose parts are the text part followed by one inline
    data part per attachment, in attachment order. *)
Theorem assemble_context history msg atts w :
  API_KEY env <> "" ->
  aiLog (snd (generateFinancialAdvice env history msg atts w)) !! List.length (aiLog w)
  = Some (firstRequest history msg atts)
  /\ contents (firstRequest history msg atts)
     = (List.map
          (fun m =>
             {| role := if bool_decide (m_role m = Some "assistant") then model else user;
                parts := [PText (m_content m)] |})
          (List.filter (fun m => negb (bool_decide (m_isPlaceholder m = Some true))) history)
        ++ [ {| role := user;
                parts := PText (Some msg)
                           :: List.map (fun a => PInlineData (att_mimeType a) (att_data a))
                                atts |} ])%list.
Proof.
  intros Hk. split.
  - destruct (first_request_logged history msg atts w Hk) as (later & ->).
    apply list_lookup_middle. reflexivity.
  - unfold firstRequest, pastContent, currentParts. simpl. f_equal.
    rewrite (List.filter_ext notPlaceholder
               (fun m => negb (bool_decide (m_isPlaceholder m = Some true)))).
    + apply List.map_ext. intros m. unfold roleOf. f_equal.
      destruct (m_role m) as [r|]; [| reflexivity].
      destruct (String.eqb_spec r "assistant") as [->|Hne].
      * reflexivity.
      * rewrite bool_decide_eq_false_2; [reflexivity | congruence].
    + intros m. unfold notPlaceholder. destruct (m_isPlaceholder m) as [[]|]; reflexivity.
Qed.

(** ** Citations *)

Lemma sourceOf_titled wr t w :
  web_title wr = Some t -> t <> "" -> sourceOf env wr w = (Normal (citationOf env wr), w).
Proof.
  intros Ht Hne. unfold sourceOf, citationOf, strOr. rewrite Ht.
  destruct (String.eqb_spec t ""); [contradiction | reflexivity].
Qed.

Lemma sourceOf_untitled wr host w :
  untitled wr -> URL_hostname env (web_uri wr) = Normal host ->
  sourceOf env wr w = (Normal {| gs_uri := web_uri wr; gs_title := Some host |}, w)
  /\ citationOf env wr = {| gs_uri := web_uri wr; gs_title := Some host |}.
Proof.
  intros Hu Hh. unfold sourceOf, citationOf, strOr, hostnameOf.
  destruct Hu as [-> | ->]; simpl; unfold bind, liftC; rewrite Hh; split; reflexivity.
Qed.

(** Whenever a source is produced, it is the citation. *)
Lemma sourceOf_Normal wr w s w' :
  sourceOf env wr w = (Normal s, w') -> s = citationOf env wr /\ w' = w.
Proof.
  unfold sourceOf, citationOf, strOr, hostnameOf, bind, liftC, ret.
  destruct (web_title wr) as [t|]; [destruct (String.eqb t "") |];
    try destruct (URL_hostname env (web_uri wr));
    intros [= <- <-]; split; reflexivity.
Qed.

Lemma extractSources_Normal chunks w ss w' :
  extractSources env chunks w = (Normal ss, w') -> ss = citations env chunks /\ w' = w.
Proof.
  revert w ss w'. induction chunks as [|chunk rest IH]; intros w ss w' H.
  - injection H as <- <-. split; reflexivity.
  - simpl in H. unfold citations. simpl. destruct (web chunk) as [wr|]; simpl.
    + apply bind_Normal_inv in H. destruct H as (s & w1 & Hs & H).
      apply bind_Normal_inv in H. destruct H as (ss' & w2 & Hss & H).
      injection H as <- <-.
      apply sourceOf_Normal in Hs. destruct Hs as [-> ->].
      apply IH in Hss. destruct Hss as [-> ->]. split; reflexivity.
    + apply IH in H. exact H.
Qed.

Lemma extractSources_resolved chunks w :
  hostsResolve env chunks -> extractSources env chunks w = (Normal (citations env chunks), w).
Proof.
  induction chunks as [|chunk rest IH]; intros Hres; [reflexivity |].
  assert (Hrest : hostsResolve env rest).
  { intros c wr Hin. apply Hres. right. exact Hin. }
  simpl. unfold citations. simpl. destruct (web chunk) as [wr|] eqn:Ew; simpl.
  - assert (Hs : sourceOf env wr w = (Normal (citationOf env wr), w)).
    { destruct (web_title wr) as [t|] eqn:Et.
      - destruct (String.eqb_spec t "") as [->|Hne].
        + destruct (Hres chunk wr (or_introl eq_refl) Ew (or_intror Et)) as (host & Hh).
          destruct (sourceOf_untitled wr host w (or_intror Et) Hh) as [-> ->]. reflexivity.
        + apply (sourceOf_titled wr t w Et Hne).
      - destruct (Hres chunk wr (or_introl eq_refl) Ew (or_introl Et)) as (host & Hh).
        destruct (sourceOf_untitled wr host w (or_introl Et) Hh) as [-> ->]. reflexivity. }
    unfold bind at 1. rewrite Hs. unfold bind at 1. rewrite (IH Hrest). reflexivity.
  - apply IH. exact Hrest.
Qed.

Lemma extractSources_throws chunks w :
  (exists chunk wr e,
      In chunk chunks /\ web chunk = Some wr /\ untitled wr
      /\ URL_hostname env (web_uri wr) = Throw e) ->
  exists e w', extractSources env chunks w = (Throw e, w').
Proof.
  revert w. induction chunks as [|c0 rest IH]; intros w (chunk & wr & e & Hin & Hw & Hu & He);
    [destruct Hin |].
  simpl. destruct Hin as [<- | Hin].
  - rewrite Hw. exists e, w. unfold bind at 1.
    assert (Hs : sourceOf env wr w = (Throw e, w)).
    { unfold sourceOf. destruct Hu as [Ht | Ht]; rewrite Ht; simpl;
        unfold bind, liftC; rewrite He; reflexivity. }
    rewrite Hs. reflexivity.
  - assert (Hrest : exists chunk wr e,
               In chunk rest /\ web chunk = Some wr /\ untitled wr
               /\ URL_hostname env (web_uri wr) = Throw e)
      by (exists chunk, wr, e; repeat split; assumption).
    destruct (web c0) as [wr0|]; [| apply IH; exact Hrest].
    unfold bind at 1. destruct (sourceOf env wr0 w) as [[s|e0] w1]; [| eexists; eexists; reflexivity].
    destruct (IH w1 Hrest) as (e1 & w2 & Hthrow).
    exists e1, w2. unfold bind at 1. rewrite Hthrow. reflexivity.
Qed.

(** C9, as amended.  ExtractCitations.  The citation of a web reference
    is [{uri, title}], the title being the backend's when it supplies one
    and the host of the URI otherwise.  When the final reply's first
    candidate carries grounding chunks and every reference without a
    title has a URI the URL parser accepts, the end of the turn returns
    exactly one citation per chunk that carries a web reference, in order.
    When the reply has no candidate, no grounding metadata or no chunks,
    the returned list is empty.  When some reference without a title has a
    URI the parser rejects, the step throws: the turn ends in the [catch]
    block and no chunk is cited.  In a turn whose first reply asks for no
    tool, these are the sources of the answer. *)
Theorem extract_citations :
  (forall wr t, web_title wr = Some t -> t <> "" ->
                citationOf env wr = {| gs_uri := web_uri wr; gs_title := Some t |})
  /\ (forall wr host, untitled wr -> URL_hostname env (web_uri wr) = Normal host ->
                      citationOf env wr = {| gs_uri := web_uri wr; gs_title := Some host |})
  /\ (forall msg atts c rest text chunks w,
         groundingMetadata c = Some {| groundingChunks := Some chunks |} ->
         hostsResolve env chunks ->
         exists w',
           finishTurn env msg atts {| candidates := Some (c :: rest); resp_text := text |} w
           = (Normal {| text := strOr text MSG_NO_RESPONSE;
                        sources := omap (fun chunk => citationOf env <$> web chunk) chunks |},
              w'))
  /\ (forall msg atts response w,
         candidates response = None
         \/ candidates response = Some []
         \/ (exists c rest,
                candidates response = Some (c :: rest)
                /\ (groundingMetadata c = None
                    \/ groundingMetadata c = Some {| groundingChunks := None |}
                    \/ groundingMetadata c = Some {| groundingChunks := Some [] |})) ->
         exists advice w',
           finishTurn env msg atts response w = (Normal advice, w')
           /\ sources advice = [])
  /\ (forall msg atts c rest text chunks w,
         groundingMetadata c = Some {| groundingChunks := Some chunks |} ->
         (exists chunk wr e,
             In chunk chunks /\ web chunk = Some wr /\ untitled wr
             /\ URL_hostname env (web_uri wr) = Throw e) ->
         exists e w',
           finishTurn env msg atts {| candidates := Some (c :: rest); resp_text := text |} w
           = (Throw e, w')
           /\ try_catch
                (finishTurn env msg atts
                   {| candidates := Some (c :: rest); resp_text := text |})
                onError w
              = (Normal {| text := errorMessage e; sources := [] |}, w'))
  /\ (forall history msg atts c rest text chunks w,
         API_KEY env <> "" ->
         generateContent env (List.length (aiLog w)) (firstRequest history msg atts)
         = Normal {| candidates := Some (c :: rest); resp_text := text |} ->
         firstParts {| candidates := Some (c :: rest); resp_text := text |} = None
         \/ (exists ps,
                firstParts {| candidates := Some (c :: rest); resp_text := text |} = Some ps
                /\ functionCallsOf ps = []) ->
         groundingMetadata c = Some {| groundingChunks := Some chunks |} ->
         hostsResolve env chunks ->
         fst (generateFinancialAdvice env history msg atts w)
         = Normal {| text := strOr text MSG_NO_RESPONSE;
                     sources := omap (fun chunk => citationOf env <$> web chunk) chunks |}).
Proof.
  assert (Hend : forall msg atts c rest text chunks w,
             groundingMetadata c = Some {| groundingChunks := Some chunks |} ->
             hostsResolve env chunks ->
             exists w',
               finishTurn env msg atts {| candidates := Some (c :: rest); resp_text := text |} w
               = (Normal {| text := strOr text MSG_NO_RESPONSE;
                            sources := omap (fun chunk => citationOf env <$> web chunk) chunks |},
                  w')).
  { intros msg atts c rest text chunks w Hgm Hres.
    unfold finishTurn, chunksOf. simpl. rewrite Hgm. simpl.
    unfold bind at 1. rewrite (extractSources_resolved chunks w Hres).
    eexists. reflexivity. }
  split; [| split; [| split; [| split; [| split]]]].
  - intros wr t Ht Hne. unfold citationOf, strOr. rewrite Ht.
    destruct (String.eqb_spec t ""); [contradiction | reflexivity].
  - intros wr host Hu Hh. apply (sourceOf_untitled wr host freshWorld Hu Hh).
  - exact Hend.
  - intros msg atts response w Hnone. unfold finishTurn, chunksOf.
    destruct Hnone as [-> | [-> | (c & rest & -> & [-> | [-> | ->]])]];
      eexists; eexists; split; reflexivity.
  - intros msg atts c rest text chunks w Hgm Hbad.
    destruct (extractSources_throws chunks w Hbad) as (e & w' & Hthrow).
    assert (Hfin : finishTurn env msg atts
                     {| candidates := Some (c :: rest); resp_text := text |} w
                   = (Throw e, w')).
    { unfold finishTurn, chunksOf. simpl. rewrite Hgm. simpl.
      unfold bind at 1. rewrite Hthrow. reflexivity. }
    exists e, w'. split; [exact Hfin |].
    unfold try_catch. rewrite Hfin. reflexivity.
  - intros history msg atts c rest text chunks w Hk Hfirst Hno Hgm Hres.
    rewrite (turn_direct history msg atts w _ Hk Hfirst Hno).
    destruct (Hend msg atts c rest text chunks
                (logCall (firstRequest history msg atts) w) Hgm Hres) as (w' & Hfin).
    unfold try_catch. rewrite Hfin. reflexivity.
Qed.

End WithEnv.

(** ** A scripted backend *)

Lemma generateFinancialAdvice_never_throws_witness :
  generateFinancialAdvice (offlineEnv None None None) sampleHistory "Analisis BBCA" [] freshWorld
  = (Normal {| text := MSG_CONFIGURATION; sources := [] |}, freshWorld)
  /\ fst (generateFinancialAdvice (offlineEnv (Some "AIzaSyExampleGeminiKey") None None)
            sampleHistory "Analisis BBCA" [] freshWorld)
     = Normal {| text := MSG_NETWORK; sources := [] |}.
Proof.
  split.
  - destruct (generateFinancialAdvice_never_throws (offlineEnv None None None)
                sampleHistory "Analisis BBCA" [] freshWorld)
      as (advice & w' & Hrun & _ & _ & Hkey & _).
    destruct (Hkey eq_refl) as [-> ->]. exact Hrun.
  - destruct (generateFinancialAdvice_never_throws
                (offlineEnv (Some "AIzaSyExampleGeminiKey") None None)
                sampleHistory "Analisis BBCA" [] freshWorld)
      as (advice & w' & Hrun & _ & _ & _ & Hfail).
    rewrite Hrun. simpl. f_equal.
    apply (Hfail (mkError (Some "fetch failed"))); [discriminate | reflexivity].
Defined.





Lemma assemble_context_witness :
  contents (firstRequest sampleHistory "Analisis laporan ini" [sampleAttachment])
  = [ {| role := user; parts := [PText (Some "Halo")] |};
      {| role := model; parts := [PText (Some "Halo juga")] |};
      {| role := user;
         parts := [PText (Some "Analisis laporan ini");
                   PInlineData (Some "application/pdf") (Some "JVBERi0=")] |} ]
  /\ aiLog (snd (generateFinancialAdvice scriptedEnv sampleHistory "Analisis laporan ini"
                   [sampleAttachment] freshWorld)) !! 0%nat
     = Some (firstRequest sampleHistory "Analisis laporan ini" [sampleAttachment]).
Proof.
  destruct (assemble_context scriptedEnv sampleHistory "Analisis laporan ini"
              [sampleAttachment] freshWorld) as [Hlogged Hcontents]; [discriminate |].
  split; [rewrite Hcontents; reflexivity | exact Hlogged].
Defined.

Lemma extract_citations_witness :
  fst (generateFinancialAdvice (repeatingEnv replyCited) sampleHistory "Analisis BBCA" []
         freshWorld)
  = Normal {| text := "BBCA stabil.";
              sources := [ {| gs_uri := Some "https://www.idx.co.id/id/berita";
                              gs_title := Some "www.idx.co.id" |};
                           {| gs_uri := Some "https://www.bi.go.id/id/publikasi";
                              gs_title := Some "Bank Indonesia" |} ] |}.
Proof.
  apply (proj2 (proj2 (proj2 (proj2 (proj2 (extract_citations (repeatingEnv replyCited))))))
           sampleHistory "Analisis BBCA" []
           {| content := Some {| c_parts := Some [PText (Some "BBCA stabil.")] |};
              groundingMetadata :=
                Some {| groundingChunks := Some [idxChunk; {| web := None |}; titledChunk] |} |}
           [] (Some "BBCA stabil.") [idxChunk; {| web := None |}; titledChunk] freshWorld).
  - discriminate.
  - reflexivity.
  - right. exists [PText (Some "BBCA stabil.")]. split; reflexivity.
  - reflexivity.
  - intros chunk wr [<- | [<- | [<- | []]]] [= <-] Hu.
    + exists "www.idx.co.id". reflexivity.
    + destruct Hu as [Hu | Hu]; discriminate Hu.
Defined.

(** C9, counterexample: a plain answer whose grounding chunks are a
    reference without title whose URI is not a URL, and a titled
    reference.  [new URL] throws on the first: the turn ends in the
    [catch] block, and the titled reference, which carries a web
    reference, is mapped to no citation. *)
Lemma extract_citations_counterexample :
  chunksOf replyBrokenCitation = Some [brokenChunk; titledChunk]
  /\ web titledChunk
     = Some {| web_uri := Some "https://www.bi.go.id/id/publikasi";
               web_title := Some "Bank Indonesia" |}
  /\ URL_hostname (repeatingEnv replyBrokenCitation) (Some "not a url")
     = Throw (mkError (Some "Invalid URL"))
  /\ generateFinancialAdvice (repeatingEnv replyBrokenCitation) sampleHistory "Analisis BBCA" []
       freshWorld
     = (Normal {| text := MSG_UNKNOWN; sources := [] |},
        logCall (firstRequest sampleHistory "Analisis BBCA" []) freshWorld).
Proof. repeat split. Qed.

End GeminiProofs.

(* ===================================================================== *)
(** * Properties of the session stores *)
(* ===================================================================== *)

Module StoreProofs.
Import Notions Examples EffectFacts FirestoreService.

Lemma removeUndefined_object fields :
  removeUndefined (JObj fields) = JObj (cleanFields fields).
Proof.
  simpl. f_equal. induction fields as [|[key value] rest IH]; [reflexivity |].
  simpl. rewrite <- IH. destruct value; reflexivity.
Qed.

Lemma removeUndefined_array elements :
  removeUndefined (JArr elements) = JObj (cleanIndices 0 elements).
Proof.
  simpl. f_equal. generalize 0%nat.
  induction elements as [|value rest IH]; intros i; [reflexivity |].
  simpl. rewrite <- IH. destruct value; reflexivity.
Qed.

Lemma cleanValue_defined value :
  isUndefined value = false -> isUndefined (cleanValue value) = false.
Proof.
  destruct value; intros H; solve [ reflexivity | discriminate ].
Qed.

(** [removeUndefined], its value function and its element function all
    produce values whose objects have no undefined property. *)
Lemma removeUndefined_fieldsDefined_all (v : JsVal) :
  fieldsDefined (removeUndefined v) = true
  /\ fieldsDefined (cleanValue v) = true
  /\ fieldsDefined (cleanElement v) = true.
Proof.
  induction v as [ | | b | n | s | items IH | fields IH ] using JsVal_nested_ind;
    try (repeat split; reflexivity).
  - assert (Hobj : fieldsDefined (removeUndefined (JArr items)) = true).
    { rewrite removeUndefined_array. simpl. generalize 0%nat.
      induction IH as [|x xs Hx _ IHxs]; intros i; [reflexivity |].
      simpl. destruct (isUndefined x) eqn:Ex; [apply IHxs |].
      simpl. rewrite (cleanValue_defined x Ex). simpl.
      destruct Hx as (_ & -> & _). simpl. apply IHxs. }
    split; [exact Hobj |]. split; [| exact Hobj].
    clear Hobj. simpl. induction IH as [|x xs Hx _ IHxs]; [reflexivity |].
    simpl. destruct Hx as (_ & _ & Hx). fold (cleanElement x). rewrite Hx. exact IHxs.
  - assert (Hobj : fieldsDefined (removeUndefined (JObj fields)) = true).
    { rewrite removeUndefined_object. simpl.
      induction IH as [|[k x] xs Hx _ IHxs]; [reflexivity |].
      simpl. destruct (isUndefined x) eqn:Ex; [apply IHxs |].
      simpl. rewrite (cleanValue_defined x Ex). simpl.
      simpl in Hx. destruct Hx as (_ & -> & _). simpl. apply IHxs. }
    repeat split; exact Hobj.
Qed.

Lemma removeUndefined_fieldsDefined (obj : JsVal) :
  fieldsDefined (removeUndefined obj) = true.
Proof. apply removeUndefined_fieldsDefined_all. Qed.

(** Nothing else is lost: the properties kept are those whose value is
    defined, in their order. *)
Lemma removeUndefined_keeps_defined (fields : list (string * JsVal)) :
  keysOf (removeUndefined (JObj fields))
  = List.map fst (List.filter (fun kv => negb (isUndefined (snd kv))) fields).
Proof.
  rewrite removeUndefined_object. simpl.
  induction fields as [|[key value] rest IH]; [reflexivity |].
  simpl. destruct (isUndefined value); simpl; [exact IH | f_equal; exact IH].
Qed.

(** ** The objects the remote store is given *)

Lemma cleanAttachment_noUndefined (att : FileAttachment) :
  noUndefined (cleanAttachment att) = true.
Proof.
  destruct att as [[i|] [n|] [t|] [sz|] u c [mt|]]; reflexivity.
Qed.

(** An attachment object is already clean: cleaning it again as an array
    element changes nothing. *)
Lemma cleanElement_cleanAttachment (att : FileAttachment) :
  cleanElement (cleanAttachment att) = cleanAttachment att.
Proof.
  destruct att as [[i|] [n|] [t|] [sz|] u c [mt|]]; reflexivity.
Qed.

Lemma cleanElement_cleanSource (src : GroundingSource) :
  cleanElement (cleanSource src) = cleanSource src.
Proof. reflexivity. Qed.

Lemma map_cleanElement_fixed {A} (f : A -> JsVal) (l : list A) :
  (forall x, cleanElement (f x) = f x) ->
  List.map cleanElement (List.map f l) = List.map f l.
Proof.
  intros H. rewrite List.map_map. apply List.map_ext. exact H.
Qed.

Lemma cleanValue_mapOrEmpty {A} (f : A -> JsVal) (xs : option (list A)) :
  (forall x, cleanElement (f x) = f x) ->
  cleanValue (mapOrEmpty f xs) = mapOrEmpty f xs.
Proof.
  intros H. destruct xs as [l|]; [| reflexivity].
  simpl. f_equal. apply map_cleanElement_fixed. exact H.
Qed.

Lemma noUndefined_mapOrEmpty {A} (f : A -> JsVal) (xs : option (list A)) :
  (forall x, noUndefined (f x) = true) -> noUndefined (mapOrEmpty f xs) = true.
Proof.
  intros H. destruct xs as [l|]; [| reflexivity].
  simpl. rewrite List.forallb_forall. intros v Hin.
  apply List.in_map_iff in Hin. destruct Hin as (x & <- & _). apply H.
Qed.

Lemma cleanMessage_fields (msg : Message) :
  cleanMessage msg
  = JObj (present "id" (ofOptStr (m_id msg))
          ++ present "content" (ofOptStr (m_content msg))
          ++ present "role" (ofOptStr (m_role msg))
          ++ present "timestamp" (ofOptNum (m_timestamp msg))
          ++ [("attachments", mapOrEmpty cleanAttachment (m_attachments msg));
              ("sources", mapOrEmpty cleanSource (m_sources msg))])%list.
Proof.
  unfold cleanMessage. rewrite removeUndefined_object.
  pose proof (cleanValue_mapOrEmpty cleanAttachment (m_attachments msg)
                cleanElement_cleanAttachment) as Ha.
  pose proof (cleanValue_mapOrEmpty cleanSource (m_sources msg)
                cleanElement_cleanSource) as Hs.
  destruct msg as [[i|] [c|] [r|] [t|] atts srcs ph]; simpl in *;
    unfold present; simpl;
    destruct atts as [al|], srcs as [sl|]; simpl in *;
    repeat f_equal; solve [ reflexivity | congruence ].
Qed.


Lemma cleanAttachment_stored (att : FileAttachment) :
  cleanAttachment att = storedAttachment att.
Proof.
  unfold cleanAttachment, storedAttachment. rewrite removeUndefined_object.
  destruct att as [[i|] [n|] [t|] [sz|] u c [mt|]]; reflexivity.
Qed.

Lemma cleanMessage_stored (msg : Message) : cleanMessage msg = storedMessage msg.
Proof.
  rewrite cleanMessage_fields. unfold storedMessage.
  assert (Ha : mapOrEmpty cleanAttachment (m_attachments msg)
               = JArr (List.map storedAttachment (default [] (m_attachments msg)))).
  { destruct (m_attachments msg) as [l|]; [| reflexivity]. simpl. f_equal.
    apply List.map_ext. intros att. apply cleanAttachment_stored. }
  assert (Hs : mapOrEmpty cleanSource (m_sources msg)
               = JArr (List.map storedSource (default [] (m_sources msg)))).
  { destruct (m_sources msg) as [l|]; reflexivity. }
  rewrite Ha, Hs. reflexivity.
Qed.

Lemma cleanSource_noUndefined (src : GroundingSource) : noUndefined (cleanSource src) = true.
Proof. reflexivity. Qed.

Lemma cleanMessage_noUndefined (msg : Message) : noUndefined (cleanMessage msg) = true.
Proof.
  rewrite cleanMessage_fields. simpl.
  rewrite !forallb_app. simpl.
  rewrite (noUndefined_mapOrEmpty _ (m_attachments msg) cleanAttachment_noUndefined).
  rewrite (noUndefined_mapOrEmpty _ (m_sources msg) cleanSource_noUndefined).
  destruct (m_id msg), (m_content msg), (m_role msg), (m_timestamp msg); reflexivity.
Qed.

Lemma sessionData_noUndefined (session : ChatSession) (now : Z) :
  Forall (fun kv => noUndefined (snd kv) = true) (sessionData session now).
Proof.
  unfold sessionData. repeat constructor; simpl.
  - rewrite List.forallb_forall. intros v Hin.
    apply List.in_map_iff in Hin. destruct Hin as (m & <- & _).
    apply cleanMessage_noUndefined.
  - rewrite List.forallb_forall. intros v Hin.
    apply List.in_map_iff in Hin. destruct Hin as (m & <- & _).
    apply cleanAttachment_noUndefined.
Qed.

(** ** The remote store *)

Lemma saveChatSession_signed_in (session : ChatSession) (c : Cloud) (uid : string) :
  currentUser c = Some uid ->
  saveChatSession session c
  = setDocMerge uid (s_id session) (sessionData session (clientNow c)) c
  /\ saveChatSession session c
     = (Normal tt, afterWrite c uid (s_id session) (sessionData session (clientNow c))).
Proof.
  intros Hu. unfold saveChatSession, try_catch, bind, getUserId. rewrite Hu.
  split; reflexivity.
Qed.

Lemma saveChatSession_signed_out (session : ChatSession) (c : Cloud) :
  currentUser c = None ->
  saveChatSession session c = (Throw (mkError (Some "User not authenticated")), c).
Proof.
  intros Hu. unfold saveChatSession, try_catch, bind, getUserId. rewrite Hu. reflexivity.
Qed.

Lemma writtenDoc_sessionData (c : Cloud) (uid : string) (session : ChatSession) (now : Z) :
  let doc := writtenDoc c uid (s_id session) (sessionData session now) in
  doc !! "title" = Some (FJs (JStr (strOr (s_title session) "Chat Baru")))
  /\ doc !! "messages" = Some (FJs (JArr (List.map cleanMessage (s_messages session))))
  /\ doc !! "attachments"
     = Some (FJs (JArr (List.map cleanAttachment (default [] (s_attachments session)))))
  /\ (exists t, doc !! "createdAt" = Some (FJs (JNum t)))
  /\ doc !! "updatedAt" = Some (FTimestamp (serverNow c)).
Proof.
  unfold writtenDoc, sessionData. simpl.
  repeat split; try (eexists); simplify_map_eq; reflexivity.
Qed.

(** What [getChatSession] returns right after [saveChatSession]. *)
Lemma remote_get_after_save (session : ChatSession) (c : Cloud) (uid : string) :
  currentUser c = Some uid ->
  exists c' loaded,
    saveChatSession session c = (Normal tt, c')
    /\ getChatSession (s_id session) c' = (Normal (Some loaded), c')
    /\ ls_id loaded = s_id session
    /\ ls_title loaded = FJs (JStr (strOr (s_title session) "Chat Baru"))
    /\ ls_messages loaded = FJs (JArr (List.map cleanMessage (s_messages session)))
    /\ ls_attachments loaded
       = FJs (JArr (List.map cleanAttachment (default [] (s_attachments session)))).
Proof.
  intros Hu. destruct c as [cu ch cn sn]. simpl in Hu. subst cu.
  destruct (saveChatSession_signed_in session (mkCloud (Some uid) ch cn sn) uid eq_refl)
    as [_ Hsave].
  destruct (writtenDoc_sessionData (mkCloud (Some uid) ch cn sn) uid session cn)
    as (Ht & Hm & Ha & (t & Hc) & Hup).
  simpl in Hsave, Ht, Hm, Ha, Hc, Hup.
  exists (afterWrite (mkCloud (Some uid) ch cn sn) uid (s_id session) (sessionData session cn)).
  assert (Hget : exists created updated,
             getChatSession (s_id session)
               (afterWrite (mkCloud (Some uid) ch cn sn) uid (s_id session)
                  (sessionData session cn))
             = (Normal (Some {| ls_id := s_id session;
                                ls_title := FJs (JStr (strOr (s_title session) "Chat Baru"));
                                ls_messages :=
                                  FJs (JArr (List.map cleanMessage (s_messages session)));
                                ls_attachments :=
                                  FJs (JArr (List.map cleanAttachment
                                               (default [] (s_attachments session))));
                                ls_createdAt := created;
                                ls_updatedAt := updated |}),
                afterWrite (mkCloud (Some uid) ch cn sn) uid (s_id session)
                  (sessionData session cn))).
  { unfold getChatSession, try_catch, bind, getUserId, afterWrite.
    cbn [chats clientNow currentUser serverNow].
    rewrite lookup_insert_eq. unfold field.
    rewrite Ht, Hm, Ha, Hc, Hup. simpl.
    destruct (sn =? 0); destruct (t =? 0); simpl; eexists; eexists; reflexivity. }
  destruct Hget as (created & updated & Hget).
  eexists. split; [exact Hsave |]. split; [exact Hget |].
  repeat split; reflexivity.
Qed.

(** A cleaned attachment has metadata properties only: no [content]. *)
Lemma cleanAttachment_metadata_only (att : FileAttachment) :
  (forall key, In key (keysOf (cleanAttachment att)) -> In key metadataKeys)
  /\ ~ In "content" (keysOf (cleanAttachment att)).
Proof.
  destruct att as [[i|] [n|] [t|] [sz|] u c [mt|]]; simpl; split;
    try (intros key Hin; unfold metadataKeys; simpl; tauto);
    intros Hin; repeat (destruct Hin as [Hin|Hin]; [discriminate Hin |]); exact Hin.
Qed.

(** ** The local store *)

Lemma local_find_after_save (session : ChatSession) (sessions : list ChatSession) :
  List.find (fun s => String.eqb (s_id s) (s_id session))
    (match StorageService.findIndex (s_id session) sessions with
     | Some existingIndex => <[existingIndex := session]> sessions
     | None => (sessions ++ [session])%list
     end)
  = Some session.
Proof.
  induction sessions as [|x xs IH]; simpl.
  - rewrite String.eqb_refl. reflexivity.
  - destruct (String.eqb (s_id x) (s_id session)) eqn:E; simpl.
    + rewrite String.eqb_refl. reflexivity.
    + destruct (StorageService.findIndex (s_id session) xs) as [i|]; simpl;
        rewrite E; exact IH.
Qed.

Lemma local_get_after_save (session : ChatSession) (st : StorageService.Storage) :
  StorageService.getChatSession (s_id session) (StorageService.saveChatSession session st)
  = Some session.
Proof.
  unfold StorageService.getChatSession, StorageService.saveChatSession.
  pose proof (local_find_after_save session (StorageService.getAllChatSessions st)) as H.
  destruct (StorageService.findIndex (s_id session) (StorageService.getAllChatSessions st));
    exact H.
Qed.

(** ** The sanitised write and the round trip *)

(** C6. Before a remote write, undefined-valued properties are stripped at
    every depth: whatever it is given, [removeUndefined] returns a value in
    which no object, nested in objects or in arrays at any depth, has an
    undefined property, and it keeps the properties that are defined; and
    the data [saveChatSession] hands to [setDoc]
    for a signed-in user (title, messages, attachments, createdAt) contain
    no [undefined] anywhere, array elements included.  Signed out, nothing
    is written. *)
Theorem remote_write_has_no_undefined :
  (forall obj, fieldsDefined (removeUndefined obj) = true)
  /\ (forall fields,
         keysOf (removeUndefined (JObj fields))
         = List.map fst (List.filter (fun kv => negb (isUndefined (snd kv))) fields))
  /\ (forall msg, noUndefined (cleanMessage msg) = true)
  /\ (forall att, noUndefined (cleanAttachment att) = true)
  /\ (forall session c uid,
         currentUser c = Some uid ->
         saveChatSession session c
         = setDocMerge uid (s_id session) (sessionData session (clientNow c)) c
         /\ Forall (fun kv => noUndefined (snd kv) = true)
              (sessionData session (clientNow c)))
  /\ (forall session c,
         currentUser c = None -> snd (saveChatSession session c) = c).
Proof.
  split; [exact removeUndefined_fieldsDefined |].
  split; [exact removeUndefined_keeps_defined |].
  split; [exact cleanMessage_noUndefined |].
  split; [exact cleanAttachment_noUndefined |].
  split.
  - intros session c uid Hu. split.
    + apply (saveChatSession_signed_in session c uid Hu).
    + apply sessionData_noUndefined.
  - intros session c Hu. rewrite (saveChatSession_signed_out session c Hu). reflexivity.
Qed.

(** C5, as amended.  Local store: [getChatSession (id)] after
    [saveChatSession] returns exactly the session saved, attachment
    content included.  Remote store, signed in: the save succeeds and the
    session read back has the saved id; its title is the saved title, or
    "Chat Baru" when the saved title is missing or empty; its messages are
    the saved messages in stored form: id, content, role and timestamp
    when defined, the attachments reduced to the metadata id, name, type,
    size, mimeType and uri, the sources reduced to uri and title, both the
    empty array when the message had none, and no other property; its
    attachments are the session's in the same stored form, which never
    has [content]. *)
Theorem session_round_trip :
  (forall session st,
      StorageService.getChatSession (s_id session)
        (StorageService.saveChatSession session st) = Some session)
  /\ (forall session c uid,
         currentUser c = Some uid ->
         exists c' loaded,
           saveChatSession session c = (Normal tt, c')
           /\ getChatSession (s_id session) c' = (Normal (Some loaded), c')
           /\ ls_id loaded = s_id session
           /\ ls_title loaded = FJs (JStr (strOr (s_title session) "Chat Baru"))
           /\ ls_messages loaded = FJs (JArr (List.map storedMessage (s_messages session)))
           /\ ls_attachments loaded
              = FJs (JArr (List.map storedAttachment (default [] (s_attachments session)))))
  /\ (forall title, title <> "" -> strOr (Some title) "Chat Baru" = title)
  /\ (forall att,
         (forall key, In key (keysOf (storedAttachment att)) -> In key metadataKeys)
         /\ ~ In "content" (keysOf (storedAttachment att))).
Proof.
  split; [exact local_get_after_save |].
  split.
  { intros session c uid Hu.
    destruct (remote_get_after_save session c uid Hu)
      as (c' & loaded & Hsave & Hget & Hid & Htitle & Hmsgs & Hatts).
    exists c', loaded. split; [exact Hsave |]. split; [exact Hget |].
    split; [exact Hid |]. split; [exact Htitle |]. split.
    - rewrite Hmsgs. do 2 f_equal. apply List.map_ext. exact cleanMessage_stored.
    - rewrite Hatts. do 2 f_equal. apply List.map_ext. exact cleanAttachment_stored. }
  split.
  - intros title Hne. unfold strOr.
    destruct (String.eqb_spec title ""); [contradiction | reflexivity].
  - intros att. rewrite <- cleanAttachment_stored. apply cleanAttachment_metadata_only.
Qed.

(** ** Examples *)

(** C5, counterexample on the remote store: a session saved
    with the empty title is read back titled "Chat Baru", and a message
    saved without attachments and sources is read back with both as empty
    arrays, so neither the title nor the messages equal what was saved. *)
Lemma remote_round_trip_counterexample :
  exists c' loaded,
    saveChatSession untitledSession signedIn = (Normal tt, c')
    /\ getChatSession (s_id untitledSession) c' = (Normal (Some loaded), c')
    /\ ls_title loaded = FJs (JStr "Chat Baru")
    /\ ls_title loaded <> FJs (ofOptStr (s_title untitledSession))
    /\ ls_messages loaded
       = FJs (JArr [JObj [("id", JStr "1700000000000"); ("content", JStr "Halo");
                          ("role", JStr "user"); ("timestamp", JNum 1700000000000);
                          ("attachments", JArr []); ("sources", JArr [])]])
    /\ ls_messages loaded
       <> FJs (JArr (List.map messageToJs (s_messages untitledSession))).
Proof.
  destruct (remote_get_after_save untitledSession signedIn "uid_1" eq_refl)
    as (c' & loaded & Hsave & Hget & _ & Htitle & Hmsgs & _).
  exists c', loaded. split; [exact Hsave |]. split; [exact Hget |].
  rewrite Htitle, Hmsgs. repeat split; discriminate.
Qed.

Lemma session_round_trip_witness :
  StorageService.getChatSession "chat_1"
    (StorageService.saveChatSession titledSession emptyStorage) = Some titledSession
  /\ (exists c' loaded,
         saveChatSession titledSession signedIn = (Normal tt, c')
         /\ getChatSession "chat_1" c' = (Normal (Some loaded), c')
         /\ ls_title loaded = FJs (JStr "Analisis laporan ini")
         /\ ls_messages loaded
            = FJs (JArr [JObj [("id", JStr "1700000000000");
                               ("content", JStr "Analisis laporan ini");
                               ("role", JStr "user");
                               ("timestamp", JNum 1700000000000);
                               ("attachments",
                                 JArr [JObj [("id", JStr "file_1");
                                             ("name", JStr "laporan.pdf");
                                             ("type", JStr "pdf");
                                             ("size", JNum 2048);
                                             ("mimeType", JStr "application/pdf");
                                             ("uri", JStr "file:///laporan.pdf")]]);
                               ("sources", JArr [])]])).
Proof.
  destruct session_round_trip as (Hlocal & Hremote & Htitle & _).
  split; [apply (Hlocal titledSession emptyStorage) |].
  destruct (Hremote titledSession signedIn "uid_1" eq_refl)
    as (c' & loaded & Hsave & Hget & _ & Ht & Hm & _).
  exists c', loaded. split; [exact Hsave |]. split; [exact Hget |].
  split; [rewrite Ht; reflexivity | rewrite Hm; reflexivity].
Defined.

Lemma remote_write_has_no_undefined_witness :
  Forall (fun kv => noUndefined (snd kv) = true)
    (sessionData titledSession (clientNow signedIn))
  /\ fieldsDefined
       (removeUndefined
          (JObj [("a", JUndefined);
                 ("b", JArr [JObj [("c", JUndefined); ("d", JNum 1)]]);
                 ("e", JObj [("f", JUndefined)])])) = true.
Proof.
  destruct remote_write_has_no_undefined as (Hgeneral & _ & _ & _ & Hwrite & _).
  split.
  - apply (Hwrite titledSession signedIn "uid_1"). reflexivity.
  - apply Hgeneral.
Defined.

End StoreProofs.

(* ===================================================================== *)
(** * Runs on concrete inputs *)
(* ===================================================================== *)

Module Checks.
Import Notions Examples GeminiService.

(** The selection of the fallback text is by case-sensitive substring, in
    the order configuration, network, quota. *)
Example errorMessage_fetch :
  errorMessage (mkError (Some "fetch failed")) = MSG_NETWORK.
Proof. reflexivity. Qed.

Example errorMessage_capital_network :
  errorMessage (mkError (Some "Network request failed")) = MSG_UNKNOWN.
Proof. reflexivity. Qed.

Example errorMessage_quota :
  errorMessage (mkError (Some "You exceeded your current quota")) = MSG_QUOTA.
Proof. reflexivity. Qed.

Example errorMessage_precedence :
  errorMessage (mkError (Some "API Key quota exceeded")) = MSG_CONFIGURATION.
Proof. reflexivity. Qed.

Example errorMessage_no_message :
  errorMessage (mkError None) = MSG_UNKNOWN.
Proof. reflexivity. Qed.

(** A whole turn against the scripted backend: two backend calls, the
    answer and the citations of the second reply, whose own tool request
    is left alone. *)
Example scripted_turn :
  generateFinancialAdvice scriptedEnv sampleHistory "Analisis BBCA" [] freshWorld
  = (Normal {| text := "BBCA stabil.";
               sources := [ {| gs_uri := Some "https://www.idx.co.id/id/berita";
                               gs_title := Some "www.idx.co.id" |};
                            {| gs_uri := Some "https://www.bi.go.id/id/publikasi";
                               gs_title := Some "Bank Indonesia" |} ] |},
     {| fetchLog := [];
        aiLog :=
          [ firstRequest sampleHistory "Analisis BBCA" [];
            secondRequest sampleHistory "Analisis BBCA" [] toolParts
              [ responsePart weatherCall UNKNOWN_FUNCTION;
                responsePart stockNewsCall (JArr []) ] ];
        conversationHistory :=
          [ {| role := user; parts := [PText (Some "Analisis BBCA")] |};
            {| role := model; parts := [PText (Some "BBCA stabil.")] |} ];
        clock := clock freshWorld |}).
Proof. vm_compute. reflexivity. Qed.

(** A reference without title whose URI the parser rejects: the throw is
    caught like any other, and the answer is the generic fallback. *)
Example unparsable_uri_falls_back :
  fst (finishTurn scriptedEnv "Analisis BBCA" []
         {| candidates :=
              Some [ {| content := None;
                        groundingMetadata :=
                          Some {| groundingChunks :=
                                    Some [ {| web := Some {| web_uri := Some "not a url";
                                                             web_title := None |} |} ] |} |} ];
            resp_text := Some "BBCA stabil." |} freshWorld)
  = Throw (mkError (Some "Invalid URL"))
  /\ errorMessage (mkError (Some "Invalid URL")) = MSG_UNKNOWN.
Proof. split; reflexivity. Qed.

(** [removeUndefined] removes properties, not array elements; an array
    nested in an array comes out as an object keyed by index. *)
Example removeUndefined_nested :
  FirestoreService.removeUndefined
    (JObj [("a", JUndefined);
           ("b", JArr [JUndefined; JObj [("c", JUndefined); ("d", JNum 1)];
                       JArr [JUndefined; JNum 2]]);
           ("e", JNull)])
  = JObj [("b", JArr [JUndefined; JObj [("d", JNum 1)]; JObj [("1", JNum 2)]]);
          ("e", JNull)].
Proof. reflexivity. Qed.

(** The size check of [validateFile] comes before the content check. *)
Example validateFile_oversized_and_empty :
  FileService.validateFile
    {| fa_id := Some "file_4"; fa_name := Some "besar.pdf"; fa_type := Some pdf;
       fa_size := Some 10485761; fa_uri := Some "file:///besar.pdf";
       fa_content := Some ""; fa_mimeType := Some "application/pdf" |}
  = FileService.TooLarge (Some pdf).
Proof. reflexivity. Qed.

(** The local store: a second save under the same id replaces the first;
    a deleted session is gone. *)
Example local_save_replaces :
  StorageService.getAllChatSessions
    (StorageService.saveChatSession titledSession
       (StorageService.saveChatSession
          {| s_id := "chat_1"; s_title := Some "Chat Baru"; s_messages := [];
             s_createdAt := Some 1700000000000; s_updatedAt := Some 1700000000000;
             s_attachments := Some [] |} emptyStorage))
  = [titledSession].
Proof. reflexivity. Qed.

Example local_delete_then_get :
  StorageService.getChatSession "chat_1"
    (StorageService.deleteChatSession "chat_1"
       (StorageService.saveChatSession titledSession emptyStorage)) = None.
Proof. reflexivity. Qed.

End Checks.

(* ===================================================================== *)
(** * Properties of the file codec *)
(* ===================================================================== *)

Module FileCodecProofs.
Import FileService FileCodec Notions MoreNotions MoreExamples.

(** ** Finite checks *)

Lemma upTo_forall (n : nat) (p : Z -> bool) :
  forallb p (upTo n) = true -> forall x, 0 <= x < Z.of_nat n -> p x = true.
Proof.
  intros H x Hx. rewrite List.forallb_forall in H. apply H.
  unfold upTo. apply List.in_map_iff. exists (Z.to_nat x).
  split; [lia |]. apply List.in_seq. lia.
Qed.

Lemma upTo_forall2 (n m : nat) (p : Z -> Z -> bool) :
  forallb (fun x => forallb (p x) (upTo m)) (upTo n) = true ->
  forall x y, 0 <= x < Z.of_nat n -> 0 <= y < Z.of_nat m -> p x y = true.
Proof.
  intros H x y Hx Hy.
  apply (upTo_forall m (p x)); [| exact Hy].
  apply (upTo_forall n (fun x => forallb (p x) (upTo m)) H x Hx).
Qed.

(** ** Base64 *)

Lemma charAt_sextet (n : Z) :
  0 <= n < 64 ->
  exists c, charAt n = String c "" /\ sextetOf c = Some n /\ isPad c = false.
Proof.
  intros Hn.
  assert (Hcheck : forallb
            (fun n => match charAt n with
                      | String c EmptyString =>
                          match sextetOf c with
                          | Some m => (m =? n) && negb (isPad c)
                          | None => false
                          end
                      | _ => false
                      end) (upTo 64) = true) by (vm_compute; reflexivity).
  pose proof (upTo_forall 64 _ Hcheck n Hn) as H. cbv beta in H.
  destruct (charAt n) as [|c [|]]; try discriminate.
  exists c. destruct (sextetOf c) as [m|]; [| discriminate].
  apply andb_true_iff in H. destruct H as [Hm Hp].
  apply Z.eqb_eq in Hm. subst m. apply negb_true_iff in Hp. auto.
Qed.

Lemma sextets_first (a b : Z) :
  0 <= a < 256 -> 0 <= b < 256 ->
  0 <= Z.shiftr a 2 < 64
  /\ 0 <= enc2Of a b < 64
  /\ Z.lor (Z.shiftl (Z.shiftr a 2) 2) (Z.shiftr (enc2Of a b) 4) = a
  /\ Z.land (enc2Of a b) 15 = Z.shiftr b 4.
Proof.
  intros Ha Hb.
  assert (Hcheck : forallb (fun a => forallb (fun b =>
            (0 <=? Z.shiftr a 2) && (Z.shiftr a 2 <? 64)
            && (0 <=? enc2Of a b) && (enc2Of a b <? 64)
            && (Z.lor (Z.shiftl (Z.shiftr a 2) 2) (Z.shiftr (enc2Of a b) 4) =? a)
            && (Z.land (enc2Of a b) 15 =? Z.shiftr b 4)) (upTo 256)) (upTo 256) = true)
    by (vm_compute; reflexivity).
  pose proof (upTo_forall2 256 256 _ Hcheck a b Ha Hb) as H. cbv beta in H.
  repeat (apply andb_true_iff in H; destruct H as [H ?]).
  repeat match goal with
         | H : (_ <=? _) = true |- _ => apply Z.leb_le in H
         | H : (_ <? _) = true |- _ => apply Z.ltb_lt in H
         | H : (_ =? _) = true |- _ => apply Z.eqb_eq in H
         end.
  repeat split; assumption.
Qed.

Lemma sextets_last (b c : Z) :
  0 <= b < 256 -> 0 <= c < 256 ->
  0 <= enc3Of b c < 64
  /\ 0 <= Z.land c 63 < 64
  /\ Z.lor (Z.shiftl (Z.shiftr b 4) 4) (Z.shiftr (enc3Of b c) 2) = b
  /\ Z.lor (Z.shiftl (Z.land (enc3Of b c) 3) 6) (Z.land c 63) = c.
Proof.
  intros Hb Hc.
  assert (Hcheck : forallb (fun b => forallb (fun c =>
            (0 <=? enc3Of b c) && (enc3Of b c <? 64)
            && (0 <=? Z.land c 63) && (Z.land c 63 <? 64)
            && (Z.lor (Z.shiftl (Z.shiftr b 4) 4) (Z.shiftr (enc3Of b c) 2) =? b)
            && (Z.lor (Z.shiftl (Z.land (enc3Of b c) 3) 6) (Z.land c 63) =? c))
            (upTo 256)) (upTo 256) = true)
    by (vm_compute; reflexivity).
  pose proof (upTo_forall2 256 256 _ Hcheck b c Hb Hc) as H. cbv beta in H.
  repeat (apply andb_true_iff in H; destruct H as [H ?]).
  repeat match goal with
         | H : (_ <=? _) = true |- _ => apply Z.leb_le in H
         | H : (_ <? _) = true |- _ => apply Z.ltb_lt in H
         | H : (_ =? _) = true |- _ => apply Z.eqb_eq in H
         end.
  repeat split; assumption.
Qed.

Lemma codeOf_range (c : ascii) : 0 <= codeOf c < 256.
Proof. unfold codeOf. pose proof (nat_ascii_bounded c). lia. Qed.

Lemma byteOf_codeOf (c : ascii) : byteOf (codeOf c) = c.
Proof. unfold byteOf, codeOf. rewrite Nat2Z.id. apply ascii_nat_embedding. Qed.

Lemma string_ind3 (P : string -> Prop) :
  P "" ->
  (forall a, P (String a "")) ->
  (forall a b, P (String a (String b ""))) ->
  (forall a b c s, P s -> P (String a (String b (String c s)))) ->
  forall s, P s.
Proof.
  intros H0 H1 H2 H3.
  assert (H : forall s, P s /\ (forall a, P (String a s))
                        /\ (forall a b, P (String a (String b s)))).
  { induction s as [|c s (IH0 & IH1 & IH2)].
    - repeat split; auto.
    - split; [apply IH1 |]. split; [intros a; apply IH2 |].
      intros a b. apply H3. exact IH0. }
  intros s. apply H.
Qed.

Lemma encodeChunk_unfold_full (a b c : Z) :
  encodeChunk a (Some b) (Some c)
  = charAt (Z.shiftr a 2) ++ charAt (enc2Of a b) ++ charAt (enc3Of b c)
      ++ charAt (Z.land c 63).
Proof. reflexivity. Qed.

Lemma encodeChunk_unfold_two (a b : Z) :
  encodeChunk a (Some b) None
  = charAt (Z.shiftr a 2) ++ charAt (enc2Of a b) ++ charAt (enc3Of b 0) ++ "=".
Proof. reflexivity. Qed.

Lemma encodeChunk_unfold_one (a : Z) :
  encodeChunk a None None = charAt (Z.shiftr a 2) ++ charAt (enc2Of a 0) ++ "==".
Proof. reflexivity. Qed.

(** The four characters of a full turn and of the two padded ones. *)
Lemma encodeChunk_full (a b c : ascii) :
  exists c1 c2 c3 c4,
    encodeChunk (codeOf a) (Some (codeOf b)) (Some (codeOf c))
    = String c1 (String c2 (String c3 (String c4 "")))
    /\ decodeBase64 (String c1 (String c2 (String c3 (String c4 ""))))
       = Some (String a (String b (String c "")))
    /\ (forall rest tail,
           decodeBase64 rest = Some tail ->
           decodeBase64 (String c1 (String c2 (String c3 (String c4 rest))))
           = Some (String a (String b (String c tail)))).
Proof.
  pose proof (codeOf_range a) as Ha. pose proof (codeOf_range b) as Hb.
  pose proof (codeOf_range c) as Hc.
  destruct (sextets_first (codeOf a) (codeOf b) Ha Hb) as (R1 & R2 & Eq1 & Eq2).
  destruct (sextets_last (codeOf b) (codeOf c) Hb Hc) as (R3 & R4 & Eq3 & Eq4).
  destruct (charAt_sextet _ R1) as (c1 & E1 & S1 & P1).
  destruct (charAt_sextet _ R2) as (c2 & E2 & S2 & P2).
  destruct (charAt_sextet _ R3) as (c3 & E3 & S3 & P3).
  destruct (charAt_sextet _ R4) as (c4 & E4 & S4 & P4).
  exists c1, c2, c3, c4.
  assert (Hdec : forall rest tail,
             decodeBase64 rest = Some tail ->
             decodeBase64 (String c1 (String c2 (String c3 (String c4 rest))))
             = Some (String a (String b (String c tail)))).
  { intros rest tail Hrest. cbn [decodeBase64].
    rewrite S1, S2, P3, S3, P4, S4, Hrest.
    rewrite Eq1, Eq2, Eq3, Eq4, !byteOf_codeOf. reflexivity. }
  split.
  - rewrite encodeChunk_unfold_full, E1, E2, E3, E4. reflexivity.
  - split; [apply (Hdec "" ""); reflexivity | exact Hdec].
Qed.

Lemma encodeChunk_two (a b : ascii) :
  exists c1 c2 c3,
    encodeChunk (codeOf a) (Some (codeOf b)) None
    = String c1 (String c2 (String c3 "="))
    /\ decodeBase64 (String c1 (String c2 (String c3 "=")))
       = Some (String a (String b "")).
Proof.
  pose proof (codeOf_range a) as Ha. pose proof (codeOf_range b) as Hb.
  destruct (sextets_first (codeOf a) (codeOf b) Ha Hb) as (R1 & R2 & Eq1 & Eq2).
  destruct (sextets_last (codeOf b) 0 Hb ltac:(lia)) as (R3 & _ & Eq3 & _).
  destruct (charAt_sextet _ R1) as (c1 & E1 & S1 & P1).
  destruct (charAt_sextet _ R2) as (c2 & E2 & S2 & P2).
  destruct (charAt_sextet _ R3) as (c3 & E3 & S3 & P3).
  exists c1, c2, c3. split.
  - rewrite encodeChunk_unfold_two, E1, E2, E3. reflexivity.
  - cbn [decodeBase64]. rewrite S1, S2, P3, S3.
    rewrite Eq1, Eq2, Eq3, !byteOf_codeOf. reflexivity.
Qed.

Lemma encodeChunk_one (a : ascii) :
  exists c1 c2,
    encodeChunk (codeOf a) None None = String c1 (String c2 "==")
    /\ decodeBase64 (String c1 (String c2 "==")) = Some (String a "").
Proof.
  pose proof (codeOf_range a) as Ha.
  destruct (sextets_first (codeOf a) 0 Ha ltac:(lia)) as (R1 & R2 & Eq1 & _).
  destruct (charAt_sextet _ R1) as (c1 & E1 & S1 & P1).
  destruct (charAt_sextet _ R2) as (c2 & E2 & S2 & P2).
  exists c1, c2. split.
  - rewrite encodeChunk_unfold_one, E1, E2. reflexivity.
  - cbn [decodeBase64]. rewrite S1, S2. rewrite Eq1, byteOf_codeOf. reflexivity.
Qed.

Lemma encodeLoop_decodes (s : string) : decodeBase64 (encodeLoop s) = Some s.
Proof.
  induction s as [| a | a b | a b c s IH] using string_ind3.
  - reflexivity.
  - cbn [encodeLoop]. destruct (encodeChunk_one a) as (c1 & c2 & -> & H). exact H.
  - cbn [encodeLoop]. destruct (encodeChunk_two a b) as (c1 & c2 & c3 & -> & H). exact H.
  - cbn [encodeLoop]. destruct (encodeChunk_full a b c) as (c1 & c2 & c3 & c4 & -> & _ & H).
    cbn [append]. apply H. exact IH.
Qed.

Lemma encodeLoop_length (s : string) :
  String.length (encodeLoop s) = (4 * ((String.length s + 2) / 3))%nat.
Proof.
  induction s as [| a | a b | a b c s IH] using string_ind3.
  - reflexivity.
  - cbn [encodeLoop]. destruct (encodeChunk_one a) as (c1 & c2 & -> & _). reflexivity.
  - cbn [encodeLoop]. destruct (encodeChunk_two a b) as (c1 & c2 & c3 & -> & _). reflexivity.
  - cbn [encodeLoop]. destruct (encodeChunk_full a b c) as (c1 & c2 & c3 & c4 & -> & _ & _).
    assert (Hlen : forall t, String.length (String c1 (String c2 (String c3 (String c4 ""))) ++ t)
                             = S (S (S (S (String.length t))))) by reflexivity.
    rewrite Hlen, IH.
    change (String.length (String a (String b (String c s))))
      with (S (S (S (String.length s)))).
    replace (S (S (S (String.length s))) + 2)%nat with (1 * 3 + (String.length s + 2))%nat by lia.
    rewrite Nat.div_add_l by lia. lia.
Qed.

(** X1. On a platform without [btoa], [stringToBase64] writes standard
    base64: reading its output back gives the bytes it was given, so two
    different texts never get the same encoding. *)
Theorem stringToBase64_round_trip :
  (forall str, decodeBase64 (stringToBase64 None str) = Some str)
  /\ (forall str1 str2,
         stringToBase64 None str1 = stringToBase64 None str2 -> str1 = str2).
Proof.
  split.
  - intros str. apply encodeLoop_decodes.
  - intros str1 str2 H.
    pose proof (encodeLoop_decodes str1) as H1.
    pose proof (encodeLoop_decodes str2) as H2.
    unfold stringToBase64 in H. rewrite H in H1. congruence.
Qed.

Lemma stringToBase64_round_trip_witness :
  "kode,harga" = "kode,harga".
Proof.
  apply (proj2 stringToBase64_round_trip "kode,harga" "kode,harga"). reflexivity.
Defined.

(** X2. On a platform without [btoa], the output of [stringToBase64] has
    four characters for every three bytes of input, the last group padded:
    its length is 4 * ceil(n / 3), and it is empty only for the empty
    text. *)
Theorem stringToBase64_length :
  forall str,
    String.length (stringToBase64 None str) = (4 * ((String.length str + 2) / 3))%nat
    /\ (stringToBase64 None str = "" <-> str = "").
Proof.
  intros str. split; [apply encodeLoop_length |]. split.
  - intros H. pose proof (encodeLoop_decodes str) as Hd.
    unfold stringToBase64 in H. rewrite H in Hd. simpl in Hd. congruence.
  - intros ->. reflexivity.
Qed.

(** ** Extensions *)

Lemma lowerChar_dot (c : ascii) : Ascii.eqb (lowerChar c) "." = Ascii.eqb c ".".
Proof. destruct c as [[] [] [] [] [] [] [] []]; reflexivity. Qed.

Lemma append_cons (c : ascii) (s t : string) : String c s ++ t = String c (s ++ t).
Proof. reflexivity. Qed.

Lemma append_nil_l (t : string) : "" ++ t = t.
Proof. reflexivity. Qed.

Lemma append_nil_r (s : string) : s ++ "" = s.
Proof. induction s as [|c s IH]; [reflexivity | rewrite append_cons, IH; reflexivity]. Qed.

Lemma toLowerCase_app (s1 s2 : string) :
  toLowerCase (s1 ++ s2) = toLowerCase s1 ++ toLowerCase s2.
Proof.
  induction s1 as [|c s1 IH]; [reflexivity |].
  rewrite append_cons. simpl. rewrite append_cons, IH. reflexivity.
Qed.

Lemma dotFree_toLowerCase (s : string) : dotFree (toLowerCase s) = dotFree s.
Proof.
  induction s as [|c s IH]; simpl; [reflexivity |].
  rewrite lowerChar_dot, IH. reflexivity.
Qed.

Lemma append_assoc (s1 s2 s3 : string) : (s1 ++ s2) ++ s3 = s1 ++ (s2 ++ s3).
Proof.
  induction s1 as [|c s1 IH]; [reflexivity |].
  rewrite !append_cons, IH. reflexivity.
Qed.

Lemma lastSegment_dotFree (current s : string) :
  dotFree s = true -> lastSegment current s = current ++ s.
Proof.
  revert current. induction s as [|c s IH]; intros current H; simpl in *.
  - rewrite append_nil_r. reflexivity.
  - apply andb_true_iff in H. destruct H as [Hc Hs].
    apply negb_true_iff in Hc. rewrite Hc. rewrite (IH _ Hs), append_assoc. reflexivity.
Qed.

Lemma lastSegment_after_dot (current s1 s2 : string) :
  lastSegment current (s1 ++ String "." s2) = lastSegment "" s2.
Proof.
  revert current. induction s1 as [|c s1 IH]; intros current.
  - reflexivity.
  - rewrite append_cons. simpl. destruct (Ascii.eqb c "."); apply IH.
Qed.

Lemma extensionOf_after_dot (base ext : string) :
  dotFree ext = true -> extensionOf (base ++ "." ++ ext) = toLowerCase ext.
Proof.
  intros H. unfold extensionOf. rewrite !toLowerCase_app.
  change (toLowerCase ".") with ".". rewrite append_cons, append_nil_l.
  rewrite lastSegment_after_dot.
  rewrite lastSegment_dotFree by (rewrite dotFree_toLowerCase; exact H). reflexivity.
Qed.

Lemma extensionOf_no_dot (name : string) :
  dotFree name = true -> extensionOf name = toLowerCase name.
Proof.
  intros H. unfold extensionOf.
  rewrite lastSegment_dotFree by (rewrite dotFree_toLowerCase; exact H). reflexivity.
Qed.

Lemma toLowerCase_idempotent (s : string) : toLowerCase (toLowerCase s) = toLowerCase s.
Proof.
  induction s as [|c s IH]; simpl; [reflexivity |]. rewrite IH. f_equal.
  destruct c as [[] [] [] [] [] [] [] []]; reflexivity.
Qed.

(** X3. The category and the MIME type of a file are decided by what
    follows the last dot of its name, compared without regard to the case
    of ASCII letters; a name without a dot counts as its own extension (a
    file named "PDF" is a pdf). *)
Theorem extension_decides :
  (forall base ext,
      dotFree ext = true ->
      extensionOf (base ++ "." ++ ext) = toLowerCase ext
      /\ getFileType (base ++ "." ++ ext) = getFileType ext
      /\ getMimeType (base ++ "." ++ ext) = getMimeType ext)
  /\ (forall name,
         dotFree name = true ->
         extensionOf name = toLowerCase name
         /\ getFileType (toLowerCase name) = getFileType name).
Proof.
  split.
  - intros base ext H.
    assert (He : extensionOf (base ++ "." ++ ext) = extensionOf ext).
    { rewrite (extensionOf_after_dot base ext H), (extensionOf_no_dot ext H). reflexivity. }
    split; [apply (extensionOf_after_dot base ext H) |].
    unfold getFileType, getMimeType. rewrite He. split; reflexivity.
  - intros name H. split; [apply (extensionOf_no_dot name H) |].
    unfold getFileType.
    rewrite (extensionOf_no_dot name H).
    rewrite (extensionOf_no_dot (toLowerCase name))
      by (rewrite dotFree_toLowerCase; exact H).
    rewrite toLowerCase_idempotent. reflexivity.
Qed.

Lemma extension_decides_witness :
  getFileType ("Laporan.Q3" ++ "." ++ "PDF") = pdf
  /\ getMimeType ("Laporan.Q3" ++ "." ++ "PDF") = "application/pdf"
  /\ extensionOf "PDF" = "pdf".
Proof.
  destruct extension_decides as [Hdot Hplain].
  destruct (Hdot "Laporan.Q3" "PDF" eq_refl) as (_ & Ht & Hm).
  destruct (Hplain "PDF" eq_refl) as (He & _).
  rewrite Ht, Hm, He. repeat split.
Defined.

(** X4. [getFileType] and [getMimeType] agree on every name: pdf goes with
    application/pdf, excel with one of the two spreadsheet types, csv with
    text/csv; the category txt is also what a name with an unknown
    extension gets, and then the MIME type is application/octet-stream. *)
Theorem type_and_mime_agree (fileName : string) :
  match getFileType fileName with
  | pdf => getMimeType fileName = "application/pdf"
  | excel =>
      getMimeType fileName = "application/vnd.ms-excel"
      \/ getMimeType fileName
         = "application/vnd.openxmlformats-officedocument.spreadsheetml.sheet"
  | csv => getMimeType fileName = "text/csv"
  | txt =>
      (extensionOf fileName = "txt" /\ getMimeType fileName = "text/plain")
      \/ (extensionOf fileName <> "txt"
          /\ getMimeType fileName = "application/octet-stream")
  end.
Proof.
  unfold getFileType, getMimeType. generalize (extensionOf fileName). intros ext.
  destruct (String.eqb_spec ext "pdf") as [->|Hpdf]; [reflexivity |].
  destruct (String.eqb_spec ext "xls") as [->|Hxls]; [left; reflexivity |].
  destruct (String.eqb_spec ext "xlsx") as [->|Hxlsx]; [right; reflexivity |].
  destruct (String.eqb_spec ext "csv") as [->|Hcsv]; [reflexivity |].
  simpl. destruct (String.eqb_spec ext "txt") as [->|Htxt].
  - left. split; reflexivity.
  - right. split; [exact Htxt | reflexivity].
Qed.

End FileCodecProofs.

(* ===================================================================== *)
(** * Properties of the chat screen handlers *)
(* ===================================================================== *)

Module ChatScreenProofs.
Import FileService FileCodec ChatScreen GeminiService.
Import Notions Examples MoreNotions MoreExamples EffectFacts.

(** ** Picking and staging a file *)

Lemma pickFile_picked p asset content :
  picked p asset -> contentRead p asset = Normal content ->
  pickFile p = Some (attachmentOf p asset content).
Proof.
  intros (others & Hp) Hc. unfold pickFile, pickFileBody. rewrite Hp. simpl.
  unfold contentRead in Hc.
  destruct (getFileType (a_name asset)) eqn:Et; simpl;
    try (rewrite Hc; unfold attachmentOf; rewrite Et; reflexivity);
    destruct (readFileAsText p (a_uri asset)) as [t|e]; try discriminate;
    injection Hc as <-; unfold attachmentOf; rewrite Et; reflexivity.
Qed.

Lemma pickFile_read_fails p asset e :
  picked p asset -> contentRead p asset = Throw e -> pickFile p = None.
Proof.
  intros (others & Hp) Hc. unfold pickFile, pickFileBody. rewrite Hp. simpl.
  unfold contentRead in Hc.
  destruct (getFileType (a_name asset)); simpl;
    try (rewrite Hc; reflexivity);
    destruct (readFileAsText p (a_uri asset)) as [t|e']; try discriminate; reflexivity.
Qed.

Lemma pickFile_nothing p : nothingPicked p -> pickFile p = None.
Proof.
  unfold nothingPicked, pickFile, pickFileBody.
  destruct (getDocumentAsync p) as [result|e]; [| reflexivity].
  intros [H | [H | H]]; rewrite H; try reflexivity;
    destruct (canceled result); reflexivity.
Qed.

Lemma maxSize_by_name (fileName : string) :
  maxSize (Some (getFileType fileName)) = sizeLimitFor fileName.
Proof.
  unfold sizeLimitFor, getFileType. generalize (extensionOf fileName). intros ext.
  destruct (String.eqb ext "pdf"); [reflexivity |].
  destruct (String.eqb ext "xls" || String.eqb ext "xlsx"); [reflexivity |].
  destruct (String.eqb ext "csv"); reflexivity.
Qed.

Lemma contentMissing_eqb (content : string) :
  contentMissing (Some content) = String.eqb content "".
Proof. destruct content; reflexivity. Qed.

Lemma validateFile_attachmentOf p asset content :
  valid (validateFile (attachmentOf p asset content))
  = negb (String.eqb content "")
    && (default 0 (a_size asset) <=? sizeLimitFor (a_name asset)).
Proof.
  unfold validateFile, attachmentOf. cbn [fa_size fa_type fa_content].
  rewrite maxSize_by_name, contentMissing_eqb. unfold sizeExceeds.
  rewrite Z.leb_antisym.
  destruct (sizeLimitFor (a_name asset) <? default 0 (a_size asset));
    destruct (String.eqb content ""); reflexivity.
Qed.

(** X5. What [handleAttachFile] stages.  When the picker returns a file
    and its content is read, the file is staged exactly when fewer than
    three files are staged already, the content is not empty, and the size
    the picker reports (0 when it reports none) is at most the limit for
    the file's name: 10 MB when its extension is pdf, 5 MB otherwise.  When
    the picker is canceled, fails or returns no file, or the read fails,
    nothing changes. *)
Theorem handleAttachFile_decides p ui :
  (forall asset content,
      picked p asset -> contentRead p asset = Normal content ->
      handleAttachFile p ui
      = if (List.length (attachments ui) <? 3)%nat
           && negb (String.eqb content "")
           && (default 0 (a_size asset) <=? sizeLimitFor (a_name asset))
        then {| messages := messages ui;
                attachments := (attachments ui ++ [attachmentOf p asset content])%list |}
        else ui)
  /\ (forall asset e,
         picked p asset -> contentRead p asset = Throw e -> handleAttachFile p ui = ui)
  /\ (nothingPicked p -> handleAttachFile p ui = ui).
Proof.
  split; [| split].
  - intros asset content Hp Hc. unfold handleAttachFile.
    rewrite (pickFile_picked p asset content Hp Hc), validateFile_attachmentOf.
    rewrite Nat.ltb_antisym.
    destruct (3 <=? List.length (attachments ui))%nat; [reflexivity |]. simpl.
    destruct (negb (String.eqb content "")
              && (default 0 (a_size asset) <=? sizeLimitFor (a_name asset))); reflexivity.
  - intros asset e Hp Hc. unfold handleAttachFile.
    rewrite (pickFile_read_fails p asset e Hp Hc).
    destruct (3 <=? _)%nat; reflexivity.
  - intros Hn. unfold handleAttachFile. rewrite (pickFile_nothing p Hn).
    destruct (3 <=? _)%nat; reflexivity.
Qed.

Lemma handleAttachFile_decides_witness :
  attachments (handleAttachFile (pickOne csvAsset "kode,harga" "") emptyUi)
  = [ {| fa_id := Some "file_1700000000000";
         fa_name := Some "Harga.Saham.CSV";
         fa_type := Some csv;
         fa_size := Some 14;
         fa_uri := Some "file:///cache/Harga.Saham.CSV";
         fa_content := Some "a29kZSxoYXJnYQ==";
         fa_mimeType := Some "text/csv" |} ].
Proof.
  rewrite (proj1 (handleAttachFile_decides (pickOne csvAsset "kode,harga" "") emptyUi)
             csvAsset "a29kZSxoYXJnYQ==").
  - reflexivity.
  - exists []. reflexivity.
  - reflexivity.
Defined.

(** ** The staged files *)

Lemma stagedOk_filter (keep : FileAttachment -> bool) (files : list FileAttachment) :
  stagedOk files -> stagedOk (List.filter keep files).
Proof.
  intros [Hlen Hall]. split.
  - pose proof (List.filter_length_le keep files). lia.
  - apply List.Forall_forall. intros f Hin. apply List.filter_In in Hin.
    destruct Hin as [Hin _]. rewrite List.Forall_forall in Hall. apply Hall. exact Hin.
Qed.

(** X6. The staged files stay in order: if at most three files are staged
    and each passed [validateFile], the same holds after [handleAttachFile]
    and after [handleRemoveAttachment], whatever the picker returns and
    whichever id is removed; so a fourth file is never staged, and no file
    that is empty or over its size limit ever is. *)
Theorem staged_files_stay_valid p fileId ui :
  stagedOk (attachments ui) ->
  stagedOk (attachments (handleAttachFile p ui))
  /\ stagedOk (attachments (handleRemoveAttachment fileId ui)).
Proof.
  intros Hok. split.
  - unfold handleAttachFile.
    destruct (3 <=? List.length (attachments ui))%nat eqn:Efull; [exact Hok |].
    destruct (pickFile p) as [file|]; [| exact Hok].
    destruct (valid (validateFile file)) eqn:Ev; [| exact Hok].
    apply Nat.leb_gt in Efull. destruct Hok as [Hlen Hall]. split; simpl.
    + rewrite length_app. simpl. lia.
    + apply List.Forall_app. split; [exact Hall |]. constructor; [exact Ev | constructor].
  - apply stagedOk_filter. exact Hok.
Qed.

Lemma staged_files_stay_valid_witness :
  stagedOk (attachments (handleAttachFile (pickOne csvAsset "kode,harga" "") emptyUi))
  /\ stagedOk (attachments (handleRemoveAttachment "file_1" emptyUi)).
Proof.
  apply staged_files_stay_valid. split; [simpl; lia | constructor].
Defined.

End ChatScreenProofs.

(* ===================================================================== *)
(** * Further properties of a turn *)
(* ===================================================================== *)

Module TurnProofs.
Import FileService FileCodec GeminiService GeminiHistory ChatScreen.
Import Notions Examples MoreNotions MoreExamples EffectFacts.

Lemma bind_Throw_inv {S A B} (m : ST S A) (k : A -> ST S B) w e w' :
  bind m k w = (Throw e, w') ->
  m w = (Throw e, w') \/ exists a w1, m w = (Normal a, w1) /\ k a w1 = (Throw e, w').
Proof.
  unfold bind. destruct (m w) as [[a|e0] w1]; intros H.
  - right. exists a, w1. split; [reflexivity | exact H].
  - left. injection H as -> ->. reflexivity.
Qed.

(** ** Code that does not read the transcript mirror *)

Lemma sameButHistory_refl w : sameButHistory w w.
Proof. repeat split. Qed.

Lemma ignores_pure {A} (c : Completion A) : ignoresHistory (fun w => (c, w)).
Proof. intros w1 w2 H. split; [reflexivity | exact H]. Qed.

Lemma ignores_ret {A} (a : A) : ignoresHistory (ret a).
Proof. apply ignores_pure. Qed.

Lemma ignores_throw {A} (e : JsError) : ignoresHistory (@throw World A e).
Proof. apply ignores_pure. Qed.

Lemma ignores_liftC {A} (c : Completion A) : ignoresHistory (liftC c).
Proof. apply ignores_pure. Qed.

Lemma ignores_getProp (v : JsVal) (k : string) : ignoresHistory (getProp v k).
Proof. destruct v; apply ignores_pure. Qed.

Lemma ignores_Date_now : ignoresHistory Date_now.
Proof.
  intros w1 w2 H. split; [| exact H]. unfold Date_now. simpl.
  destruct H as (_ & _ & ->). reflexivity.
Qed.

Lemma ignores_doFetch env url : ignoresHistory (doFetch env url).
Proof.
  intros w1 w2 (Hf & Ha & Hc). unfold doFetch. simpl. rewrite Hf.
  repeat split; assumption.
Qed.

Lemma ignores_call env params : ignoresHistory (callGenerateContent env params).
Proof.
  intros w1 w2 (Hf & Ha & Hc). unfold callGenerateContent. simpl. rewrite Ha.
  repeat split; assumption.
Qed.

Lemma ignores_pushHistory items : ignoresHistory (pushHistory items).
Proof. intros w1 w2 H. split; [reflexivity | exact H]. Qed.

Lemma ignores_bind {A B} (m : M A) (k : A -> M B) :
  ignoresHistory m -> (forall a, ignoresHistory (k a)) -> ignoresHistory (bind m k).
Proof.
  intros Hm Hk w1 w2 H. unfold bind. destruct (Hm w1 w2 H) as [Hr Hw].
  destruct (m w1) as [[a1|e1] v1], (m w2) as [[a2|e2] v2]; simpl in *;
    try discriminate.
  - injection Hr as <-. apply Hk. exact Hw.
  - injection Hr as <-. split; [reflexivity | exact Hw].
Qed.

Lemma ignores_try_catch {A} (body : M A) (handler : JsError -> M A) :
  ignoresHistory body -> (forall e, ignoresHistory (handler e)) ->
  ignoresHistory (try_catch body handler).
Proof.
  intros Hb Hh w1 w2 H. unfold try_catch. destruct (Hb w1 w2 H) as [Hr Hw].
  destruct (body w1) as [[a1|e1] v1], (body w2) as [[a2|e2] v2]; simpl in *;
    try discriminate.
  - split; assumption.
  - injection Hr as <-. apply Hh. exact Hw.
Qed.

Lemma ignores_forM {A B} (g : A -> M B) (xs : list A) :
  (forall x, ignoresHistory (g x)) -> ignoresHistory (forM g xs).
Proof.
  intros Hg. induction xs as [|x xs IH]; simpl.
  - apply ignores_ret.
  - apply ignores_bind; [apply Hg |]. intros y.
    apply ignores_bind; [exact IH |]. intros ys. apply ignores_ret.
Qed.

(** Breaks a goal [ignoresHistory m] down along the structure of [m]. *)
Ltac ignores_step :=
  first
    [ apply ignores_ret | apply ignores_throw | apply ignores_liftC
    | apply ignores_getProp | apply ignores_Date_now
    | apply ignores_doFetch | apply ignores_call | apply ignores_pushHistory
    | apply ignores_bind; [| intros ?]
    | apply ignores_try_catch; [| intros ?]
    | apply ignores_forM; intros ?
    | match goal with
      | |- ignoresHistory (if ?c then _ else _) => destruct c
      | |- ignoresHistory (match ?x with _ => _ end) => destruct x
      end ].

Ltac ignores_tac := repeat ignores_step.

Section WithEnv.
Variable env : Env.

Lemma ignores_fetchMacroNews query :
  ignoresHistory (ExternalDataService.fetchMacroNews env query).
Proof.
  unfold ExternalDataService.fetchMacroNews, ExternalDataService.fetchMacroNewsFromNewsAPI,
    ExternalDataService.mapArray, ExternalDataService.macroNewsItem, readJson.
  ignores_tac.
Qed.

Lemma ignores_executeTool call : ignoresHistory (executeTool env call).
Proof.
  unfold executeTool. apply ignores_bind; [| intros; apply ignores_ret].
  destruct (nameIs _ _).
  - apply ignores_bind; [apply ignores_getProp | intros; apply ignores_ret].
  - destruct (nameIs _ _); [| apply ignores_ret].
    apply ignores_bind; [apply ignores_getProp | intros; apply ignores_fetchMacroNews].
Qed.

Lemma ignores_extractSources chunks : ignoresHistory (extractSources env chunks).
Proof.
  induction chunks as [|chunk rest IH]; simpl; [apply ignores_ret |].
  destruct (web chunk) as [wr|]; [| exact IH].
  apply ignores_bind; [unfold sourceOf; ignores_tac |].
  intros s. apply ignores_bind; [exact IH |]. intros ss. apply ignores_ret.
Qed.

Lemma ignores_generateFinancialAdvice history msg atts :
  ignoresHistory (generateFinancialAdvice env history msg atts).
Proof.
  unfold generateFinancialAdvice, adviceBody.
  apply ignores_try_catch; [| intros; apply ignores_ret].
  destruct (String.eqb _ _); [apply ignores_throw |].
  apply ignores_bind; [apply ignores_call |]. intros first.
  apply ignores_bind.
  - unfold toolRound. destruct (firstParts first) as [ps|]; [| apply ignores_ret].
    destruct (functionCallsOf ps) as [|c cs]; [apply ignores_ret |].
    apply ignores_bind; [| intros; apply ignores_call].
    apply ignores_forM. intros call. apply ignores_executeTool.
  - intros response. unfold finishTurn.
    apply ignores_bind.
    + destruct (chunksOf response); [apply ignores_extractSources | apply ignores_ret].
    + intros srcs. apply ignores_bind; [apply ignores_pushHistory |].
      intros _. apply ignores_ret.
Qed.

(** ** What a turn adds to the transcript mirror *)

Lemma stable_call_history params :
  stable conversationHistory (callGenerateContent env params).
Proof. intros w. reflexivity. Qed.

Lemma stable_toolRound_history history msg atts response :
  stable conversationHistory (toolRound env history msg atts response).
Proof.
  unfold toolRound. destruct (firstParts response) as [ps|]; [| apply stable_ret].
  destruct (functionCallsOf ps) as [|c cs]; [apply stable_ret |].
  apply stable_bind; [| intros; apply stable_call_history].
  apply stable_forM. intros call. apply GeminiProofs.stable_executeTool_history.
Qed.

Lemma finishTurn_Normal msg atts response w advice w' :
  finishTurn env msg atts response w = (Normal advice, w') ->
  w' = recordTurn (turnOf msg atts (text advice)) w.
Proof.
  unfold finishTurn. intros H.
  apply bind_Normal_inv in H. destruct H as (srcs & w1 & Hs & H).
  assert (Hw1 : w1 = w).
  { destruct (chunksOf response) as [chunks|].
    - pose proof (GeminiProofs.stable_extractSources env fetchLog chunks w) as Hf.
      pose proof (GeminiProofs.stable_extractSources env aiLog chunks w) as Ha.
      pose proof (GeminiProofs.stable_extractSources env conversationHistory chunks w) as Hh.
      pose proof (GeminiProofs.stable_extractSources env clock chunks w) as Hc.
      rewrite Hs in Hf, Ha, Hh, Hc. simpl in *.
      destruct w1, w; simpl in *; congruence.
    - unfold ret in Hs. congruence. }
  subst w1. unfold bind, pushHistory, ret in H. injection H as <- <-. reflexivity.
Qed.

Lemma finishTurn_Throw msg atts response w e w' :
  finishTurn env msg atts response w = (Throw e, w') ->
  conversationHistory w' = conversationHistory w.
Proof.
  unfold finishTurn. intros H. apply bind_Throw_inv in H.
  destruct H as [H | (srcs & w1 & _ & H)].
  - destruct (chunksOf response) as [chunks|].
    + pose proof (GeminiProofs.stable_extractSources env conversationHistory chunks w) as Hst.
      rewrite H in Hst. exact Hst.
    + unfold ret in H. discriminate.
  - unfold bind, pushHistory, ret in H. discriminate.
Qed.

Lemma adviceBody_history_Normal history msg atts w advice w' :
  adviceBody env history msg atts w = (Normal advice, w') ->
  conversationHistory w'
  = (conversationHistory w ++ turnOf msg atts (text advice))%list.
Proof.
  unfold adviceBody. destruct (String.eqb (API_KEY env) ""); [discriminate |]. intros H.
  apply bind_Normal_inv in H. destruct H as (first & w1 & H1 & H).
  apply bind_Normal_inv in H. destruct H as (response & w2 & H2 & H).
  apply finishTurn_Normal in H. subst w'. simpl.
  pose proof (stable_call_history (firstRequest history msg atts) w) as S1.
  pose proof (stable_toolRound_history history msg atts first w1) as S2.
  rewrite H1 in S1. rewrite H2 in S2. simpl in *. rewrite S2, S1. reflexivity.
Qed.

Lemma adviceBody_history_Throw history msg atts w e w' :
  adviceBody env history msg atts w = (Throw e, w') ->
  conversationHistory w' = conversationHistory w.
Proof.
  unfold adviceBody. destruct (String.eqb (API_KEY env) "").
  - unfold throw. intros [= _ <-]. reflexivity.
  - intros H.
    pose proof (stable_call_history (firstRequest history msg atts) w) as S1.
    apply bind_Throw_inv in H. destruct H as [H | (first & w1 & H1 & H)].
    + rewrite H in S1. exact S1.
    + rewrite H1 in S1. simpl in S1.
      pose proof (stable_toolRound_history history msg atts first w1) as S2.
      apply bind_Throw_inv in H. destruct H as [H | (response & w2 & H2 & H)].
      * rewrite H in S2. simpl in S2. congruence.
      * rewrite H2 in S2. simpl in S2. apply finishTurn_Throw in H. congruence.
Qed.

(** ** A turn in which no tool is requested *)

Lemma turn_without_tools history msg atts w first :
  API_KEY env <> "" ->
  generateContent env (List.length (aiLog w)) (firstRequest history msg atts) = Normal first ->
  noToolRequested first ->
  generateFinancialAdvice env history msg atts w
  = try_catch (finishTurn env msg atts first) onError
      (logCall (firstRequest history msg atts) w).
Proof.
  intros Hk Hfirst Hno.
  apply (GeminiProofs.turn_direct env history msg atts w first Hk Hfirst Hno).
Qed.

(** X7. A turn in which the backend asks for no tool.  With a key
    configured, when the first reply carries no function call, the backend
    is called exactly once, no HTTP request is made, and, when the reply
    cites nothing, the answer is the reply's text, or the standard
    no-response sentence when the reply has no text or an empty one, with no
    source; the transcript mirror receives the user turn and that text. *)
Theorem plain_answer_turn history msg atts w first :
  API_KEY env <> "" ->
  generateContent env (List.length (aiLog w)) (firstRequest history msg atts) = Normal first ->
  noToolRequested first ->
  aiLog (snd (generateFinancialAdvice env history msg atts w))
  = (aiLog w ++ [firstRequest history msg atts])%list
  /\ fetchLog (snd (generateFinancialAdvice env history msg atts w)) = fetchLog w
  /\ (chunksOf first = None ->
      generateFinancialAdvice env history msg atts w
      = (Normal {| text := strOr (resp_text first) MSG_NO_RESPONSE; sources := [] |},
         recordTurn (turnOf msg atts (strOr (resp_text first) MSG_NO_RESPONSE))
           (logCall (firstRequest history msg atts) w))).
Proof.
  intros Hk Hfirst Hno.
  rewrite (turn_without_tools history msg atts w first Hk Hfirst Hno).
  split; [| split].
  - rewrite (stable_try_catch aiLog _ _ (GeminiProofs.stable_finishTurn_aiLog env msg atts first)
               (GeminiProofs.stable_onError aiLog)).
    reflexivity.
  - rewrite (stable_try_catch fetchLog _ _
               (GeminiProofs.stable_finishTurn_fetchLog env msg atts first)
               (GeminiProofs.stable_onError fetchLog)).
    reflexivity.
  - intros Hc. unfold try_catch, finishTurn. rewrite Hc. reflexivity.
Qed.

(** X8. The transcript mirror is write-only.  [generateFinancialAdvice]
    never reads [conversationHistory]: from two worlds that differ in the
    mirror only, it gives the same answer and the same requests.  A turn
    whose [try] block completes appends exactly two entries to it, the
    user turn (text and attachments) and the model turn (the answer's
    text); a turn that ends in the [catch] block appends nothing.
    [clearHistory] and [initializeConversation] empty it and change
    nothing else. *)
Theorem transcript_mirror_write_only history msg atts :
  ignoresHistory (generateFinancialAdvice env history msg atts)
  /\ (forall w advice w1,
         adviceBody env history msg atts w = (Normal advice, w1) ->
         generateFinancialAdvice env history msg atts w = (Normal advice, w1)
         /\ conversationHistory w1
            = (conversationHistory w ++ turnOf msg atts (text advice))%list)
  /\ (forall w e w1,
         adviceBody env history msg atts w = (Throw e, w1) ->
         conversationHistory (snd (generateFinancialAdvice env history msg atts w))
         = conversationHistory w)
  /\ (forall w,
         conversationHistory (snd (clearHistory w)) = []
         /\ sameButHistory (snd (clearHistory w)) w
         /\ initializeConversation w = clearHistory w).
Proof.
  split; [apply ignores_generateFinancialAdvice |]. split; [| split].
  - intros w advice w1 H. split.
    + unfold generateFinancialAdvice, try_catch. rewrite H. reflexivity.
    + apply (adviceBody_history_Normal history msg atts w advice w1 H).
  - intros w e w1 H. unfold generateFinancialAdvice, try_catch. rewrite H. simpl.
    apply (adviceBody_history_Throw history msg atts w e w1 H).
  - intros w. repeat split.
Qed.

(** ** The HTTP requests of a turn *)











(** X10. The legacy entry point is single-shot.  [sendMessage] always
    resolves, to a text that is not empty, and it sends no earlier
    message: with a key configured, the request it logs first has exactly
    one content, the user turn made of the text and the attachments,
    whatever the transcript mirror holds. *)
Theorem sendMessage_single_shot userMessage atts w :
  (exists reply w',
      sendMessage env userMessage atts w = (Normal reply, w') /\ reply <> "")
  /\ (API_KEY env <> "" ->
      exists request,
        aiLog (snd (sendMessage env userMessage atts w)) !! List.length (aiLog w)
        = Some request
        /\ contents request
           = [ {| role := user; parts := currentParts userMessage atts |} ]).
Proof.
  split.
  - destruct (GeminiProofs.generateFinancialAdvice_completes env [] userMessage atts w)
      as (advice & w' & Hrun & Htext & _).
    exists (text advice), w'. split; [| exact Htext].
    unfold sendMessage, bind. rewrite Hrun. reflexivity.
  - intros Hk. exists (firstRequest [] userMessage atts). split; [| reflexivity].
    destruct (GeminiProofs.generateFinancialAdvice_completes env [] userMessage atts w)
      as (advice & w' & Hrun & _).
    destruct (GeminiProofs.first_request_logged env [] userMessage atts w Hk) as (later & Hlog).
    unfold sendMessage, bind. rewrite Hrun in *. simpl in *. rewrite Hlog.
    apply list_lookup_middle. reflexivity.
Qed.

(** ** Sending from the chat screen *)

Variable trim : string -> string.


(** X27. A staged file reaches the backend as inline data.  With a key
    configured, a send that is not blank logs, as the first backend request
    of the turn, a request whose contents are the earlier messages other
    than the welcome message, then one user turn whose parts are the text
    followed by one inline-data part per staged file, in order, carrying
    the file's MIME type and its base64 content. *)
Theorem send_carries_attachments text ui w :
  API_KEY env <> "" ->
  trim text <> "" \/ attachments ui <> [] ->
  exists request,
    aiLog (snd (handleSendMessage env trim text ui w)) !! List.length (aiLog w) = Some request
    /\ contents request
       = (pastContent (List.filter notWelcome (messages ui))
          ++ [ {| role := user;
                  parts := PText (Some text)
                             :: List.map (fun f => PInlineData (fa_mimeType f) (fa_content f))
                                  (attachments ui) |} ])%list.
Proof.
  intros Hk Hsome.
  exists (firstRequest (List.filter notWelcome (messages ui)) text
            (List.map convertToGeminiAttachment (attachments ui))).
  split.
  - destruct (GeminiProofs.generateFinancialAdvice_completes env
                (List.filter notWelcome (messages ui)) text
                (List.map convertToGeminiAttachment (attachments ui)) w)
      as (advice & w' & Hrun & _).
    destruct (GeminiProofs.first_request_logged env
                (List.filter notWelcome (messages ui)) text
                (List.map convertToGeminiAttachment (attachments ui)) w Hk) as (later & Hlog).
    rewrite Hrun in Hlog. simpl in Hlog.
    assert (Hguard : String.eqb (trim text) "" && (List.length (attachments ui) =? 0)%nat = false).
    { destruct Hsome as [Ht | Ha].
      - destruct (String.eqb_spec (trim text) ""); [contradiction | reflexivity].
      - destruct (attachments ui); [contradiction |]. apply andb_false_r. }
    unfold handleSendMessage. rewrite Hguard.
    unfold bind, Date_now, try_catch. rewrite Hrun. simpl. rewrite Hlog.
    apply list_lookup_middle. reflexivity.
  - unfold firstRequest, currentParts. simpl. rewrite List.map_map. reflexivity.
Qed.

End WithEnv.

Lemma plain_answer_turn_witness :
  generateFinancialAdvice (answeringEnv plainReply) sampleHistory "Bagaimana IHSG?" [] freshWorld
  = (Normal {| text := "IHSG menguat."; sources := [] |},
     recordTurn (turnOf "Bagaimana IHSG?" [] "IHSG menguat.")
       (logCall (firstRequest sampleHistory "Bagaimana IHSG?" []) freshWorld)).
Proof.
  apply (proj2 (proj2 (plain_answer_turn (answeringEnv plainReply) sampleHistory
                         "Bagaimana IHSG?" [] freshWorld plainReply
                         ltac:(discriminate) eq_refl
                         ltac:(right; exists [PText (Some "IHSG menguat.")]; split; reflexivity)))).
  reflexivity.
Defined.

Lemma transcript_mirror_write_only_witness :
  conversationHistory
    (snd (generateFinancialAdvice (offlineEnv None None None) [] "Halo" [] freshWorld))
  = conversationHistory freshWorld.
Proof.
  apply (proj1 (proj2 (proj2 (transcript_mirror_write_only (offlineEnv None None None)
                                [] "Halo" [])))
           freshWorld MISSING_KEY_ERROR freshWorld).
  reflexivity.
Defined.


Lemma sendMessage_single_shot_witness :
  exists request,
    aiLog (snd (sendMessage (answeringEnv plainReply) "Halo" [] freshWorld))
      !! List.length (aiLog freshWorld) = Some request
    /\ contents request = [ {| role := user; parts := currentParts "Halo" [] |} ].
Proof.
  apply (proj2 (sendMessage_single_shot (answeringEnv plainReply) "Halo" [] freshWorld)).
  discriminate.
Defined.


Lemma send_carries_attachments_witness :
  exists request,
    aiLog (snd (handleSendMessage (answeringEnv plainReply) (fun s => s) "Analisis laporan ini"
                  {| messages := [welcomeMessage]; attachments := [reportAttachment] |}
                  freshWorld))
      !! List.length (aiLog freshWorld) = Some request
    /\ contents request
       = (pastContent (List.filter notWelcome [welcomeMessage])
          ++ [ {| role := user;
                  parts := PText (Some "Analisis laporan ini")
                             :: List.map (fun f => PInlineData (fa_mimeType f) (fa_content f))
                                  [reportAttachment] |} ])%list.
Proof.
  apply (send_carries_attachments (answeringEnv plainReply) (fun s => s) "Analisis laporan ini"
           {| messages := [welcomeMessage]; attachments := [reportAttachment] |} freshWorld).
  - discriminate.
  - left. discriminate.
Defined.

End TurnProofs.

(* ===================================================================== *)
(** * Further properties of the external data clients *)
(* ===================================================================== *)

Module LookupProofs.
Import ExternalDataService.
Import Notions Examples MoreNotions MoreExamples EffectFacts.

(** ** What a computation returns *)

Lemma returns_ret {A} (a : A) (P : A -> Prop) : P a -> returns (ret a) P.
Proof. intros H w a' w' [= <- _]. exact H. Qed.

Lemma returns_throw {A} (e : JsError) (P : A -> Prop) : returns (throw e) P.
Proof. intros w a w' [=]. Qed.

Lemma returns_bind {A B} (m : M A) (k : A -> M B) (P : B -> Prop) :
  (forall a, returns (k a) P) -> returns (bind m k) P.
Proof.
  intros Hk w b w' H. apply bind_Normal_inv in H.
  destruct H as (a & w1 & _ & H). apply (Hk a w1 b w' H).
Qed.

Lemma returns_bind_with {A B} (m : M A) (k : A -> M B) (Q : A -> Prop) (P : B -> Prop) :
  returns m Q -> (forall a, Q a -> returns (k a) P) -> returns (bind m k) P.
Proof.
  intros Hm Hk w b w' H. apply bind_Normal_inv in H.
  destruct H as (a & w1 & Ha & H). apply (Hk a (Hm w a w1 Ha) w1 b w' H).
Qed.

Lemma returns_try_catch {A} (body : M A) (handler : JsError -> M A) (P : A -> Prop) :
  returns body P -> (forall e, returns (handler e) P) -> returns (try_catch body handler) P.
Proof.
  intros Hb Hh w a w' H. unfold try_catch in H.
  destruct (body w) as [[a0|e] w1] eqn:E.
  - injection H as <- <-. apply (Hb w a0 w1 E).
  - apply (Hh e w1 a w' H).
Qed.

Lemma returns_forM {A B} (g : A -> M B) (xs : list A) (P : B -> Prop) :
  (forall x, returns (g x) P) ->
  returns (forM g xs) (fun ys => Forall P ys /\ List.length ys = List.length xs).
Proof.
  intros Hg. induction xs as [|x xs IH]; simpl.
  - apply returns_ret. split; [constructor | reflexivity].
  - apply (returns_bind_with _ _ P); [apply Hg |]. intros y Hy.
    apply (returns_bind_with _ _ _ _ IH). intros ys [Hys Hlen].
    apply returns_ret. split; [constructor; assumption | simpl; congruence].
Qed.

Lemma always_intro {A} (m : M A) (P : A -> Prop) :
  total m -> returns m P -> always m P.
Proof.
  intros Ht Hr w. destruct (total_run m w Ht) as (a & w' & E).
  exists a. rewrite E. split; [reflexivity | apply (Hr w a w' E)].
Qed.

Lemma requestsExactly_stable {A} (m : M A) : stable fetchLog m -> requestsExactly 0 m.
Proof. intros H w. exists []. rewrite app_nil_r. split; [apply H | reflexivity]. Qed.

(** ** Values *)

Lemma truthy_isDefined (v : JsVal) : truthy v = true -> isDefined v = true.
Proof. destruct v; simpl; congruence. Qed.

Lemma isDefined_jsOr (a d : JsVal) : isDefined d = true -> isDefined (jsOr a d) = true.
Proof.
  intros Hd. unfold jsOr. destruct (truthy a) eqn:E; [apply truthy_isDefined; exact E | exact Hd].
Qed.

Lemma isDefined_propOr (v : JsVal) (keys : list string) (d : JsVal) :
  isDefined d = true -> isDefined (propOr v keys d) = true.
Proof.
  intros Hd. induction keys as [|k keys IH]; simpl; [exact Hd |].
  apply isDefined_jsOr. exact IH.
Qed.

Lemma slice0_length (n : Z) (l : list JsVal) :
  0 <= n -> (List.length (slice0 n l) <= Z.to_nat n)%nat.
Proof.
  intros Hn. unfold slice0. destruct (Z.leb_spec 0 n); [| lia].
  rewrite length_take. lia.
Qed.

Lemma symbolFor_intro (ticker : string) (item : JsVal) (rest : list (string * JsVal)) :
  symbolFor ticker (JObj (("symbol", propOr item ["symbol"] (JStr ticker)) :: rest)).
Proof.
  unfold symbolFor. change (prop (JObj (("symbol", propOr item ["symbol"] (JStr ticker)) :: rest)) "symbol")
    with (jsOr (prop item "symbol") (JStr ticker)).
  unfold jsOr. destruct (truthy (prop item "symbol")) eqn:E; [left; exact E | right; reflexivity].
Qed.

Section WithEnv.
Variable env : Env.

(** ** The two shapes of lookup *)

Lemma total_fetchOne url shape : total (fetchOne env url shape).
Proof. unfold fetchOne. apply total_try_catch. intros e. apply total_ret. Qed.

Lemma total_fetchMany url shape : total (fetchMany env url shape).
Proof. unfold fetchMany. apply total_try_catch. intros e. apply total_ret. Qed.

Lemma returns_fetchOne url shape (Q : JsVal -> Prop) :
  (forall item, truthy item = true -> returns (shape item) Q) ->
  returns (fetchOne env url shape) (fun v => v = JNull \/ Q v).
Proof.
  intros Hs. unfold fetchOne.
  apply returns_try_catch; [| intros e; apply returns_ret; left; reflexivity].
  destruct (negb (checkApiKey env)); [apply returns_ret; left; reflexivity |].
  apply returns_bind. intros response.
  destruct (negb (ok response)); [apply returns_ret; left; reflexivity |].
  apply returns_bind. intros data.
  destruct (truthy (if isArray data then first data else data)) eqn:Et; simpl.
  - intros w a w' H. right. apply (Hs _ Et w a w' H).
  - apply returns_ret. left. reflexivity.
Qed.

Lemma returns_fetchMany url shape (Q : JsVal -> Prop) :
  Q (JArr []) ->
  (forall items, returns (shape items) Q) ->
  returns (fetchMany env url shape) Q.
Proof.
  intros Hnil Hs. unfold fetchMany.
  apply returns_try_catch; [| intros e; apply returns_ret; exact Hnil].
  destruct (negb (checkApiKey env)); [apply returns_ret; exact Hnil |].
  apply returns_bind. intros response.
  destruct (negb (ok response)); [apply returns_ret; exact Hnil |].
  apply returns_bind. intros data.
  destruct data; first [apply Hs | apply returns_ret; exact Hnil].
Qed.

Lemma fetchOne_refused url shape w :
  refusing env -> fst (fetchOne env url shape w) = Normal JNull.
Proof.
  intros Hr. unfold fetchOne, try_catch.
  destruct (negb (checkApiKey env)); [reflexivity |].
  unfold bind, doFetch.
  destruct (Hr (List.length (fetchLog w)) url) as [[e ->] | (r & -> & Hok)]; [reflexivity |].
  rewrite Hok. reflexivity.
Qed.

Lemma fetchMany_refused url shape w :
  refusing env -> fst (fetchMany env url shape w) = Normal (JArr []).
Proof.
  intros Hr. unfold fetchMany, try_catch.
  destruct (negb (checkApiKey env)); [reflexivity |].
  unfold bind, doFetch.
  destruct (Hr (List.length (fetchLog w)) url) as [[e ->] | (r & -> & Hok)]; [reflexivity |].
  rewrite Hok. reflexivity.
Qed.

Lemma requests_fetchOne url shape :
  (forall item, stable fetchLog (shape item)) ->
  requestsExactly (if checkApiKey env then 1 else 0) (fetchOne env url shape).
Proof.
  intros Hs w. unfold fetchOne. destruct (checkApiKey env); simpl.
  - exists [url]. split; [| reflexivity]. apply fetch_then_stable.
    + intros r. unfold readJson. stable_tac. apply Hs.
    + intros e. apply stable_ret.
  - exists []. rewrite app_nil_r. split; reflexivity.
Qed.

Lemma requests_fetchMany url shape :
  (forall items, stable fetchLog (shape items)) ->
  requestsExactly (if checkApiKey env then 1 else 0) (fetchMany env url shape).
Proof.
  intros Hs w. unfold fetchMany. destruct (checkApiKey env); simpl.
  - exists [url]. split; [| reflexivity]. apply fetch_then_stable.
    + intros r. unfold readJson. stable_tac. apply Hs.
    + intros e. apply stable_ret.
  - exists []. rewrite app_nil_r. split; reflexivity.
Qed.

Lemma stable_getPropOr {X} (f : World -> X) item keys d : stable f (getPropOr item keys d).
Proof. induction keys as [|k keys IH]; simpl; stable_tac. exact IH. Qed.

Lemma returns_getPropOr item keys d :
  isDefined d = true -> returns (getPropOr item keys d) (fun v => isDefined v = true).
Proof.
  intros Hd. induction keys as [|k keys IH]; simpl; [apply returns_ret; exact Hd |].
  intros w a w' H. apply bind_Normal_inv in H. destruct H as (v & w1 & _ & H).
  destruct (truthy v) eqn:Et.
  - unfold ret in H. injection H as <- _. apply truthy_isDefined. exact Et.
  - apply (IH w1 a w' H).
Qed.

(** X12. The FMP lookups of externalDataService.ts never throw, and fail
    soft: whatever the network and the payload do, each of them completes
    normally; and when every request fails or is answered with a status
    that is not a success, a single lookup gives [null] and a list lookup
    gives the empty array. *)
Theorem externalData_fail_soft :
  ((forall ticker, total (fetchStockQuote env ticker))
   /\ (forall ticker, total (fetchCompanyProfile env ticker))
   /\ (forall ticker, total (fetchKeyMetrics env ticker))
   /\ (forall ticker period limit, total (fetchIncomeStatement env ticker period limit))
   /\ (forall ticker days, total (fetchHistoricalPrices env ticker days))
   /\ (forall query, total (searchStocks env query))
   /\ total (fetchMarketGainers env)
   /\ total (fetchMarketLosers env)
   /\ (forall indicator, total (fetchEconomicIndicator env indicator)))
  /\ (refusing env ->
      forall w,
        (forall ticker, fst (fetchStockQuote env ticker w) = Normal JNull)
        /\ (forall ticker, fst (fetchCompanyProfile env ticker w) = Normal JNull)
        /\ (forall ticker, fst (fetchKeyMetrics env ticker w) = Normal JNull)
        /\ (forall ticker period limit,
               fst (fetchIncomeStatement env ticker period limit w) = Normal (JArr []))
        /\ (forall ticker days,
               fst (fetchHistoricalPrices env ticker days w) = Normal (JArr []))
        /\ (forall query, fst (searchStocks env query w) = Normal (JArr []))
        /\ fst (fetchMarketGainers env w) = Normal (JArr [])
        /\ fst (fetchMarketLosers env w) = Normal (JArr [])
        /\ (forall indicator,
               fst (fetchEconomicIndicator env indicator w) = Normal (JArr []))).
Proof.
  split.
  - repeat split; intros; first [apply total_fetchOne | apply total_fetchMany].
  - intros Hr w. repeat split; intros;
      first [apply fetchOne_refused; exact Hr | apply fetchMany_refused; exact Hr].
Qed.

(** X13. One request per lookup.  With the FMP key configured (present
    and not "demo"), each FMP lookup of externalDataService.ts sends
    exactly one HTTP request, whatever the reply is; without it, none. *)
Theorem externalData_one_request :
  (forall ticker,
      requestsExactly (if checkApiKey env then 1 else 0) (fetchStockQuote env ticker))
  /\ (forall ticker,
         requestsExactly (if checkApiKey env then 1 else 0) (fetchCompanyProfile env ticker))
  /\ (forall ticker,
         requestsExactly (if checkApiKey env then 1 else 0) (fetchKeyMetrics env ticker))
  /\ (forall ticker period limit,
         requestsExactly (if checkApiKey env then 1 else 0)
           (fetchIncomeStatement env ticker period limit))
  /\ (forall ticker days,
         requestsExactly (if checkApiKey env then 1 else 0)
           (fetchHistoricalPrices env ticker days))
  /\ (forall query,
         requestsExactly (if checkApiKey env then 1 else 0) (searchStocks env query))
  /\ requestsExactly (if checkApiKey env then 1 else 0) (fetchMarketGainers env)
  /\ requestsExactly (if checkApiKey env then 1 else 0) (fetchMarketLosers env)
  /\ (forall indicator,
         requestsExactly (if checkApiKey env then 1 else 0)
           (fetchEconomicIndicator env indicator)).
Proof.
  repeat split; intros;
    first [ apply requests_fetchOne | apply requests_fetchMany ];
    intros; stable_tac; apply stable_getPropOr.
Qed.

(** X14. The single lookups return complete objects.  A stock quote, a
    company profile and the key metrics are each either [null] or an
    object that has every property of its interface, none of them
    [undefined] or [null]: a property the backend left out is replaced by
    its default.  The symbol is the backend's, or the ticker asked for;
    for the key metrics it is always the ticker. *)
Theorem single_lookups_complete (ticker : string) :
  always (fetchStockQuote env ticker)
    (fun v => v = JNull \/ (definedObject quoteKeys v /\ symbolFor ticker v))
  /\ always (fetchCompanyProfile env ticker)
       (fun v => v = JNull \/ (definedObject profileKeys v /\ symbolFor ticker v))
  /\ always (fetchKeyMetrics env ticker)
       (fun v => v = JNull \/ (definedObject metricsKeys v /\ prop v "symbol" = JStr ticker)).
Proof.
  split; [| split]; (apply always_intro; [apply total_fetchOne |]);
    apply returns_fetchOne; intros item Hitem.
  - apply returns_ret. split.
    + eexists. split; [reflexivity |]. split; [reflexivity |].
      repeat constructor; apply isDefined_propOr; reflexivity.
    + apply symbolFor_intro.
  - apply returns_ret. split.
    + eexists. split; [reflexivity |]. split; [reflexivity |].
      repeat constructor;
        first [ apply isDefined_propOr; reflexivity
              | unfold parseIntOr0; simpl; destruct (parseInt env _); reflexivity ].
    + apply symbolFor_intro.
  - apply returns_bind. intros now. apply returns_ret. split.
    + eexists. split; [reflexivity |]. split; [reflexivity |].
      repeat constructor; first [ reflexivity | apply isDefined_propOr; reflexivity ].
    + reflexivity.
Qed.

(** X15. The list lookups return arrays, bounded where the code slices.
    Every list lookup always gives an array.  The market gainers, the
    market losers and an economic indicator have at most 10 entries; the
    historical prices have at most [days] entries when [days] is not
    negative, and at most 30 when it is left out; every row of an income
    statement has all seven properties of its interface, none of them
    [undefined] or [null]. *)
Theorem list_lookups_bounded :
  always (fetchMarketGainers env) (arrayUpTo 10)
  /\ always (fetchMarketLosers env) (arrayUpTo 10)
  /\ (forall indicator, always (fetchEconomicIndicator env indicator) (arrayUpTo 10))
  /\ (forall ticker days,
         0 <= days ->
         always (fetchHistoricalPrices env ticker (Some days)) (arrayUpTo (Z.to_nat days)))
  /\ (forall ticker, always (fetchHistoricalPrices env ticker None) (arrayUpTo 30))
  /\ (forall query, always (searchStocks env query) (arrayOf (fun _ => True)))
  /\ (forall ticker period limit,
         always (fetchIncomeStatement env ticker period limit)
           (arrayOf (definedObject statementKeys))).
Proof.
  assert (Hnil : forall n, arrayUpTo n (JArr [])) by (intros n; exists []; split; [reflexivity | simpl; lia]).
  assert (Hslice : forall items, returns (ret (JArr (slice0 10 items))) (arrayUpTo 10)).
  { intros items. apply returns_ret. eexists. split; [reflexivity |].
    apply (slice0_length 10). lia. }
  assert (Hprices : forall ticker days, 0 <= days ->
            always (fetchHistoricalPrices env ticker (Some days)) (arrayUpTo (Z.to_nat days))).
  { intros ticker days Hd. apply always_intro; [apply total_fetchMany |].
    apply returns_fetchMany; [apply Hnil |]. intros items.
    eapply returns_bind_with; [apply (returns_forM _ _ (fun _ => True)); intros x w a w' _; exact I |].
    intros ys [_ Hlen]. apply returns_ret. exists ys. split; [reflexivity |].
    rewrite Hlen. apply slice0_length. simpl. exact Hd. }
  split; [| split; [| split; [| split; [| split; [| split]]]]].
  - apply always_intro; [apply total_fetchMany |]. apply returns_fetchMany; [apply Hnil | exact Hslice].
  - apply always_intro; [apply total_fetchMany |]. apply returns_fetchMany; [apply Hnil | exact Hslice].
  - intros indicator. apply always_intro; [apply total_fetchMany |].
    apply returns_fetchMany; [apply Hnil | exact Hslice].
  - exact Hprices.
  - intros ticker. intros w. destruct (Hprices ticker 30 ltac:(lia) w) as (a & Ha & Hp).
    exists a. split; [exact Ha | exact Hp].
  - intros query. apply always_intro; [apply total_fetchMany |].
    apply returns_fetchMany; [exists []; split; [reflexivity | constructor] |]. intros items.
    eapply returns_bind_with; [apply (returns_forM _ _ (fun _ => True)); intros x w a w' _; exact I |].
    intros ys [Hys _]. apply returns_ret. exists ys. split; [reflexivity | exact Hys].
  - intros ticker period limit. apply always_intro; [apply total_fetchMany |].
    apply returns_fetchMany; [exists []; split; [reflexivity | constructor] |]. intros items.
    eapply returns_bind_with.
    + apply (returns_forM _ _ (definedObject statementKeys)). intros item.
      repeat (eapply returns_bind_with;
              [apply returns_getPropOr; reflexivity | intros ? ?]).
      apply returns_ret. eexists. split; [reflexivity |]. split; [reflexivity |].
      repeat constructor; assumption.
    + intros ys [Hys _]. apply returns_ret. exists ys. split; [reflexivity | exact Hys].
Qed.


End WithEnv.

Lemma externalData_fail_soft_witness :
  fst (fetchStockQuote (offlineEnv None (Some "fmp_key_123456") None) "BBCA" freshWorld)
  = Normal JNull.
Proof.
  apply (proj2 (externalData_fail_soft (offlineEnv None (Some "fmp_key_123456") None))).
  intros n url. left. eexists. reflexivity.
Defined.

Lemma list_lookups_bounded_witness :
  always (fetchHistoricalPrices (offlineEnv None (Some "fmp_key_123456") None) "BBCA" (Some 7))
    (arrayUpTo (Z.to_nat 7)).
Proof.
  apply (proj1 (proj2 (proj2 (proj2 (list_lookups_bounded
                                       (offlineEnv None (Some "fmp_key_123456") None)))))).
  lia.
Defined.


End LookupProofs.

(* ===================================================================== *)
(** * Properties of the FMP client and of the news client *)
(* ===================================================================== *)

Module ClientProofs.
Import Notions Examples MoreNotions MoreExamples EffectFacts LookupProofs.

Section FMP.
Import FMPService.
Variable env : Env.

Lemma total_getOne url : total (getOne env url).
Proof.
  unfold getOne. destruct (negb (IS_FMP_ENABLED env)); [apply total_ret |].
  apply total_try_catch. intros e. apply total_ret.
Qed.

Lemma total_getMany url : total (getMany env url).
Proof.
  unfold getMany. destruct (negb (IS_FMP_ENABLED env)); [apply total_ret |].
  apply total_try_catch. intros e. apply total_ret.
Qed.

Lemma requests_getOne url :
  requestsExactly (if IS_FMP_ENABLED env then 1 else 0) (getOne env url).
Proof.
  intros w. unfold getOne. destruct (IS_FMP_ENABLED env); simpl.
  - exists [url]. split; [| reflexivity]. apply fetch_then_stable.
    + intros r. unfold readJson. stable_tac.
    + intros e. apply stable_ret.
  - exists []. rewrite app_nil_r. split; reflexivity.
Qed.

Lemma requests_getMany url :
  requestsExactly (if IS_FMP_ENABLED env then 1 else 0) (getMany env url).
Proof.
  intros w. unfold getMany. destruct (IS_FMP_ENABLED env); simpl.
  - exists [url]. split; [| reflexivity]. apply fetch_then_stable.
    + intros r. unfold readJson. stable_tac.
    + intros e. apply stable_ret.
  - exists []. rewrite app_nil_r. split; reflexivity.
Qed.

Lemma returns_getMany url : returns (getMany env url) (arrayOf (fun _ => True)).
Proof.
  assert (Hnil : arrayOf (fun _ : JsVal => True) (JArr []))
    by (exists []; split; [reflexivity | constructor]).
  unfold getMany. destruct (negb (IS_FMP_ENABLED env)); [apply returns_ret; exact Hnil |].
  apply returns_try_catch; [| intros e; apply returns_ret; exact Hnil].
  apply returns_bind. intros response. apply returns_bind. intros data.
  apply returns_bind. intros err.
  destruct (truthy err); [apply returns_ret; exact Hnil |].
  apply returns_ret. destruct data; try exact Hnil.
  eexists. split; [reflexivity |]. apply Forall_true. intros x. exact I.
Qed.

Lemma getOne_payload url w r data :
  IS_FMP_ENABLED env = true ->
  fetch env (List.length (fetchLog w)) url = Normal r ->
  json r = Normal data ->
  fst (getOne env url w) = Normal (entityOf data).
Proof.
  intros He Hf Hj. unfold getOne. rewrite He. simpl.
  unfold try_catch, bind at 1, doFetch. rewrite Hf.
  unfold bind at 1, readJson, liftC. rewrite Hj.
  destruct data as [| |b|n|s|items|fields]; try reflexivity.
  unfold bind, getProp, ret, entityOf, prop.
  destruct (truthy (lookupField "error" fields)); reflexivity.
Qed.

Lemma getMany_payload url w r data :
  IS_FMP_ENABLED env = true ->
  fetch env (List.length (fetchLog w)) url = Normal r ->
  json r = Normal data ->
  fst (getMany env url w) = Normal (listOf data).
Proof.
  intros He Hf Hj. unfold getMany. rewrite He. simpl.
  unfold try_catch, bind at 1, doFetch. rewrite Hf.
  unfold bind at 1, readJson, liftC. rewrite Hj.
  destruct data as [| |b|n|s|items|fields]; try reflexivity.
  unfold bind, getProp, ret, listOf.
  destruct (truthy (lookupField "error" fields)); reflexivity.
Qed.

(** X17. The requests of the FMP client fail soft.  None of the twelve
    asynchronous functions of fmpService.ts (the lookups and the two news
    functions; the synchronous formatters are not among them) throws,
    whatever the network and the payload do.  Each lookup sends exactly
    one HTTP request when the key is enabled (longer than five
    characters) and none otherwise; the two news functions never send
    one.  Every list function gives an array. *)
Theorem fmp_client_fail_soft :
  ((forall symbol, total (getQuote env symbol))
   /\ (forall symbol, total (getCompanyProfile env symbol))
   /\ (forall symbol,
          requestsExactly (if IS_FMP_ENABLED env then 1 else 0) (getQuote env symbol))
   /\ (forall symbol,
          requestsExactly (if IS_FMP_ENABLED env then 1 else 0)
            (getCompanyProfile env symbol)))
  /\ ((forall symbol limit,
          always (getStockNews symbol limit) (fun v => v = JArr [])
          /\ requestsExactly 0 (getStockNews symbol limit))
      /\ (forall limit,
             always (getGeneralNews limit) (fun v => v = JArr [])
             /\ requestsExactly 0 (getGeneralNews limit)))
  /\ (forall m,
         (exists symbols, m = getMultipleQuotes env symbols)
         \/ (exists symbol period limit,
                m = getIncomeStatement env symbol period limit
                \/ m = getBalanceSheet env symbol period limit
                \/ m = getCashFlowStatement env symbol period limit
                \/ m = getKeyMetrics env symbol period limit)
         \/ m = getBiggestGainers env
         \/ m = getBiggestLosers env
         \/ (exists query limit, m = searchSymbol env query limit) ->
         always m (arrayOf (fun _ => True))
         /\ requestsExactly (if IS_FMP_ENABLED env then 1 else 0) m).
Proof.
  split; [| split].
  - repeat split; intros; first [apply total_getOne | apply requests_getOne].
  - split; intros; (split; [intros w; exists (JArr []); split; reflexivity
                           | apply requestsExactly_stable; intros w; reflexivity]).
  - intros m Hm.
    assert (Hmany : exists url, m = getMany env url).
    { destruct Hm as [(symbols & ->) | [(symbol & period & limit & [-> | [-> | [-> | ->]]])
                                       | [-> | [-> | (query & limit & ->)]]]];
        eexists; reflexivity. }
    destruct Hmany as (url & ->). split.
    + apply always_intro; [apply total_getMany | apply returns_getMany].
    + apply requests_getMany.
Qed.

(** X18. The FMP client reads the payload, not the status.  With the key
    enabled, when the request is answered and the body is JSON, the
    result is decided by the body alone, whatever [ok] and [status] are:
    a single lookup gives [null] when the body is [null] or carries a
    truthy [error], the first element when the body is an array
    ([undefined] for the empty array), and the body itself otherwise; a
    list lookup gives the body when it is an array and the empty array
    otherwise. *)
Theorem fmp_payload_decides w r data :
  IS_FMP_ENABLED env = true ->
  (forall url, fetch env (List.length (fetchLog w)) url = Normal r) ->
  json r = Normal data ->
  (forall symbol, fst (getQuote env symbol w) = Normal (entityOf data))
  /\ (forall symbol, fst (getCompanyProfile env symbol w) = Normal (entityOf data))
  /\ (forall symbols, fst (getMultipleQuotes env symbols w) = Normal (listOf data))
  /\ (forall symbol period limit,
         fst (getIncomeStatement env symbol period limit w) = Normal (listOf data)
         /\ fst (getBalanceSheet env symbol period limit w) = Normal (listOf data)
         /\ fst (getCashFlowStatement env symbol period limit w) = Normal (listOf data)
         /\ fst (getKeyMetrics env symbol period limit w) = Normal (listOf data))
  /\ fst (getBiggestGainers env w) = Normal (listOf data)
  /\ fst (getBiggestLosers env w) = Normal (listOf data)
  /\ (forall query limit, fst (searchSymbol env query limit w) = Normal (listOf data)).
Proof.
  intros He Hf Hj.
  repeat split; intros;
    first [ apply (getOne_payload _ w r data He (Hf _) Hj)
          | apply (getMany_payload _ w r data He (Hf _) Hj) ].
Qed.

End FMP.

Section News.
Import NewsService.
Variable env : Env.

Lemma lookupField_setField_same k v fields : lookupField k (setField k v fields) = v.
Proof.
  induction fields as [|[k' v'] rest IH]; simpl.
  - rewrite String.eqb_refl. reflexivity.
  - destruct (String.eqb k k') eqn:E; simpl; [rewrite String.eqb_refl | rewrite E]; auto.
Qed.

Lemma lookupField_setField_other k k0 v fields :
  k0 <> k -> lookupField k0 (setField k v fields) = lookupField k0 fields.
Proof.
  intros Hne. induction fields as [|[k' v'] rest IH]; simpl.
  - destruct (String.eqb_spec k0 k); [contradiction | reflexivity].
  - destruct (String.eqb_spec k k') as [->|Hk]; simpl.
    + destruct (String.eqb_spec k0 k'); [contradiction | reflexivity].
    + destruct (String.eqb k0 k'); [reflexivity | exact IH].
Qed.

(** An article the filter keeps. *)
Lemma returns_keepComplete articles :
  returns (keepComplete articles)
    (Forall (fun a => exists fields,
                 a = JObj fields
                 /\ truthy (lookupField "title" fields) = true
                 /\ truthy (lookupField "description" fields) = true)).
Proof.
  induction articles as [|a rest IH]; simpl; [apply returns_ret; constructor |].
  intros w kept w' H.
  apply bind_Normal_inv in H. destruct H as (title & w1 & Ht & H).
  apply bind_Normal_inv in H. destruct H as (keep & w2 & Hk & H).
  apply bind_Normal_inv in H. destruct H as (kept0 & w3 & Hrest & H).
  unfold ret in H. injection H as <- _. specialize (IH w2 kept0 w3 Hrest).
  destruct keep; [| exact IH]. constructor; [| exact IH].
  destruct (truthy title) eqn:Etitle; [| unfold ret in Hk; discriminate].
  apply bind_Normal_inv in Hk. destruct Hk as (description & w4 & Hd & Hk).
  unfold ret in Hk. injection Hk as Hdesc _.
  destruct a as [| |b|n|s|items|fields];
    try (unfold getProp, throw in Ht; discriminate);
    try (unfold getProp, ret in Ht; injection Ht as <- _; discriminate).
  unfold getProp, ret in Ht, Hd. injection Ht as <- _. injection Hd as <- _.
  exists fields. repeat split; assumption.
Qed.

Lemma indexKey_inj (i j : nat) : indexKey i = indexKey j -> i = j.
Proof.
  unfold indexKey. intros H.
  apply (f_equal NilEmpty.uint_of_string) in H. rewrite !NilEmpty.usu in H.
  injection H as H. apply (f_equal Nat.of_uint) in H.
  rewrite !DecimalNat.Unsigned.of_to in H. exact H.
Qed.

Lemma append_cancel_l (s a b : string) : s ++ a = s ++ b -> a = b.
Proof.
  induction s as [|c s IH].
  - rewrite !FileCodecProofs.append_nil_l. auto.
  - rewrite !FileCodecProofs.append_cons. intros [= H]. apply IH. exact H.
Qed.

Lemma withIds_complete now index kept :
  Forall (fun a => exists fields,
              a = JObj fields
              /\ truthy (lookupField "title" fields) = true
              /\ truthy (lookupField "description" fields) = true) kept ->
  Forall completeArticle (withIds now index kept).
Proof.
  intros H. revert index. induction H as [|a rest (fields & -> & Ht & Hd) _ IH]; intros index; simpl.
  - constructor.
  - constructor; [| apply IH].
    eexists _, _. split; [reflexivity |].
    rewrite !lookupField_setField_other by discriminate.
    rewrite lookupField_setField_same. repeat split; assumption.
Qed.

Lemma withIds_ids now index kept :
  List.map (fun a => prop a "id") (withIds now index kept)
  = List.map (fun i => JStr ("news_" ++ numberToString now ++ "_" ++ indexKey i))
      (seq index (List.length kept)).
Proof.
  revert index. induction kept as [|a rest IH]; intros index; simpl; [reflexivity |].
  rewrite lookupField_setField_same, IH. reflexivity.
Qed.

Lemma withIds_NoDup now index kept :
  NoDup (List.map (fun a => prop a "id") (withIds now index kept)).
Proof.
  rewrite withIds_ids. apply NoDup_fmap_2; [| apply NoDup_seq].
  intros i j H. apply indexKey_inj.
  apply (append_cancel_l "_"), (append_cancel_l (numberToString now)), (append_cancel_l "news_").
  congruence.
Qed.

Lemma total_searchFinancialNews query limit : total (searchFinancialNews env query limit).
Proof. unfold searchFinancialNews. apply total_try_catch. intros e. apply total_ret. Qed.

Lemma returns_searchFinancialNews query limit :
  returns (searchFinancialNews env query limit)
    (fun v => arrayOf completeArticle v /\ NoDup (articleIds v)).
Proof.
  assert (Hnil : arrayOf completeArticle (JArr []) /\ NoDup (articleIds (JArr []))).
  { split; [exists []; split; [reflexivity | constructor] | constructor]. }
  unfold searchFinancialNews.
  apply returns_try_catch; [| intros e; apply returns_ret; exact Hnil].
  destruct (String.eqb (API_KEY env) ""); [apply returns_ret; exact Hnil |].
  apply returns_bind. intros response.
  destruct (negb (ok response)).
  - apply returns_bind. intros error. apply returns_bind. intros _.
    apply returns_ret. exact Hnil.
  - apply returns_bind. intros data. apply returns_bind. intros st.
    apply returns_bind. intros articles.
    destruct (_ || _); [apply returns_ret; exact Hnil |].
    destruct articles; try apply returns_throw.
    eapply returns_bind_with; [apply returns_keepComplete |]. intros kept Hkept.
    apply returns_bind. intros now. apply returns_ret. split.
    + eexists. split; [reflexivity |]. apply withIds_complete. exact Hkept.
    + apply withIds_NoDup.
Qed.

(** X19. The news client fails soft and hands out complete articles.
    [searchFinancialNews], [getStockNews] and [getMacroEconomicNews] never
    throw and always give an array; every article in it is an object
    with a title and a description that are not empty and with an [id],
    and the ids of one result are pairwise different.  The search sends
    exactly one request when the key is not empty, none when it is; when
    the reply is not a success the result is the empty array whatever
    the body says. *)
Theorem news_client_fail_soft (limit : option Z) :
  (forall query,
      always (searchFinancialNews env query limit)
        (fun v => arrayOf completeArticle v /\ NoDup (articleIds v)))
  /\ (forall stockSymbol,
         always (getStockNews env stockSymbol limit)
           (fun v => arrayOf completeArticle v /\ NoDup (articleIds v)))
  /\ always (getMacroEconomicNews env limit)
       (fun v => arrayOf completeArticle v /\ NoDup (articleIds v))
  /\ (forall query,
         requestsExactly (if String.eqb (API_KEY env) "" then 0 else 1)
           (searchFinancialNews env query limit))
  /\ (forall query w,
         (forall url, exists r,
             fetch env (List.length (fetchLog w)) url = Normal r /\ ok r = false) ->
         fst (searchFinancialNews env query limit w) = Normal (JArr [])).
Proof.
  split; [| split; [| split; [| split]]].
  - intros query. apply always_intro;
      [apply total_searchFinancialNews | apply returns_searchFinancialNews].
  - intros stockSymbol. apply always_intro.
    + unfold getStockNews. apply total_try_catch. intros e. apply total_ret.
    + unfold getStockNews. apply returns_try_catch; [apply returns_searchFinancialNews |].
      intros e. apply returns_ret.
      split; [exists []; split; [reflexivity | constructor] | constructor].
  - apply always_intro.
    + unfold getMacroEconomicNews. apply total_try_catch. intros e. apply total_ret.
    + unfold getMacroEconomicNews.
      apply returns_try_catch; [apply returns_searchFinancialNews |].
      intros e. apply returns_ret.
      split; [exists []; split; [reflexivity | constructor] | constructor].
  - intros query w. destruct (String.eqb_spec (API_KEY env) "") as [Hk|Hk].
    + exists []. rewrite app_nil_r. split; [| reflexivity].
      unfold searchFinancialNews. rewrite Hk. reflexivity.
    + destruct (GatewayProofs.searchFinancialNews_requests env query limit w Hk) as (url & Hurl).
      exists [url]. split; [exact Hurl | reflexivity].
  - intros query w Hr. unfold searchFinancialNews, try_catch.
    destruct (String.eqb (API_KEY env) ""); [reflexivity |].
    unfold bind at 1, doFetch.
    match goal with |- context [fetch env _ ?u] => destruct (Hr u) as (r & -> & Hok) end.
    rewrite Hok. simpl. unfold bind, readJson, liftC.
    destruct (json r) as [error|e]; [| reflexivity].
    destruct error; reflexivity.
Qed.

End News.

Lemma fmp_payload_decides_witness :
  fst (FMPService.getBiggestGainers (repliedEnv false 402 (JArr [moverRow])) freshWorld)
  = Normal (JArr [moverRow]).
Proof.
  apply (proj1 (proj2 (proj2 (proj2 (proj2
           (fmp_payload_decides (repliedEnv false 402 (JArr [moverRow])) freshWorld
              {| ok := false; status := 402; json := Normal (JArr [moverRow]) |}
              (JArr [moverRow]) eq_refl (fun _ => eq_refl) eq_refl)))))).
Defined.

Lemma fmp_client_fail_soft_witness :
  always (FMPService.getBiggestLosers (repliedEnv true 200 JNull)) (arrayOf (fun _ => True))
  /\ requestsExactly
       (if FMPService.IS_FMP_ENABLED (repliedEnv true 200 JNull) then 1 else 0)
       (FMPService.getBiggestLosers (repliedEnv true 200 JNull)).
Proof.
  apply (proj2 (proj2 (fmp_client_fail_soft (repliedEnv true 200 JNull)))).
  right. right. right. left. reflexivity.
Defined.

Lemma news_client_fail_soft_witness :
  fst (NewsService.searchFinancialNews (repliedEnv false 401 JNull) (Some "BBCA") (Some 5)
         freshWorld)
  = Normal (JArr []).
Proof.
  apply (proj2 (proj2 (proj2 (proj2
           (news_client_fail_soft (repliedEnv false 401 JNull) (Some 5)))))).
  intros url. eexists. split; reflexivity.
Defined.

End ClientProofs.

(* ===================================================================== *)
(** * Further properties of the session stores *)
(* ===================================================================== *)

Module SessionProofs.
Import Notions Examples MoreNotions MoreExamples EffectFacts.

(** ** The local store *)

Section Local.
Import StorageService.

Lemma getAll_save session st :
  getAllChatSessions (saveChatSession session st) = upsert session (getAllChatSessions st).
Proof.
  unfold saveChatSession, upsert.
  destruct (findIndex (s_id session) (getAllChatSessions st)); reflexivity.
Qed.

Lemma findIndex_None id sessions :
  findIndex id sessions = None <-> ~ In id (idsOf sessions).
Proof.
  induction sessions as [|x xs IH]; simpl; [tauto |].
  destruct (String.eqb_spec (s_id x) id) as [E|E].
  - split; [discriminate | intros H; exfalso; apply H; left; exact E].
  - destruct (findIndex id xs) as [i|]; simpl.
    + split; [discriminate |]. intros H. exfalso.
      assert (Hn : ~ In id (idsOf xs)) by tauto. apply IH in Hn. discriminate.
    + split; [| reflexivity]. intros _ [H|H]; [contradiction |].
      apply (proj1 IH eq_refl). exact H.
Qed.

Lemma upsert_ids session sessions :
  idsOf (upsert session sessions)
  = match StorageService.findIndex (s_id session) sessions with
    | Some _ => idsOf sessions
    | None => (idsOf sessions ++ [s_id session])%list
    end.
Proof.
  unfold upsert. induction sessions as [|x xs IH]; simpl; [reflexivity |].
  destruct (String.eqb_spec (s_id x) (s_id session)) as [E|E]; simpl.
  - rewrite E. reflexivity.
  - destruct (findIndex (s_id session) xs) as [i|]; simpl in *; rewrite IH; reflexivity.
Qed.

Lemma upsert_find_other session sessions id :
  id <> s_id session ->
  List.find (fun s => String.eqb (s_id s) id) (upsert session sessions)
  = List.find (fun s => String.eqb (s_id s) id) sessions.
Proof.
  intros Hne. unfold upsert. induction sessions as [|x xs IH]; simpl.
  - destruct (String.eqb_spec (s_id session) id); [congruence | reflexivity].
  - destruct (String.eqb_spec (s_id x) (s_id session)) as [E|E]; simpl.
    + destruct (String.eqb_spec (s_id session) id); [congruence |].
      destruct (String.eqb_spec (s_id x) id); [congruence | reflexivity].
    + destruct (findIndex (s_id session) xs) as [i|]; simpl in *;
        destruct (String.eqb (s_id x) id); try reflexivity; exact IH.
Qed.

Lemma upsert_length session sessions :
  List.length (upsert session sessions)
  = match StorageService.findIndex (s_id session) sessions with
    | Some _ => List.length sessions
    | None => S (List.length sessions)
    end.
Proof.
  unfold upsert. destruct (findIndex (s_id session) sessions).
  - apply length_insert.
  - rewrite length_app. simpl. lia.
Qed.


Lemma upsert_split session sessions :
  In (s_id session) (idsOf sessions) ->
  exists before old after,
    sessions = (before ++ old :: after)%list
    /\ s_id old = s_id session
    /\ ~ In (s_id session) (idsOf before)
    /\ upsert session sessions = (before ++ session :: after)%list.
Proof.
  unfold upsert. induction sessions as [|x xs IH]; simpl; [intros [] |]. intros Hin.
  destruct (String.eqb_spec (s_id x) (s_id session)) as [E|E].
  - exists [], x, xs. repeat split; [exact E | intros []].
  - assert (Hxs : In (s_id session) (idsOf xs)) by (destruct Hin; [contradiction | assumption]).
    destruct (IH Hxs) as (before & old & after & Hsplit & Hold & Hbefore & Hup).
    destruct (findIndex (s_id session) xs) as [i|] eqn:Ei.
    + exists (x :: before), old, after. simpl in *. rewrite Hup, Hsplit at 1.
      repeat split; [exact Hold | intros [H|H]; [contradiction | exact (Hbefore H)]].
    + exfalso. apply findIndex_None in Ei. exact (Ei Hxs).
Qed.

(** X20. A local save is an upsert.  After [saveChatSession] the session
    saved is the one read back under its id.  When a session with that id
    was stored, the first such session is replaced, in place, and nothing
    else in the list changes; when the id is new, the session is added at
    the end.  Ids that were pairwise different stay so; every session
    with another id is read back as before; the current-session pointer
    is untouched. *)
Theorem local_save_is_upsert session st :
  getChatSession (s_id session) (saveChatSession session st) = Some session
  /\ (In (s_id session) (idsOf (getAllChatSessions st)) ->
      exists before old after,
        getAllChatSessions st = (before ++ old :: after)%list
        /\ s_id old = s_id session
        /\ ~ In (s_id session) (idsOf before)
        /\ getAllChatSessions (saveChatSession session st)
           = (before ++ session :: after)%list
        /\ idsOf (getAllChatSessions (saveChatSession session st))
           = idsOf (getAllChatSessions st))
  /\ (~ In (s_id session) (idsOf (getAllChatSessions st)) ->
      getAllChatSessions (saveChatSession session st)
      = (getAllChatSessions st ++ [session])%list)
  /\ (NoDup (idsOf (getAllChatSessions st)) ->
      NoDup (idsOf (getAllChatSessions (saveChatSession session st))))
  /\ (forall id, id <> s_id session ->
         getChatSession id (saveChatSession session st) = getChatSession id st)
  /\ currentSessionId (saveChatSession session st) = currentSessionId st.
Proof.
  pose proof (findIndex_None (s_id session) (getAllChatSessions st)) as Hnone.
  split; [apply StoreProofs.local_get_after_save |].
  split; [| split; [| split; [| split]]].
  - intros Hin. rewrite getAll_save.
    destruct (upsert_split session (getAllChatSessions st) Hin)
      as (before & old & after & Hsplit & Hold & Hbefore & Hup).
    exists before, old, after. split; [exact Hsplit |]. split; [exact Hold |].
    split; [exact Hbefore |]. split; [exact Hup |].
    rewrite upsert_ids.
    destruct (findIndex (s_id session) (getAllChatSessions st)); [reflexivity |].
    exfalso. apply (proj1 Hnone eq_refl). exact Hin.
  - intros Hnot. rewrite getAll_save. unfold upsert.
    rewrite (proj2 Hnone Hnot). reflexivity.
  - intros Hnd. rewrite getAll_save, upsert_ids.
    destruct (findIndex (s_id session) (getAllChatSessions st)) eqn:E; [exact Hnd |].
    apply NoDup_app. split; [exact Hnd |]. split.
    + intros x Hx Hx'. apply list_elem_of_singleton in Hx'. subst x.
      apply (proj1 Hnone eq_refl). apply list_elem_of_In. exact Hx.
    + apply NoDup_singleton.
  - intros id Hne. unfold getChatSession. rewrite getAll_save.
    apply upsert_find_other. exact Hne.
  - unfold saveChatSession.
    destruct (findIndex (s_id session) (getAllChatSessions st)); reflexivity.
Qed.

Lemma find_filter_same id (sessions : list ChatSession) :
  List.find (fun s => String.eqb (s_id s) id)
    (List.filter (fun s => negb (String.eqb (s_id s) id)) sessions) = None.
Proof.
  induction sessions as [|x xs IH]; simpl; [reflexivity |].
  destruct (String.eqb (s_id x) id) eqn:E; simpl; [exact IH |]. rewrite E. exact IH.
Qed.

Lemma find_filter_other id id' (sessions : list ChatSession) :
  id' <> id ->
  List.find (fun s => String.eqb (s_id s) id')
    (List.filter (fun s => negb (String.eqb (s_id s) id)) sessions)
  = List.find (fun s => String.eqb (s_id s) id') sessions.
Proof.
  intros Hne. induction sessions as [|x xs IH]; simpl; [reflexivity |].
  destruct (String.eqb_spec (s_id x) id) as [E|E]; simpl.
  - destruct (String.eqb_spec (s_id x) id'); [congruence | exact IH].
  - destruct (String.eqb (s_id x) id'); [reflexivity | exact IH].
Qed.

Lemma filter_absent id (sessions : list ChatSession) :
  ~ In id (idsOf sessions) ->
  List.filter (fun s => negb (String.eqb (s_id s) id)) sessions = sessions.
Proof.
  induction sessions as [|x xs IH]; simpl; [reflexivity |]. intros H.
  destruct (String.eqb_spec (s_id x) id) as [E|E]; simpl; [tauto |].
  rewrite IH; [reflexivity | tauto].
Qed.

Lemma getAll_delete id st :
  getAllChatSessions (deleteChatSession id st)
  = List.filter (fun s => negb (String.eqb (s_id s) id)) (getAllChatSessions st).
Proof. reflexivity. Qed.

Lemma deleteAllLocal_sessions sessions st :
  getAllChatSessions (HistoryScreen.deleteAllLocal sessions st)
  = List.filter (fun s => negb (listed (idsOf sessions) s)) (getAllChatSessions st).
Proof.
  unfold HistoryScreen.deleteAllLocal. revert st.
  induction sessions as [|x xs IH]; intros st; simpl.
  - induction (getAllChatSessions st) as [|y ys IHy]; simpl; [reflexivity |].
    rewrite <- IHy. reflexivity.
  - rewrite IH, getAll_delete.
    induction (getAllChatSessions st) as [|y ys IHy]; simpl; [reflexivity |].
    unfold listed at 2. simpl.
    destruct (String.eqb (s_id y) (s_id x)) eqn:E; simpl; [exact IHy |].
    unfold listed at 1. destruct (existsb (String.eqb (s_id y)) (idsOf xs)); simpl;
      [exact IHy | rewrite IHy; reflexivity].
Qed.

(** X21. Deleting from the local store.  After [deleteChatSession id] no
    session with that id is found, every session with another id is
    found as before, and deleting an id that is not stored leaves the
    list as it was.  The bulk delete of the history screen, which deletes
    the listed sessions one by one, removes exactly the stored sessions
    whose id is listed; run on the list just loaded from the store, it
    leaves the store empty.  [clearAllSessions] leaves no session and no
    current-session pointer. *)
Theorem local_delete st :
  (forall id,
      getChatSession id (deleteChatSession id st) = None
      /\ (forall id', id' <> id ->
             getChatSession id' (deleteChatSession id st) = getChatSession id' st)
      /\ (~ In id (idsOf (getAllChatSessions st)) ->
          getAllChatSessions (deleteChatSession id st) = getAllChatSessions st))
  /\ (forall sessions,
         getAllChatSessions (HistoryScreen.deleteAllLocal sessions st)
         = List.filter (fun s => negb (listed (idsOf sessions) s)) (getAllChatSessions st))
  /\ getAllChatSessions (HistoryScreen.deleteAllLocal (getAllChatSessions st) st) = []
  /\ (getAllChatSessions (clearAllSessions st) = []
      /\ currentSessionId (clearAllSessions st) = None).
Proof.
  split; [| split; [| split]].
  - intros id. split; [| split].
    + apply find_filter_same.
    + intros id' Hne. apply find_filter_other. exact Hne.
    + intros Hnot. rewrite getAll_delete. apply filter_absent. exact Hnot.
  - intros sessions. apply deleteAllLocal_sessions.
  - rewrite deleteAllLocal_sessions.
    assert (H : forall l all : list ChatSession,
               (forall s, In s l -> In s all) ->
               List.filter (fun s => negb (listed (idsOf all) s)) l = []).
    { intros l all. induction l as [|y ys IH]; intros Hsub; simpl; [reflexivity |].
      assert (Hy : listed (idsOf all) y = true).
      { unfold listed. apply existsb_exists. exists (s_id y). split.
        - apply in_map. apply Hsub. left. reflexivity.
        - apply String.eqb_refl. }
      rewrite Hy. simpl. apply IH. intros s Hs. apply Hsub. right. exact Hs. }
    apply H. auto.
  - split; reflexivity.
Qed.

(** X22. Adding a message to a local session.  When no session has the
    id, [addMessageToSession] changes nothing.  When one has, it is read
    back afterwards with the message added at the end of its messages
    and with the new [updatedAt], its other properties unchanged, and
    every session with another id is read back as before. *)
Theorem local_add_message sessionId message now st :
  (getChatSession sessionId st = None ->
   addMessageToSession sessionId message now st = st)
  /\ (forall session,
         getChatSession sessionId st = Some session ->
         getChatSession sessionId (addMessageToSession sessionId message now st)
         = Some (withMessage session message now)
         /\ (forall id, id <> sessionId ->
                getChatSession id (addMessageToSession sessionId message now st)
                = getChatSession id st)
         /\ List.length (getAllChatSessions (addMessageToSession sessionId message now st))
            = List.length (getAllChatSessions st)).
Proof.
  split.
  - intros H. unfold addMessageToSession. rewrite H. reflexivity.
  - intros session H.
    assert (Hid : s_id session = sessionId).
    { unfold getChatSession in H. apply List.find_some in H.
      destruct H as [_ H]. apply String.eqb_eq. exact H. }
    assert (Hadd : addMessageToSession sessionId message now st
                   = saveChatSession (withMessage session message now) st)
      by (unfold addMessageToSession; rewrite H; reflexivity).
    rewrite Hadd. split; [| split].
    + rewrite <- Hid at 1.
      apply (StoreProofs.local_get_after_save (withMessage session message now) st).
    + intros id Hne. unfold getChatSession. rewrite getAll_save.
      apply upsert_find_other. simpl. congruence.
    + rewrite getAll_save, upsert_length. simpl.
      destruct (findIndex (s_id session) (getAllChatSessions st)) eqn:E; [reflexivity |].
      exfalso. apply findIndex_None in E. apply E.
      unfold getChatSession in H. apply List.find_some in H. destruct H as [Hin _].
      apply in_map. exact Hin.
Qed.

End Local.

(** ** The remote store *)

Section Remote.
Import FirestoreService.

Lemma deleteChatSession_signed_in id c uid :
  currentUser c = Some uid ->
  deleteChatSession id c
  = (Normal tt, {| currentUser := currentUser c;
                   chats := delete (uid, id) (chats c);
                   clientNow := clientNow c;
                   serverNow := serverNow c |}).
Proof.
  intros Hu. destruct c as [cu ch cn sn]. simpl in Hu. subst cu. reflexivity.
Qed.

Lemma getChatSession_absent id c uid :
  currentUser c = Some uid -> chats c !! (uid, id) = None ->
  getChatSession id c = (Normal None, c).
Proof.
  intros Hu Hnone. destruct c as [cu ch cn sn]. simpl in Hu, Hnone. subst cu.
  unfold getChatSession, try_catch, bind, getUserId. cbn [currentUser chats].
  rewrite Hnone. reflexivity.
Qed.

(** X23. Signed out, the remote store is neither written nor read.
    Without a signed-in user, [saveChatSession] and [deleteChatSession]
    throw "User not authenticated" and leave every document as it was;
    [getChatSession] swallows the same error and returns [null]; the
    bulk delete of the history screen stops at its first session, and
    deletes nothing. *)
Theorem remote_signed_out c :
  currentUser c = None ->
  (forall session, saveChatSession session c = (Throw NOT_AUTHENTICATED, c))
  /\ (forall id, deleteChatSession id c = (Throw NOT_AUTHENTICATED, c))
  /\ (forall id, getChatSession id c = (Normal None, c))
  /\ (forall id ids,
         HistoryScreen.deleteAllRemote (id :: ids) c = (Throw NOT_AUTHENTICATED, c)).
Proof.
  intros Hu. repeat split; intros;
    unfold saveChatSession, deleteChatSession, getChatSession, HistoryScreen.deleteAllRemote,
      deleteChatSession, try_catch, bind, getUserId, throw, ret;
    rewrite Hu; reflexivity.
Qed.

Lemma foldr_insert_other (data : list (string * JsVal)) (old : gmap string FieldValue) k :
  ~ In k (List.map fst data) ->
  foldr (fun kv d => <[kv.1 := FJs kv.2]> d) old data !! k = old !! k.
Proof.
  induction data as [|[k' v] rest IH]; simpl; [reflexivity |]. intros H.
  rewrite lookup_insert_ne by tauto. apply IH. tauto.
Qed.

(** X24. A remote save is a merge into one document.  Signed in,
    [saveChatSession] completes and touches only the document of that
    user and that session id: every other document, of this user or of
    another, is as before.  In the document it writes the title (the
    session's, or "Chat Baru" when that is missing or empty), the
    messages and the attachments in their stored form, createdAt and
    updatedAt, and keeps every other field already stored.  The
    [createdAt] written is the session's own, or the client clock when
    the session has none or has 0; [updatedAt] is the server's time. *)
Theorem remote_save_merges session c uid :
  currentUser c = Some uid ->
  exists c' doc,
    saveChatSession session c = (Normal tt, c')
    /\ chats c' !! (uid, s_id session) = Some doc
    /\ (forall key, key <> (uid, s_id session) -> chats c' !! key = chats c !! key)
    /\ (forall k, ~ In k writtenKeys ->
           doc !! k = default ∅ (chats c !! (uid, s_id session)) !! k)
    /\ doc !! "title" = Some (FJs (JStr (strOr (s_title session) "Chat Baru")))
    /\ doc !! "messages" = Some (FJs (JArr (List.map storedMessage (s_messages session))))
    /\ doc !! "attachments"
       = Some (FJs (JArr (List.map storedAttachment (default [] (s_attachments session)))))
    /\ doc !! "createdAt" = Some (FJs (JNum (createdAtFor session (clientNow c))))
    /\ doc !! "updatedAt" = Some (FTimestamp (serverNow c))
    /\ currentUser c' = Some uid.
Proof.
  intros Hu.
  destruct (StoreProofs.saveChatSession_signed_in session c uid Hu) as [_ Hsave].
  destruct (StoreProofs.writtenDoc_sessionData c uid session (clientNow c))
    as (Ht & Hm & Ha & _ & Hup).
  exists (afterWrite c uid (s_id session) (sessionData session (clientNow c))),
         (writtenDoc c uid (s_id session) (sessionData session (clientNow c))).
  split; [exact Hsave |]. unfold afterWrite. cbn [chats currentUser].
  split; [apply lookup_insert_eq |].
  split; [intros key Hne; apply lookup_insert_ne; congruence |].
  split; [| split; [| split; [| split; [| split; [| split]]]]].
  - intros k Hk. unfold writtenDoc, writtenKeys in *.
    rewrite lookup_insert_ne by (simpl in Hk; intros E; apply Hk; tauto).
    apply foldr_insert_other. simpl in *. tauto.
  - exact Ht.
  - rewrite Hm. do 3 f_equal. apply List.map_ext. exact StoreProofs.cleanMessage_stored.
  - rewrite Ha. do 3 f_equal. apply List.map_ext. exact StoreProofs.cleanAttachment_stored.
  - unfold writtenDoc, sessionData, createdAtFor. simpl. simplify_map_eq. reflexivity.
  - exact Hup.
  - exact Hu.
Qed.

Lemma deleteAllRemote_signed_in ids c uid :
  currentUser c = Some uid ->
  exists c',
    HistoryScreen.deleteAllRemote ids c = (Normal tt, c')
    /\ currentUser c' = Some uid
    /\ (forall id, In id ids -> chats c' !! (uid, id) = None)
    /\ (forall u id, u <> uid \/ ~ In id ids -> chats c' !! (u, id) = chats c !! (u, id)).
Proof.
  revert c. induction ids as [|x xs IH]; intros c Hu.
  - exists c. simpl. split; [reflexivity |]. split; [exact Hu |].
    split; [intros id [] | intros u id _; reflexivity].
  - simpl. unfold bind. rewrite (deleteChatSession_signed_in x c uid Hu).
    match goal with |- context [HistoryScreen.deleteAllRemote xs ?c0] =>
      destruct (IH c0 Hu) as (c' & Hrun & Hu' & Hgone & Hkept)
    end.
    exists c'. split; [exact Hrun |]. split; [exact Hu' |]. split.
    + intros id [<- | Hin].
      * destruct (in_dec string_dec x xs) as [Hx|Hx]; [apply Hgone; exact Hx |].
        rewrite Hkept by (right; exact Hx). simpl. apply lookup_delete_eq.
      * apply Hgone. exact Hin.
    + intros u id H. rewrite Hkept by (destruct H as [H|H]; [left; exact H | right; tauto]).
      simpl. apply lookup_delete_ne. destruct H as [H|H]; [congruence |].
      intros [= _ E]. apply H. left. exact E.
Qed.

(** X25. Deleting from the remote store.  Signed in, [deleteChatSession]
    completes; the session is then read back as [null]; every other
    document, of this user or of another, is as before.  The bulk delete
    of the history screen completes, leaves none of the listed sessions
    of this user, and touches no other document. *)
Theorem remote_delete c uid :
  currentUser c = Some uid ->
  (forall id,
      exists c',
        deleteChatSession id c = (Normal tt, c')
        /\ getChatSession id c' = (Normal None, c')
        /\ (forall key, key <> (uid, id) -> chats c' !! key = chats c !! key))
  /\ (forall ids,
         exists c',
           HistoryScreen.deleteAllRemote ids c = (Normal tt, c')
           /\ (forall id, In id ids -> getChatSession id c' = (Normal None, c'))
           /\ (forall u id, u <> uid \/ ~ In id ids ->
                  chats c' !! (u, id) = chats c !! (u, id))).
Proof.
  intros Hu. split.
  - intros id. eexists. split; [apply (deleteChatSession_signed_in id c uid Hu) |]. split.
    + apply (getChatSession_absent id _ uid); [exact Hu | apply lookup_delete_eq].
    + intros key Hne. simpl. apply lookup_delete_ne. congruence.
  - intros ids. destruct (deleteAllRemote_signed_in ids c uid Hu)
      as (c' & Hrun & Hu' & Hgone & Hkept).
    exists c'. split; [exact Hrun |]. split; [| exact Hkept].
    intros id Hin. apply (getChatSession_absent id c' uid Hu'). apply Hgone. exact Hin.
Qed.

End Remote.

Lemma local_save_is_upsert_witness :
  StorageService.getAllChatSessions
    (StorageService.saveChatSession untitledSession
       (StorageService.saveChatSession titledSession emptyStorage))
  = [titledSession; untitledSession]
  /\ StorageService.getAllChatSessions
       (StorageService.saveChatSession retitledSession
          (StorageService.saveChatSession untitledSession
             (StorageService.saveChatSession titledSession emptyStorage)))
     = [retitledSession; untitledSession]
  /\ StorageService.getAllChatSessions (StorageService.saveChatSession titledSession emptyStorage)
     = [titledSession].
Proof.
  split; [| split].
  - apply (proj1 (proj2 (proj2 (local_save_is_upsert untitledSession
                                  (StorageService.saveChatSession titledSession emptyStorage))))).
    simpl. intros [H | []]. discriminate H.
  - destruct (proj1 (proj2 (local_save_is_upsert retitledSession
                              (StorageService.saveChatSession untitledSession
                                 (StorageService.saveChatSession titledSession emptyStorage)))))
      as (before & old & after & Hsplit & _ & Hbefore & Hup & _);
      [simpl; tauto |].
    rewrite Hup. change (StorageService.getAllChatSessions _)
      with [titledSession; untitledSession] in Hsplit.
    destruct before as [|b before]; simpl in Hsplit.
    + injection Hsplit as _ <-. reflexivity.
    + injection Hsplit as <- _. exfalso. apply Hbefore. left. reflexivity.
  - apply (proj1 (proj2 (proj2 (local_save_is_upsert titledSession emptyStorage)))).
    simpl. tauto.
Defined.

Lemma local_delete_witness :
  StorageService.getChatSession "chat_1"
    (StorageService.deleteChatSession "chat_2"
       (StorageService.saveChatSession titledSession emptyStorage))
  = StorageService.getChatSession "chat_1"
      (StorageService.saveChatSession titledSession emptyStorage).
Proof.
  apply (proj1 (proj2 (proj1 (local_delete
           (StorageService.saveChatSession titledSession emptyStorage)) "chat_2"))).
  discriminate.
Defined.

Lemma local_add_message_witness :
  StorageService.addMessageToSession "chat_9" plainMessage 1700000000600 emptyStorage
  = emptyStorage
  /\ StorageService.getChatSession "chat_1"
       (StorageService.addMessageToSession "chat_1" plainMessage 1700000000600
          (StorageService.saveChatSession titledSession emptyStorage))
     = Some {| s_id := "chat_1"; s_title := Some "Analisis laporan ini";
               s_messages := [questionMessage; plainMessage];
               s_createdAt := Some 1700000000000; s_updatedAt := Some 1700000000600;
               s_attachments := Some [] |}.
Proof.
  split.
  - apply (proj1 (local_add_message "chat_9" plainMessage 1700000000600 emptyStorage)).
    reflexivity.
  - apply (proj1 (proj2 (local_add_message "chat_1" plainMessage 1700000000600
                           (StorageService.saveChatSession titledSession emptyStorage))
                    titledSession eq_refl)).
Defined.

Lemma remote_signed_out_witness :
  FirestoreService.saveChatSession titledSession
    (FirestoreService.mkCloud None ∅ 1700000000500 1700000000900)
  = (Throw NOT_AUTHENTICATED, FirestoreService.mkCloud None ∅ 1700000000500 1700000000900).
Proof.
  apply (proj1 (remote_signed_out
                  (FirestoreService.mkCloud None ∅ 1700000000500 1700000000900) eq_refl)).
Defined.

Lemma remote_save_merges_witness :
  exists c' doc,
    FirestoreService.saveChatSession titledSession signedIn = (Normal tt, c')
    /\ FirestoreService.chats c' !! ("uid_1", s_id titledSession) = Some doc
    /\ (forall key, key <> ("uid_1", s_id titledSession) ->
           FirestoreService.chats c' !! key = FirestoreService.chats signedIn !! key)
    /\ (forall k, ~ In k writtenKeys ->
           doc !! k
           = default ∅ (FirestoreService.chats signedIn !! ("uid_1", s_id titledSession)) !! k)
    /\ doc !! "title"
       = Some (FirestoreService.FJs (JStr (strOr (s_title titledSession) "Chat Baru")))
    /\ doc !! "messages"
       = Some (FirestoreService.FJs
                 (JArr (List.map storedMessage (s_messages titledSession))))
    /\ doc !! "attachments"
       = Some (FirestoreService.FJs
                 (JArr (List.map storedAttachment (default [] (s_attachments titledSession)))))
    /\ doc !! "createdAt"
       = Some (FirestoreService.FJs
                 (JNum (createdAtFor titledSession (FirestoreService.clientNow signedIn))))
    /\ doc !! "updatedAt"
       = Some (FirestoreService.FTimestamp (FirestoreService.serverNow signedIn))
    /\ FirestoreService.currentUser c' = Some "uid_1".
Proof.
  apply (remote_save_merges titledSession signedIn "uid_1"). reflexivity.
Defined.

Lemma remote_delete_witness :
  exists c',
    FirestoreService.deleteChatSession "chat_1" signedIn = (Normal tt, c')
    /\ FirestoreService.getChatSession "chat_1" c' = (Normal None, c')
    /\ (forall key, key <> ("uid_1", "chat_1") ->
           FirestoreService.chats c' !! key = FirestoreService.chats signedIn !! key).
Proof.
  apply (proj1 (remote_delete signedIn "uid_1" eq_refl) "chat_1").
Defined.

End SessionProofs.

(* ===================================================================== *)
(** * Properties of the text helpers *)
(* ===================================================================== *)

Module UtilsProofs.
Import Utils.

(** X26. [truncateText] keeps a text that fits and otherwise cuts it to
    the limit: a text of at most [maxLength] units is returned as it is;
    a longer one becomes its first [maxLength - suffix.length] units
    followed by the suffix, [maxLength] units in all, when the suffix
    itself fits in the limit; when the suffix is longer than the limit the
    result is the suffix alone, which is longer than the limit. *)
Theorem truncateText_bounds {U : Type} (text suffix : list U) (maxLength : Z) :
  (Z.of_nat (List.length text) <= maxLength -> truncateText text maxLength suffix = text)
  /\ (maxLength < Z.of_nat (List.length text) ->
      Z.of_nat (List.length suffix) <= maxLength ->
      truncateText text maxLength suffix
      = (take (Z.to_nat maxLength - List.length suffix) text ++ suffix)%list
      /\ Z.of_nat (List.length (truncateText text maxLength suffix)) = maxLength)
  /\ (maxLength < Z.of_nat (List.length text) ->
      maxLength < Z.of_nat (List.length suffix) ->
      truncateText text maxLength suffix = suffix).
Proof.
  unfold truncateText, substring0. split; [| split].
  - intros H. destruct (Z.leb_spec (Z.of_nat (List.length text)) maxLength); [reflexivity | lia].
  - intros Hlong Hfits.
    destruct (Z.leb_spec (Z.of_nat (List.length text)) maxLength); [lia |].
    replace (Z.to_nat (maxLength - Z.of_nat (List.length suffix)))
      with (Z.to_nat maxLength - List.length suffix)%nat by lia.
    split; [reflexivity |]. rewrite length_app, length_take. lia.
  - intros Hlong Hover.
    destruct (Z.leb_spec (Z.of_nat (List.length text)) maxLength); [lia |].
    replace (Z.to_nat (maxLength - Z.of_nat (List.length suffix))) with 0%nat by lia.
    reflexivity.
Qed.

Lemma truncateText_bounds_witness :
  truncateText ["S"; "a"; "h"; "a"; "m"; " "; "B"; "B"; "C"; "A"]%char 8
    ["."; "."; "."]%char
  = (take (Z.to_nat 8 - 3) ["S"; "a"; "h"; "a"; "m"; " "; "B"; "B"; "C"; "A"]%char
     ++ ["."; "."; "."]%char)%list
  /\ Z.of_nat (List.length (truncateText ["S"; "a"; "h"; "a"; "m"; " "; "B"; "B"; "C"; "A"]%char
                              8 ["."; "."; "."]%char)) = 8.
Proof.
  apply (proj1 (proj2 (truncateText_bounds
                         ["S"; "a"; "h"; "a"; "m"; " "; "B"; "B"; "C"; "A"]%char
                         ["."; "."; "."]%char 8))); simpl; lia.
Defined.

End UtilsProofs.
